(** * modl.classification: a shallow embedding of the factored multi-dataset
      logistic estimator ([FactoredLogistic]) and of the [Projector]
      transformer, with the properties of its partitioning, label encoding,
      training loop, fine-tuning stage and prediction paths.

    Conventions of the embedding.
    - A NumPy vector is a [list]; a 2-D array is a list of rows.  Matrix
      entries are rationals ([Q]) standing for the float32 values the code
      works on; labels and dataset ids are integers ([Z]).
    - A Python exception is a value [Raise e] of the [result] type; the
      code has no handler except the [StopIteration] one of the training
      loop, so every other exception propagates to the caller.
    - Keras, scikit-learn's [check_random_state] generator, and MKL are
      outside the repository: the numeric backend (weights, training step,
      prediction, loss, random permutations, early-stopping tracker) is a
      record of operations, [Backend], that every definition takes as a
      parameter. *)

From Stdlib Require Import List ZArith QArith Bool Lia Permutation Sorted Arith.
Import ListNotations.

Set Implicit Arguments.
Local Open Scope Z_scope.

(** ** Python exceptions and the error monad *)

Inductive exn : Type :=
| IndexError
| KeyError
| ValueError
| StopIteration
| ZeroDivisionError
| AttributeError.

Inductive result (A : Type) : Type :=
| Ok (a : A)
| Raise (e : exn).

Arguments Ok {A} a.
Arguments Raise {A} e.

Definition bind {A B : Type} (r : result A) (k : A -> result B) : result B :=
  match r with
  | Ok a => k a
  | Raise e => Raise e
  end.

Notation "x <- r ;; k" := (bind r (fun x => k))
  (at level 61, r at next level, right associativity).
Notation "' p <- r ;; k" := (bind r (fun p => k))
  (at level 61, p pattern, r at next level, right associativity).

Definition is_ok {A : Type} (r : result A) : bool :=
  match r with Ok _ => true | Raise _ => false end.

(** A call made for every element of a list, in order; the first
    exception ends the loop. *)
Fixpoint for_each {A C : Type} (f : A -> result C) (l : list A)
  : result (list C) :=
  match l with
  | [] => Ok []
  | a :: l' =>
      c <- f a ;;
      rest <- for_each f l' ;;
      Ok (c :: rest)
  end.

(** ** NumPy and Python list primitives used by the estimator *)

Module Np.

(** [np.unique] on an integer vector: the sorted distinct values. *)
Fixpoint insert_unique (x : Z) (l : list Z) : list Z :=
  match l with
  | [] => [x]
  | h :: t =>
      if x <? h then x :: l
      else if x =? h then l
      else h :: insert_unique x t
  end.

Definition unique (l : list Z) : list Z := fold_right insert_unique [] l.

(** [v == d] for a vector [v] and a scalar [d]: an elementwise mask. *)
Definition eq_mask (v : list Z) (d : Z) : list bool :=
  map (fun x => x =? d) v.

(** The rows of [xs] at which [mask] is true. *)
Fixpoint select {A : Type} (mask : list bool) (xs : list A) : list A :=
  match mask, xs with
  | b :: mask', x :: xs' =>
      if b then x :: select mask' xs' else select mask' xs'
  | _, _ => []
  end.

(** [xs[mask]] for a boolean [mask]: NumPy raises [IndexError] when the
    mask is not as long as the indexed axis. *)
Definition bool_index {A : Type} (mask : list bool) (xs : list A)
  : result (list A) :=
  if Nat.eqb (length mask) (length xs) then Ok (select mask xs)
  else Raise IndexError.

(** [np.sum(mask)]. *)
Definition count_true (mask : list bool) : nat :=
  length (filter (fun b => b) mask).

(** [pred[mask] = values]: the positions where [mask] is true receive the
    values in order.  NumPy raises when the mask is not as long as [pred]
    or when the number of values is not the number of true positions
    (more than one value is never broadcast). *)
Fixpoint put_mask {A : Type} (mask : list bool) (pred values : list A)
  : list A :=
  match mask, pred with
  | b :: mask', p :: pred' =>
      if b then
        match values with
        | v :: values' => v :: put_mask mask' pred' values'
        | [] => p :: put_mask mask' pred' []
        end
      else p :: put_mask mask' pred' values
  | _, _ => pred
  end.

Definition mask_assign {A : Type} (mask : list bool) (pred values : list A)
  : result (list A) :=
  if Nat.eqb (length mask) (length pred) then
    if Nat.eqb (count_true mask) (length values)
    then Ok (put_mask mask pred values)
    else Raise ValueError
  else Raise IndexError.

(** Integer indexing of a Python list or a NumPy vector, [l[i]]: a
    negative index counts from the end, an index out of range raises
    [IndexError]. *)
Definition index {A : Type} (l : list A) (i : Z) : result A :=
  let n := Z.of_nat (length l) in
  let j := if i <? 0 then i + n else i in
  if (j <? 0) || (n <=? j) then Raise IndexError
  else match nth_error l (Z.to_nat j) with
       | Some a => Ok a
       | None => Raise IndexError
       end.

(** [a[idx]] for a vector of integer indices [idx] (fancy indexing). *)
Fixpoint take {A : Type} (l : list A) (idx : list Z) : result (list A) :=
  match idx with
  | [] => Ok []
  | i :: idx' =>
      a <- index l i ;;
      rest <- take l idx' ;;
      Ok (a :: rest)
  end.

(** [np.where(v == d)[0][0]]: the first position of [d] in [v]; indexing
    the empty result raises [IndexError]. *)
Fixpoint where_first (v : list Z) (d : Z) : result nat :=
  match v with
  | [] => Raise IndexError
  | x :: v' =>
      if x =? d then Ok O
      else i <- where_first v' d ;; Ok (S i)
  end.

(** [np.argmax] of one row: the first position of the largest entry. *)
Fixpoint argmax_from (best : Q) (besti cur : nat) (row : list Q) : nat :=
  match row with
  | [] => besti
  | q :: row' =>
      if Qle_bool q best then argmax_from best besti (S cur) row'
      else argmax_from q cur (S cur) row'
  end.

Definition argmax (row : list Q) : nat :=
  match row with
  | [] => O
  | q :: row' => argmax_from q O 1%nat row'
  end.

(** [np.mean] of a vector. *)
Definition mean (v : list Q) : Q :=
  (fold_right Qplus 0%Q v / inject_Z (Z.of_nat (length v)))%Q.

(** [x.astype('int')] on one entry: truncation toward zero. *)
Definition trunc (q : Q) : Z := Z.quot (Qnum q) (Z.pos (Qden q)).

End Np.

(** ** scikit-learn helpers *)

Module Sk.

(** The matrix [LabelBinarizer().fit_transform(y)] returns, dense output,
    default [neg_label = 0] and [pos_label = 1].  The classes are the
    sorted distinct labels of [y].  With three classes or more the result
    is the indicator matrix with one column per class; a target with two
    classes is "binary" and only the last column (the indicator of the
    larger label) is returned, as a column vector; with a single class the
    result is a column of zeros.  The call itself, which refuses a label
    vector without samples, is [fit_transform_call] below. *)
Definition indicator_row (classes : list Z) (v : Z) : list Z :=
  map (fun c => if v =? c then 1 else 0) classes.

Definition label_binarize (y : list Z) (classes : list Z) : list (list Z) :=
  match classes with
  | [_] => map (fun _ => [0]) y
  | [_; _] => map (fun v => [last (indicator_row classes v) 0]) y
  | _ => map (indicator_row classes) y
  end.

Definition fit_transform (y : list Z) : list (list Z) :=
  label_binarize y (Np.unique y).

(** [LabelBinarizer.fit] refuses a label vector without samples with
    [ValueError('y has 0 samples')]. *)
Definition check_samples (y : list Z) : result unit :=
  match y with
  | [] => Raise ValueError
  | _ :: _ => Ok tt
  end.

(** The call [LabelBinarizer().fit_transform(y)]. *)
Definition fit_transform_call (y : list Z) : result (list (list Z)) :=
  _ <- check_samples y ;;
  Ok (fit_transform y).

(** [gen_batches(n, batch_size)]: the slices [(start, stop)] of width
    [batch_size] covering [0 .. n), the last one possibly shorter.  It is
    a generator: with [batch_size = 0] the division by zero is raised at
    the first [next], which is how [next_batch] below reads [None]. *)
Fixpoint batches_from (fuel start n batch_size : nat) : list (nat * nat) :=
  match fuel with
  | O => []
  | S fuel' =>
      if (start <? n)%nat then
        (start, Nat.min (start + batch_size) n)
          :: batches_from fuel' (start + batch_size) n batch_size
      else []
  end.

Definition gen_batches (n batch_size : nat) : option (list (nat * nat)) :=
  match batch_size with
  | O => None
  | S _ => Some (batches_from n O n batch_size)
  end.

(** [a[start:stop]]. *)
Definition slice {A : Type} (b : nat * nat) (l : list A) : list A :=
  firstn (snd b - fst b) (skipn (fst b) l).

End Sk.

(** ** The Keras objects the estimator holds *)

Module Keras.

(** The layers of the graphs built by [make_factored_model] and
    [make_simple_model], by the role they play there. *)
Inductive LayerRole : Type :=
| InputLayer                       (* Input(shape=(n_features,), name='input') *)
| Encoded                          (* Dense(latent_dim, use_bias=False, name='encoded') *)
| DropoutLayer                     (* Dropout(rate=dropout) *)
| Supervised (i : nat)             (* Dense(n_classes) of dataset number i *)
| Softmax (i : nat)                (* Activation('softmax') of dataset number i *)
| ConcatenateLayer                 (* Concatenate(axis=1) of all heads *)
| StackedSoftmax.                  (* Activation('softmax') of the stacked model *)

(** A layer object: the attributes the estimator reads or writes.
    [l_rate] is [None] while the object has no [rate] attribute. *)
Record Layer : Type := {
  l_role : LayerRole;
  l_units : nat;
  l_trainable : bool;
  l_rate : option Q
}.

(** Layer objects are shared between models (every per-dataset model
    holds the same input, encoder and dropout objects), so they live in a
    heap, a list indexed by object identity, and models hold identities. *)
Definition Heap : Type := list Layer.

(** A compiled model: [layers_by_depth] maps a depth to the layers at
    that depth, depth 0 being the output layer and the input layer
    having the largest depth; [m_lr] is [optimizer.lr]. *)
Record Model : Type := {
  m_layers_by_depth : list (list nat);
  m_lr : Q;
  m_stop_training : bool
}.

(** Default learning rate of the ['adam'] optimizer. *)
Definition adam_lr : Q := (1 # 1000)%Q.

Definition new_layer (role : LayerRole) (units : nat) (rate : option Q)
  : Layer :=
  {| l_role := role; l_units := units; l_trainable := true; l_rate := rate |}.

(** Depths of a model whose layers form a chain from input to output. *)
Definition chain_depths (chain : list nat) : list (list nat) :=
  map (fun id => [id]) (rev chain).

Definition compile (layers_by_depth : list (list nat)) : Model :=
  {| m_layers_by_depth := layers_by_depth;
     m_lr := adam_lr;
     m_stop_training := false |}.

Definition set_stop_training (b : bool) (m : Model) : Model :=
  {| m_layers_by_depth := m_layers_by_depth m;
     m_lr := m_lr m;
     m_stop_training := b |}.

Definition set_lr (lr : Q) (m : Model) : Model :=
  {| m_layers_by_depth := m_layers_by_depth m;
     m_lr := lr;
     m_stop_training := m_stop_training m |}.

(** In-place attribute writes on a layer object of the heap. *)
Fixpoint update (id : nat) (f : Layer -> Layer) (h : Heap) : Heap :=
  match h, id with
  | [], _ => []
  | l :: h', O => f l :: h'
  | l :: h', S id' => l :: update id' f h'
  end.

Definition set_trainable (b : bool) (l : Layer) : Layer :=
  {| l_role := l_role l; l_units := l_units l;
     l_trainable := b; l_rate := l_rate l |}.

Definition set_rate (q : Q) (l : Layer) : Layer :=
  {| l_role := l_role l; l_units := l_units l;
     l_trainable := l_trainable l; l_rate := Some q |}.

(** [model.layers_by_depth[depth][0]]: a missing depth is a [KeyError]
    of the dictionary, an empty list an [IndexError]. *)
Definition layer_at_depth (m : Model) (depth : nat) : result nat :=
  match nth_error (m_layers_by_depth m) depth with
  | None => Raise KeyError
  | Some [] => Raise IndexError
  | Some (id :: _) => Ok id
  end.

(** The loop over [classes_list] shared by both constructors: one
    [Dense(n_classes)] head and one softmax per dataset on top of the
    trunk (the chain of layers from the input to the tensor [encoded]). *)
Fixpoint build_heads (trunk : list nat) (i : nat)
    (classes_list : list (list Z)) (h : Heap)
  : Heap * list Model * list nat :=
  match classes_list with
  | [] => (h, [], [])
  | classes :: rest =>
      let n_classes := length classes in
      let sup := length h in
      let h1 := h ++ [new_layer (Supervised i) n_classes None] in
      let act := length h1 in
      let h2 := h1 ++ [new_layer (Softmax i) n_classes None] in
      let model := compile (chain_depths (trunk ++ [sup; act])) in
      let '(h3, models, sups) := build_heads trunk (S i) rest h2 in
      (h3, model :: models, sup :: sups)
  end.

(** The stacked model: the heads concatenated under one softmax, or the
    only head when there is one; [supervised_list[0]] raises on an empty
    list. *)
Definition build_stacked (trunk : list nat) (sups : list nat)
    (total : nat) (h : Heap) : result (Heap * Model) :=
  match sups with
  | [] => Raise IndexError
  | [sup] =>
      let act := length h in
      Ok (h ++ [new_layer StackedSoftmax total None],
          compile (chain_depths (trunk ++ [sup; act])))
  | _ =>
      let cat := length h in
      let h1 := h ++ [new_layer ConcatenateLayer total None] in
      let act := length h1 in
      Ok (h1 ++ [new_layer StackedSoftmax total None],
          compile ([act] :: [cat] :: sups :: chain_depths trunk))
  end.

Definition total_classes (classes_list : list (list Z)) : nat :=
  fold_right (fun c n => (length c + n)%nat) O classes_list.

(** [make_factored_model]: input, shared encoder, dropout only when
    [dropout > 0], then the heads. *)
Definition make_factored_model (n_features : nat)
    (classes_list : list (list Z)) (latent_dim : nat) (dropout : Q)
  : result (Heap * list Model * Model) :=
  let h0 := [new_layer InputLayer n_features None;
             new_layer Encoded latent_dim None] in
  let '(h1, trunk) :=
    if Qlt_le_dec 0 dropout
    then (h0 ++ [new_layer DropoutLayer latent_dim (Some dropout)],
          [0; 1; 2]%nat)
    else (h0, [0; 1]%nat) in
  let '(h2, models, sups) := build_heads trunk O classes_list h1 in
  '(h3, stacked) <- build_stacked trunk sups (total_classes classes_list) h2 ;;
  Ok (h3, models, stacked).

(** [make_simple_model]: no encoder; dropout, when positive, is applied
    to the input. *)
Definition make_simple_model (n_features : nat)
    (classes_list : list (list Z)) (dropout : Q)
  : result (Heap * list Model * Model) :=
  let h0 := [new_layer InputLayer n_features None] in
  let '(h1, trunk) :=
    if Qlt_le_dec 0 dropout
    then (h0 ++ [new_layer DropoutLayer n_features (Some dropout)],
          [0; 1]%nat)
    else (h0, [0]%nat) in
  let '(h2, models, sups) := build_heads trunk O classes_list h1 in
  '(h3, stacked) <- build_stacked trunk sups (total_classes classes_list) h2 ;;
  Ok (h3, models, stacked).

End Keras.

(** ** The numeric backend *)

Definition Row : Type := list Q.

(** Everything Keras, NumPy's generator and the early-stopping callback
    compute.  Weights ([Wt]) cover every layer of the graph and the
    optimizer slots; each operation sees the layer objects (their
    [trainable] and [rate] attributes) and the model it is called on. *)
Record Backend : Type := {
  Wt : Type;
  G : Type;
  ES : Type;
  (* weights of a freshly built graph *)
  init_weights : Keras.Heap -> Wt;
  (* model.train_on_batch(X, y) *)
  train_on_batch :
    Keras.Heap -> Keras.Model -> list Row -> list (list Z) -> Wt -> Wt;
  (* model.fit(X, y, validation_data=.., callbacks=[EarlyStopping] or None,
     epochs=..) *)
  keras_fit :
    Keras.Heap -> Keras.Model -> list Row -> list (list Z) ->
    option (list Row * list (list Z)) -> bool -> Z -> Wt -> Wt;
  (* model.predict(X) *)
  keras_predict : Keras.Heap -> Keras.Model -> Wt -> list Row -> list (list Q);
  (* model.evaluate(X, y): (loss, accuracy) *)
  evaluate :
    Keras.Heap -> Keras.Model -> Wt -> list Row -> list (list Z) -> Q * Q;
  (* np.random.RandomState(seed), the global generator, permutation(n) *)
  seed_state : Z -> G;
  global_state : G;
  permutation : G -> nat -> list nat * G;
  (* EarlyStopping(monitor='val_loss', min_delta=1e-3, patience=3):
     on_train_begin, and on_epoch_end(epoch, logs) which returns whether
     it set model.stop_training = True *)
  es_train_begin : ES;
  es_epoch_end : ES -> Z -> Q -> ES * bool
}.

(** ** The estimator *)

(** The [random_state] attribute: [None], an integer seed, or a generator
    object (given here by its current state). *)
Inductive RandomState (B : Backend) : Type :=
| RS_None
| RS_Seed (seed : Z)
| RS_Generator (g : G B).

Arguments RS_None {B}.
Arguments RS_Seed {B} seed.
Arguments RS_Generator {B} g.

(** [sklearn.utils.check_random_state]: [None] is NumPy's global
    generator, an integer makes a new generator seeded with it (NumPy
    accepts seeds in [0 .. 2^32)), a generator is returned as it is. *)
Definition check_random_state {B : Backend} (rs : RandomState B)
  : result (G B) :=
  match rs with
  | RS_None => Ok (global_state B)
  | RS_Seed s =>
      if (0 <=? s) && (s <? 2 ^ 32) then Ok (seed_state B s)
      else Raise ValueError
  | RS_Generator g => Ok g
  end.

(** The attributes [fit] creates (the ones with a trailing underscore),
    together with the Keras objects they reach: the layer heap and the
    weights.  [histories_] only records the logs and is left out. *)
Record Fitted (B : Backend) : Type := {
  datasets_ : list Z;
  classes_list_ : list (list Z);
  classes_ : list Z;
  models_ : list Keras.Model;
  stacked_model_ : Keras.Model;
  n_samples_ : list nat;
  n_epochs_ : list Z;
  layers_ : Keras.Heap;
  weights_ : Wt B
}.

(** [FactoredLogistic]: the constructor arguments that steer control
    flow, and the fitted attributes once [fit] has run.  [alpha], [beta],
    [activation], [optimizer], [fit_intercept], [n_jobs] and [verbose]
    are only handed to Keras (or to [print]) and live in the backend. *)
Record FactoredLogistic (B : Backend) : Type := {
  latent_dim : option nat;
  fine_tune : bool;
  max_iter : Z;
  batch_size : nat;
  dropout : Q;
  random_state : RandomState B;
  early_stop : bool;
  fitted : option (Fitted B)
}.

(** The trailing column of a row is its dataset id; the others are the
    features: [X[:, -1].astype('int')] and [X[:, :-1]]. *)
Definition dataset_id (r : Row) : Z := Np.trunc (last r 0%Q).
Definition features (r : Row) : Row := removelast r.

(** [check_array] and [check_X_y]: a 2-D array with at least one row and
    one column, and as many labels as rows. *)
Definition check_array (X : list Row) : result (list Row) :=
  match X with
  | [] => Raise ValueError
  | r0 :: _ =>
      if (0 <? length r0)%nat
         && forallb (fun r => Nat.eqb (length r) (length r0)) X
      then Ok X else Raise ValueError
  end.

Definition check_X_y (X : list Row) (y : list Z)
  : result (list Row * list Z) :=
  X' <- check_array X ;;
  if Nat.eqb (length X') (length y) then Ok (X', y) else Raise ValueError.

(** The partition made by the loop over [self.datasets_] in [fit]: for
    each dataset id, in the order of [np.unique], the rows of an array
    whose dataset id is that id. *)
Definition split_by_dataset {A : Type} (datasets_ : list Z)
    (datasets : list Z) (a : list A) : list (list A) :=
  map (fun this_dataset => Np.select (Np.eq_mask datasets this_dataset) a)
      datasets_.

(** [a[permutation]] for a permutation drawn by the generator (its
    entries are positions of [a]). *)
Definition reorder {A : Type} (perm : list nat) (a : list A) : list A :=
  flat_map (fun p => match nth_error a p with
                     | Some x => [x]
                     | None => []
                     end) perm.

Section Training.

Variable B : Backend.

(** What the training loop keeps for one dataset: slot [i] of [X_list],
    [y_bin_list], [X_val_list] and [y_bin_val_list], of [batches_list]
    (the slices the generator has not produced yet; [None] when
    [batch_size] is 0), of [n_epochs], of [self.models_] and of
    [early_stoppings]. *)
Record DatasetState : Type := {
  ds_X : list Row;
  ds_y_bin : list (list Z);
  ds_val : option (list Row * list (list Z));
  ds_batches : option (list (nat * nat));
  ds_n_epochs : Z;
  ds_model : Keras.Model;
  ds_early_stopping : ES B
}.

Record LoopState : Type := {
  ls_datasets : list DatasetState;
  ls_rng : G B;
  ls_weights : Wt B;
  ls_stop_training : bool
}.

(** The values the loop only reads. *)
Record LoopConfig : Type := {
  do_validation : bool;
  cfg_early_stop : bool;
  cfg_max_iter : Z;
  cfg_batch_size : nat;
  cfg_layers : Keras.Heap
}.

Variable cfg : LoopConfig.

(** The first shuffle of every dataset, before the loop: one permutation
    per dataset, drawn in dataset order. *)
Fixpoint init_datasets
    (slots : list (Keras.Model * (list Row * (list (list Z)
                   * option (list Row * list (list Z))))))
    (rng : G B) : list DatasetState * G B :=
  match slots with
  | [] => ([], rng)
  | (model, (this_X, (this_y_bin, val))) :: rest =>
      let '(perm, rng1) := permutation B rng (length this_X) in
      let d := {| ds_X := reorder perm this_X;
                  ds_y_bin := reorder perm this_y_bin;
                  ds_val := val;
                  ds_batches :=
                    Sk.gen_batches (length this_X) (cfg_batch_size cfg);
                  ds_n_epochs := 0;
                  ds_model := model;
                  ds_early_stopping := es_train_begin B |} in
      let '(ds, rng2) := init_datasets rest rng1 in
      (d :: ds, rng2)
  end.

(** [next(batches_list[i])]. *)
Definition next_batch (batches : option (list (nat * nat)))
  : result ((nat * nat) * option (list (nat * nat))) :=
  match batches with
  | None => Raise ZeroDivisionError
  | Some [] => Raise StopIteration
  | Some (b :: rest) => Ok (b, Some rest)
  end.

(** The [except StopIteration] branch: reshuffle, new batches, one more
    epoch, and with validation data and early stopping the callback on
    the validation loss, which may set the model's [stop_training].  The
    evaluation on the training rows and the accuracies only feed the
    history and the printout. *)
Definition epoch_end (d : DatasetState) (rng : G B) (w : Wt B)
  : DatasetState * G B :=
  let '(perm, rng1) := permutation B rng (length (ds_X d)) in
  let this_X := reorder perm (ds_X d) in
  let this_y_bin := reorder perm (ds_y_bin d) in
  let n_epochs := ds_n_epochs d + 1 in
  let '(es, model) :=
    match ds_val d with
    | Some (this_X_val, this_y_bin_val) =>
        if do_validation cfg && cfg_early_stop cfg then
          let val_loss :=
            fst (evaluate B (cfg_layers cfg) (ds_model d) w
                          this_X_val this_y_bin_val) in
          let '(es1, stop) :=
            es_epoch_end B (ds_early_stopping d) n_epochs val_loss in
          (es1, if stop then Keras.set_stop_training true (ds_model d)
                else ds_model d)
        else (ds_early_stopping d, ds_model d)
    | None => (ds_early_stopping d, ds_model d)
    end in
  ({| ds_X := this_X;
      ds_y_bin := this_y_bin;
      ds_val := ds_val d;
      ds_batches := Sk.gen_batches (length this_X) (cfg_batch_size cfg);
      ds_n_epochs := n_epochs;
      ds_model := model;
      ds_early_stopping := es |}, rng1).

Definition with_batches (batches : option (list (nat * nat)))
    (d : DatasetState) : DatasetState :=
  {| ds_X := ds_X d; ds_y_bin := ds_y_bin d; ds_val := ds_val d;
     ds_batches := batches; ds_n_epochs := ds_n_epochs d;
     ds_model := ds_model d; ds_early_stopping := ds_early_stopping d |}.

Definition with_model (model : Keras.Model) (d : DatasetState)
  : DatasetState :=
  {| ds_X := ds_X d; ds_y_bin := ds_y_bin d; ds_val := ds_val d;
     ds_batches := ds_batches d; ds_n_epochs := ds_n_epochs d;
     ds_model := model; ds_early_stopping := ds_early_stopping d |}.

(** One pass of the body of [for i, model in enumerate(self.models_)]:
    take the next batch, going through [epoch_end] when the generator is
    exhausted, and train on it. *)
Definition model_step (d : DatasetState) (rng : G B) (w : Wt B)
  : result (DatasetState * G B * Wt B) :=
  '(batch, d1, rng1) <-
    match next_batch (ds_batches d) with
    | Ok (batch, rest) => Ok (batch, with_batches rest d, rng)
    | Raise StopIteration =>
        let '(d1, rng1) := epoch_end d rng w in
        '(batch, rest) <- next_batch (ds_batches d1) ;;
        Ok (batch, with_batches rest d1, rng1)
    | Raise e => Raise e
    end ;;
  let w1 := train_on_batch B (cfg_layers cfg) (ds_model d1)
              (Sk.slice batch (ds_X d1)) (Sk.slice batch (ds_y_bin d1)) w in
  Ok (d1, rng1, w1).

Definition all_stop (ds : list DatasetState) : bool :=
  forallb (fun d => Keras.m_stop_training (ds_model d)) ds.

(** The [for] loop over the models; [done] are the datasets already
    stepped in this pass.  After each model, with validation data and
    early stopping, [stop_training] becomes the conjunction of every
    model's flag. *)
Fixpoint for_models (done todo : list DatasetState)
    (rng : G B) (w : Wt B) (stop_training : bool) : result LoopState :=
  match todo with
  | [] => Ok {| ls_datasets := done; ls_rng := rng; ls_weights := w;
                ls_stop_training := stop_training |}
  | d :: todo' =>
      '(d1, rng1, w1) <- model_step d rng w ;;
      let stop1 :=
        if do_validation cfg && cfg_early_stop cfg
        then all_stop (done ++ d1 :: todo')
        else stop_training in
      for_models (done ++ [d1]) todo' rng1 w1 stop1
  end.

(** The body of the [while]: with validation data every model's
    [stop_training] is first overwritten by the loop's flag, then every
    model takes one step. *)
Definition tick (st : LoopState) : result LoopState :=
  let ds :=
    if do_validation cfg
    then map (fun d => with_model
                (Keras.set_stop_training (ls_stop_training st) (ds_model d))
                d) (ls_datasets st)
    else ls_datasets st in
  for_models [] ds (ls_rng st) (ls_weights st) (ls_stop_training st).

(** [np.min(n_epochs)]; NumPy raises on an empty array. *)
Definition min_epochs (ds : list DatasetState) : result Z :=
  match ds with
  | [] => Raise ValueError
  | d :: ds' =>
      Ok (fold_left (fun m d' => Z.min m (ds_n_epochs d')) ds' (ds_n_epochs d))
  end.

(** [not stop_training and np.min(n_epochs) < self.max_iter]. *)
Definition loop_guard (st : LoopState) : result bool :=
  if ls_stop_training st then Ok false
  else m <- min_epochs (ls_datasets st) ;; Ok (m <? cfg_max_iter cfg).

(** The [while] loop.  [None]: the fuel ran out before the guard became
    false. *)
Fixpoint training_loop (fuel : nat) (st : LoopState)
  : option (result LoopState) :=
  match loop_guard st with
  | Raise e => Some (Raise e)
  | Ok false => Some (Ok st)
  | Ok true =>
      match fuel with
      | O => None
      | S fuel' =>
          match tick st with
          | Raise e => Some (Raise e)
          | Ok st' => training_loop fuel' st'
          end
      end
  end.

(** The fine-tuning stage for one model: a tenth of the learning rate,
    [layers_by_depth[3][0].trainable = False],
    [layers_by_depth[2][0].rate = 0], then [model.fit], with the
    validation data, the callback and [max_iter] epochs when there is
    validation data, for 30 epochs otherwise. *)
Definition fine_tune_model (d : DatasetState) (h : Keras.Heap) (w : Wt B)
  : result (DatasetState * Keras.Heap * Wt B) :=
  let lr := (Keras.m_lr (ds_model d) * (1 # 10))%Q in
  let model := Keras.set_lr lr (ds_model d) in
  frozen <- Keras.layer_at_depth model 3 ;;
  let h1 := Keras.update frozen (Keras.set_trainable false) h in
  dropped <- Keras.layer_at_depth model 2 ;;
  let h2 := Keras.update dropped (Keras.set_rate 0) h1 in
  let w1 :=
    if do_validation cfg then
      keras_fit B h2 model (ds_X d) (ds_y_bin d) (ds_val d)
                (cfg_early_stop cfg) (cfg_max_iter cfg) w
    else
      keras_fit B h2 model (ds_X d) (ds_y_bin d) None false 30 w in
  Ok (with_model model d, h2, w1).

Fixpoint fine_tune_stage (ds : list DatasetState) (h : Keras.Heap)
    (w : Wt B) : result (list DatasetState * Keras.Heap * Wt B) :=
  match ds with
  | [] => Ok ([], h, w)
  | d :: rest =>
      '(d1, h1, w1) <- fine_tune_model d h w ;;
      '(rest1, h2, w2) <- fine_tune_stage rest h1 w1 ;;
      Ok (d1 :: rest1, h2, w2)
  end.

End Training.

(** ** [FactoredLogistic.fit] *)

Section Estimator.

Variable B : Backend.

(** What [fit] has computed when it enters the training loop. *)
Record Prepared : Type := {
  pr_cfg : LoopConfig;
  pr_state : LoopState B;
  pr_datasets_ : list Z;
  pr_classes_list_ : list (list Z);
  pr_stacked_model_ : Keras.Model;
  pr_n_samples_ : list nat;
  pr_fine_tune : bool
}.

(** Lines 270-388 of [fit]: validation of the arguments, the partition by
    dataset, the label encoding, the construction of the models and the
    first shuffle.  The source encodes the training labels and the
    validation labels of one dataset after the other; here all training
    subsets come first, which shows in nothing, since every failure of an
    encoding is the same [ValueError] and nothing is returned then.  A
    training dataset without validation row has an empty validation
    subset, which [fit_transform] refuses. *)
Definition prepare (self : FactoredLogistic B) (X : list Row) (y : list Z)
    (validation_data : option (list Row * list Z)) : result Prepared :=
  if max_iter self <? 0 then Raise ValueError else
  '(X, y) <- check_X_y X y ;;
  let datasets := map dataset_id X in
  let X := map features X in
  rng <- check_random_state (random_state self) ;;
  val <- match validation_data with
         | Some (X_val, y_val) =>
             '(X_val, y_val) <- check_X_y X_val y_val ;;
             Ok (Some (map dataset_id X_val, map features X_val, y_val))
         | None => Ok None
         end ;;
  let n_features := length (hd [] X) in
  let datasets_ := Np.unique datasets in
  let X_list := split_by_dataset datasets_ datasets X in
  let y_list := split_by_dataset datasets_ datasets y in
  let classes_list_ := map Np.unique y_list in
  y_bin_list <- for_each Sk.fit_transform_call y_list ;;
  val_list <-
    match val with
    | Some (datasets_val, X_val, y_val) =>
        y_bin_val_list <-
          for_each Sk.fit_transform_call
                   (split_by_dataset datasets_ datasets_val y_val) ;;
        Ok (map Some
              (combine (split_by_dataset datasets_ datasets_val X_val)
                       y_bin_val_list))
    | None => Ok (map (fun _ => None) datasets_)
    end ;;
  '(layers, models, stacked) <-
    match latent_dim self with
    | Some k =>
        Keras.make_factored_model n_features classes_list_ k (dropout self)
    | None =>
        Keras.make_simple_model n_features classes_list_ (dropout self)
    end ;;
  let fine_tune1 :=
    match latent_dim self with
    | Some _ => fine_tune self
    | None => false
    end in
  let cfg := {| do_validation :=
                  match validation_data with Some _ => true | None => false end;
                cfg_early_stop := early_stop self;
                cfg_max_iter := max_iter self;
                cfg_batch_size := batch_size self;
                cfg_layers := layers |} in
  let '(ds, rng1) :=
    init_datasets B cfg
      (combine models (combine X_list (combine y_bin_list val_list))) rng in
  Ok {| pr_cfg := cfg;
        pr_state := {| ls_datasets := ds; ls_rng := rng1;
                       ls_weights := init_weights B layers;
                       ls_stop_training := false |};
        pr_datasets_ := datasets_;
        pr_classes_list_ := classes_list_;
        pr_stacked_model_ := stacked;
        pr_n_samples_ := map (@length Row) X_list;
        pr_fine_tune := fine_tune1 |}.

(** Lines 436-467: the fine-tuning stage when [self.fine_tune] is still
    set, and the attributes as [fit] leaves them.  [random_state] has
    been replaced by the generator, [fine_tune] by the flag of
    [prepare]. *)
Definition finish (self : FactoredLogistic B) (p : Prepared)
    (st : LoopState B) : result (FactoredLogistic B) :=
  '(ds, layers, w) <-
    (if pr_fine_tune p
     then fine_tune_stage (pr_cfg p) (ls_datasets st)
                          (cfg_layers (pr_cfg p)) (ls_weights st)
     else Ok (ls_datasets st, cfg_layers (pr_cfg p), ls_weights st)) ;;
  Ok {| latent_dim := latent_dim self;
        fine_tune := pr_fine_tune p;
        max_iter := max_iter self;
        batch_size := batch_size self;
        dropout := dropout self;
        random_state := RS_Generator (ls_rng st);
        early_stop := early_stop self;
        fitted := Some
          {| datasets_ := pr_datasets_ p;
             classes_list_ := pr_classes_list_ p;
             classes_ := concat (pr_classes_list_ p);
             models_ := map (@ds_model B) ds;
             stacked_model_ := pr_stacked_model_ p;
             n_samples_ := pr_n_samples_ p;
             n_epochs_ := map (@ds_n_epochs B) (ls_datasets st);
             layers_ := layers;
             weights_ := w |} |}.

(** [fit(X, y, validation_data)].  [None]: the training loop did not
    finish within [fuel] passes. *)
Definition fit (fuel : nat) (self : FactoredLogistic B) (X : list Row)
    (y : list Z) (validation_data : option (list Row * list Z))
  : option (result (FactoredLogistic B)) :=
  match prepare self X y validation_data with
  | Raise e => Some (Raise e)
  | Ok p =>
      match training_loop (pr_cfg p) fuel (pr_state p) with
      | None => None
      | Some (Raise e) => Some (Raise e)
      | Some (Ok st) => Some (finish self p st)
      end
  end.

(** Reading a fitted attribute of an estimator that was never fitted. *)
Definition get_fitted (self : FactoredLogistic B) : result (Fitted B) :=
  match fitted self with
  | Some f => Ok f
  | None => Raise AttributeError
  end.

(** ** [predict_proba], [predict] and [score] *)

Definition predict_proba (self : FactoredLogistic B) (X : list Row)
    (dataset : option Z) : result (list (list Q)) :=
  f <- get_fitted self ;;
  match dataset with
  | None =>
      Ok (keras_predict B (layers_ f) (stacked_model_ f) (weights_ f) X)
  | Some d =>
      idx <- Np.where_first (datasets_ f) d ;;
      model <- Np.index (models_ f) (Z.of_nat idx) ;;
      Ok (keras_predict B (layers_ f) model (weights_ f) X)
  end.

(** [np.argmax(proba, axis=1)]. *)
Definition argmax_rows (proba : list (list Q)) : list Z :=
  map (fun row => Z.of_nat (Np.argmax row)) proba.

(** [np.logical_not(np.any(self.datasets_[:, np.newaxis] == datasets,
    axis=1))]: the comparison has one row per fitted dataset id and one
    column per input row, and [any] runs along the columns, so the mask
    has one entry per fitted dataset id. *)
Definition unmatched_mask (datasets_ datasets : list Z) : list bool :=
  map (fun d => negb (existsb (fun x => d =? x) datasets)) datasets_.

(** The body of the loop of [predict] over [self.datasets_]. *)
Definition predict_dataset (self : FactoredLogistic B) (f : Fitted B)
    (datasets : list Z) (X : list Row) (pred : list Z) (this_dataset : Z)
  : result (list Z) :=
  let indices := Np.eq_mask datasets this_dataset in
  if (0 <? Np.count_true indices)%nat then
    this_X <- Np.bool_index indices X ;;
    these_classes <- Np.index (classes_list_ f) this_dataset ;;
    proba <- predict_proba self this_X (Some this_dataset) ;;
    labels <- Np.take these_classes (argmax_rows proba) ;;
    Np.mask_assign indices pred labels
  else Ok pred.

Fixpoint predict_datasets (self : FactoredLogistic B) (f : Fitted B)
    (datasets : list Z) (X : list Row) (pred : list Z) (todo : list Z)
  : result (list Z) :=
  match todo with
  | [] => Ok pred
  | this_dataset :: rest =>
      pred1 <- predict_dataset self f datasets X pred this_dataset ;;
      predict_datasets self f datasets X pred1 rest
  end.

Definition predict (self : FactoredLogistic B) (X : list Row)
  : result (list Z) :=
  X <- check_array X ;;
  let datasets := map dataset_id X in
  let X := map features X in
  let pred := repeat 0 (length X) in
  f <- get_fitted self ;;
  let indices := unmatched_mask (datasets_ f) datasets in
  pred1 <-
    (if (0 <? Np.count_true indices)%nat then
       this_X <- Np.bool_index indices X ;;
       proba <- predict_proba self this_X None ;;
       labels <- Np.take (classes_ f) (argmax_rows proba) ;;
       Np.mask_assign indices pred labels
     else Ok pred) ;;
  predict_datasets self f datasets X pred1 (datasets_ f).

(** The loop of [score]: [LabelBinarizer().fit(self.classes_list_[i])]
    only reads the class set, since [fit_transform(this_y)] fits the
    binarizer again, on the labels under evaluation, and raises when a
    fitted dataset has no row among them. *)
Fixpoint score_datasets (f : Fitted B) (datasets : list Z) (X : list Row)
    (y : list Z) (i : nat) (todo : list Z) : result (list Q) :=
  match todo with
  | [] => Ok []
  | this_dataset :: rest =>
      let indices := Np.eq_mask datasets this_dataset in
      let this_X := Np.select indices X in
      let this_y := Np.select indices y in
      _ <- Np.index (classes_list_ f) (Z.of_nat i) ;;
      model <- Np.index (models_ f) (Z.of_nat i) ;;
      this_y_bin <- Sk.fit_transform_call this_y ;;
      let acc := snd (evaluate B (layers_ f) model (weights_ f)
                               this_X this_y_bin) in
      accs <- score_datasets f datasets X y (S i) rest ;;
      Ok (acc :: accs)
  end.

Definition score (self : FactoredLogistic B) (X : list Row) (y : list Z)
  : result Q :=
  '(X, y) <- check_X_y X y ;;
  let datasets := map dataset_id X in
  let X := map features X in
  f <- get_fitted self ;;
  accs <- score_datasets f datasets X y O (datasets_ f) ;;
  Ok (Np.mean accs).

End Estimator.

(** ** [Projector] *)

Module Projector.

Definition Matrix : Type := list (list Q).

(** The process-wide MKL setting read by [mkl.get_max_threads] and
    written by [mkl.set_num_threads]. *)
Record Mkl : Type := { max_threads : Z }.

Definition get_max_threads (m : Mkl) : Z := max_threads m.
Definition set_num_threads (n : Z) (m : Mkl) : Mkl := {| max_threads := n |}.

Record Projector : Type := {
  basis : Matrix;
  n_jobs : Z;
  identity : bool
}.

(** [m.T]. *)
Definition transpose (m : Matrix) : Matrix :=
  match m with
  | [] => []
  | r0 :: _ => map (fun j => map (fun r => nth j r 0%Q) m) (seq 0 (length r0))
  end.

Section Transform.

(** The LAPACK driver behind [scipy.linalg.lstsq]; it runs with the MKL
    setting in force when it is called and may fail to converge. *)
Variable solver : Mkl -> Matrix -> Matrix -> result Matrix.

(** [lstsq(a, b)] raises [ValueError] when [a] and [b] do not have the
    same number of rows, before calling the driver. *)
Definition lstsq (mkl : Mkl) (a b : Matrix) : result Matrix :=
  if Nat.eqb (length a) (length b) then solver mkl a b
  else Raise ValueError.

(** [transform(X)]: the result (or the exception that left the method)
    and the MKL setting afterwards. *)
Definition transform (self : Projector) (X : Matrix) (mkl : Mkl)
  : result Matrix * Mkl :=
  let current_n_threads := get_max_threads mkl in
  let mkl1 := set_num_threads (n_jobs self) mkl in
  match lstsq mkl1 (transpose (basis self)) (transpose X) with
  | Raise e => (Raise e, mkl1)
  | Ok loadings =>
      let mkl2 := set_num_threads current_n_threads mkl1 in
      (Ok (transpose loadings), mkl2)
  end.

End Transform.

End Projector.

(** ** Definitions used in the statements *)

(** What the fine-tuning stage does to the layer objects when every
    model has its depth-3 layer at [i3] and its depth-2 layer at [i2]. *)
Definition frozen (i3 i2 : nat) (h : Keras.Heap) : Keras.Heap :=
  Keras.update i2 (Keras.set_rate 0)
    (Keras.update i3 (Keras.set_trainable false) h).

(** The estimator with another [fine_tune] or [random_state] argument. *)
Definition with_fine_tune {B : Backend} (b : bool) (self : FactoredLogistic B)
  : FactoredLogistic B :=
  {| latent_dim := latent_dim self; fine_tune := b;
     max_iter := max_iter self; batch_size := batch_size self;
     dropout := dropout self; random_state := random_state self;
     early_stop := early_stop self; fitted := fitted self |}.

Definition with_random_state {B : Backend} (rs : RandomState B)
    (self : FactoredLogistic B) : FactoredLogistic B :=
  {| latent_dim := latent_dim self; fine_tune := fine_tune self;
     max_iter := max_iter self; batch_size := batch_size self;
     dropout := dropout self; random_state := rs;
     early_stop := early_stop self; fitted := fitted self |}.

Definition with_latent_dim {B : Backend} (k : option nat)
    (self : FactoredLogistic B) : FactoredLogistic B :=
  {| latent_dim := k; fine_tune := fine_tune self;
     max_iter := max_iter self; batch_size := batch_size self;
     dropout := dropout self; random_state := random_state self;
     early_stop := early_stop self; fitted := fitted self |}.

(** The state after [n] passes of the [while] loop, when the loop makes
    that many. *)
Fixpoint loop_prefix {B : Backend} (cfg : LoopConfig) (n : nat)
    (st : LoopState B) : option (LoopState B) :=
  match n with
  | O => Some st
  | S n' =>
      match loop_guard cfg st with
      | Ok true =>
          match tick cfg st with
          | Ok st' => loop_prefix cfg n' st'
          | Raise _ => None
          end
      | _ => None
      end
  end.

(** The generator hands out permutations of [0 .. n). *)
Definition valid_permutations (B : Backend) : Prop :=
  forall (g : G B) (n : nat), Permutation (fst (permutation B g n)) (seq 0 n).

(** Passes a dataset can still take before its epoch counter reaches
    [max_iter]: the batches left in its generator plus a full epoch of
    batches for every epoch still missing. *)
Definition batches_per_epoch (cfg : LoopConfig) {B : Backend}
    (d : DatasetState B) : nat :=
  match Sk.gen_batches (length (ds_X d)) (cfg_batch_size cfg) with
  | Some l => length l
  | None => O
  end.

Definition steps_left (cfg : LoopConfig) {B : Backend} (d : DatasetState B)
  : Z :=
  (cfg_max_iter cfg - ds_n_epochs d) * Z.of_nat (batches_per_epoch cfg d)
  + match ds_batches d with
    | Some l => Z.of_nat (length l)
    | None => 0
    end.

Definition loop_bound (cfg : LoopConfig) {B : Backend} (st : LoopState B)
  : nat :=
  fold_right (fun d m => Nat.max (Z.to_nat (steps_left cfg d)) m) O
             (ls_datasets st).

(** [model.stop_training] of a dataset's model. *)
Definition stop_flag {B : Backend} (d : DatasetState B) : bool :=
  Keras.m_stop_training (ds_model d).

(** The condition under which the [while] loop stops at the end of a
    pass: every epoch counter has reached [max_iter], or there is
    validation data, early stopping is on, and every model's
    [stop_training] is set. *)
Definition exit_condition (cfg : LoopConfig) {B : Backend}
    (st : LoopState B) : Prop :=
  Forall (fun d => cfg_max_iter cfg <= ds_n_epochs d) (ls_datasets st)
  \/ (do_validation cfg = true /\ cfg_early_stop cfg = true
      /\ Forall (fun d => stop_flag d = true) (ls_datasets st)).

(** A dataset before and after one pass of the loop: it took the next
    batch of its generator, or its generator was exhausted and it went
    through [epoch_end] first. *)
Definition stepped (cfg : LoopConfig) {B : Backend} (d d' : DatasetState B)
  : Prop :=
  (exists b rest,
      ds_batches d = Some (b :: rest) /\ d' = with_batches (Some rest) d)
  \/ (ds_batches d = Some []
      /\ exists rng w b rest,
           ds_batches (fst (epoch_end cfg d rng w)) = Some (b :: rest)
           /\ d' = with_batches (Some rest) (fst (epoch_end cfg d rng w))).

(** The overwrite of [model.stop_training] at the start of a pass. *)
Definition reset_flag (cfg : LoopConfig) {B : Backend} (stop : bool)
    (d : DatasetState B) : DatasetState B :=
  if do_validation cfg
  then with_model (Keras.set_stop_training stop (ds_model d)) d
  else d.

(** What holds of the loop state at the end of every pass: there is at
    least one dataset, and the loop's [stop_training] is set exactly
    when validation data is present, early stopping is on, and every
    model's flag is set. *)
Definition loop_invariant (cfg : LoopConfig) {B : Backend}
    (st : LoopState B) : Prop :=
  ls_datasets st <> []
  /\ ls_stop_training st
     = do_validation cfg && cfg_early_stop cfg && all_stop (ls_datasets st).

(** ** An executable backend

    To run the estimator on concrete inputs the backend is instantiated
    with small deterministic operations: the weights are the log of the
    batches trained on (newest first), the network predicts for a row the
    class whose position is the row's first feature modulo the number of
    outputs, the loss is constant (a network that has stopped improving),
    the accuracy is Keras' categorical accuracy of those predictions, the
    generator is a congruential one whose permutations are rotations, and
    the early-stopping tracker is the patience rule of Keras'
    [EarlyStopping] for a loss to minimise. *)

Module Run.

Definition output_units (h : Keras.Heap) (m : Keras.Model) : nat :=
  match Keras.layer_at_depth m 0 with
  | Ok id => match nth_error h id with
             | Some l => Keras.l_units l
             | None => O
             end
  | Raise _ => O
  end.

Definition predict_row (n : nat) (r : Row) : list Q :=
  let k := Z.to_nat (Np.trunc (hd 0%Q r) mod Z.of_nat n) in
  map (fun j => if Nat.eqb j k then 1%Q else 0%Q) (seq 0 n).

Definition first_feature_net (h : Keras.Heap) (m : Keras.Model) (w : list (list Row))
    (X : list Row) : list (list Q) :=
  map (predict_row (output_units h m)) X.

Definition categorical_accuracy (proba : list (list Q))
    (y_bin : list (list Z)) : Q :=
  let hits :=
    map (fun p => if Nat.eqb (Np.argmax (fst p))
                             (Np.argmax (map inject_Z (snd p)))
                  then 1%Q else 0%Q)
        (combine proba y_bin) in
  Qred (Np.mean hits).

Definition rotate (k : nat) (l : list nat) : list nat :=
  skipn k l ++ firstn k l.

Definition rotation (g : Z) (n : nat) : list nat * Z :=
  (rotate (Z.to_nat (g mod Z.of_nat n)) (seq 0 n), (5 * g + 3) mod 16).

(** [EarlyStopping(monitor='val_loss', min_delta=1e-3, patience=3)]: the
    state is the number of epochs waited and the best loss so far; an
    epoch improves when its loss is below the best one by more than
    [min_delta], and the callback asks to stop at an epoch without
    improvement once [patience] such epochs have been waited. *)
Definition patience : nat := 3.
Definition min_delta : Q := (1 # 1000)%Q.

Definition patience_rule (st : nat * option Q) (epoch : Z) (current : Q)
  : (nat * option Q) * bool :=
  let '(wait, best) := st in
  let improved :=
    match best with
    | None => true
    | Some b => negb (Qle_bool b (current + min_delta)%Q)
    end in
  if improved then ((O, Some current), false)
  else ((S wait, best), (patience <=? wait)%nat).

Definition backend : Backend :=
  {| Wt := list (list Row);
     G := Z;
     ES := nat * option Q;
     init_weights := fun _ => [];
     train_on_batch := fun _ _ X _ w => X :: w;
     keras_fit := fun _ _ _ _ _ _ _ w => w;
     keras_predict := first_feature_net;
     evaluate := fun h m w X y_bin =>
                   (1%Q, categorical_accuracy (first_feature_net h m w X) y_bin);
     seed_state := fun s => s;
     global_state := 0;
     permutation := rotation;
     es_train_begin := (O, None);
     es_epoch_end := patience_rule |}.

(** An estimator as the constructor leaves it. *)
Definition estimator (latent : option nat) (ft : bool) (iters : Z)
    (bs : nat) (drop : Q) (seed : Z) (es : bool) : FactoredLogistic backend :=
  {| latent_dim := latent; fine_tune := ft; max_iter := iters;
     batch_size := bs; dropout := drop; random_state := RS_Seed seed;
     early_stop := es; fitted := None |}.

(** A row with the given features and dataset id. *)
Definition row (feats : list Z) (dataset : Z) : Row :=
  map inject_Z feats ++ [inject_Z dataset].

(** Inputs used to run the estimator.  [two_X]: two datasets, ids 0 and
    1, of three and five rows (two and three batches of two rows per
    epoch), three classes each, with validation rows for both.  [X_id1]
    and [X_id0]: one dataset of three rows and three classes, with id 1
    and with id 0. *)
Definition two_X : list Row :=
  [row [0] 0; row [1] 0; row [2] 0;
   row [0] 1; row [1] 1; row [2] 1; row [3] 1; row [4] 1].
Definition two_y : list Z := [10; 11; 12; 20; 21; 22; 20; 21].
Definition two_X_val : list Row :=
  [row [0] 0; row [1] 0; row [2] 0; row [0] 1; row [1] 1; row [2] 1].
Definition two_y_val : list Z := [10; 11; 12; 20; 21; 22].

Definition X_id1 : list Row := [row [0; 5] 1; row [1; 6] 1; row [2; 7] 1].
Definition X_id0 : list Row := [row [0; 5] 0; row [1; 6] 0; row [2; 7] 0].
Definition y_three : list Z := [10; 11; 12].

(** Simple mode, early stopping, at most 100 epochs, batches of 2. *)
Definition early_stopper : FactoredLogistic backend :=
  estimator None false 100 2 0 0 true.

(** The default construction of the factored estimator (fine-tuning on,
    no dropout), with 2 latent dimensions, 2 epochs and batches of 2. *)
Definition factored : FactoredLogistic backend :=
  estimator (Some 2%nat) true 2 2 0 7 false.

(** The same in simple mode. *)
Definition simple : FactoredLogistic backend :=
  estimator None true 2 2 0 7 false.

(** The estimator a fit returns, or [default] when it did not return
    one. *)
Definition fit_or {B : Backend} (o : option (result (FactoredLogistic B)))
    (default : FactoredLogistic B) : FactoredLogistic B :=
  match o with
  | Some (Ok self') => self'
  | _ => default
  end.

Definition returned {A : Type} (o : option (result A)) : bool :=
  match o with
  | Some (Ok _) => true
  | _ => false
  end.

Definition fitted_id0 : FactoredLogistic backend :=
  fit_or (fit 10 factored X_id0 y_three None) factored.

Definition fitted_id1 : FactoredLogistic backend :=
  fit_or (fit 10 factored X_id1 y_three None) factored.

Definition fitted_simple : FactoredLogistic backend :=
  fit_or (fit 10 simple X_id0 y_three None) simple.

Definition refitted_id0 : FactoredLogistic backend :=
  fit_or (fit 10 fitted_id0 X_id0 y_three None) factored.

(** The state in which [early_stopper] enters the loop on [two_X], and
    the loop state after [n] passes. *)
Definition result_or {A : Type} (r : result A) (default : A) : A :=
  match r with
  | Ok a => a
  | Raise _ => default
  end.

Definition nothing_prepared : Prepared backend :=
  {| pr_cfg := {| do_validation := false; cfg_early_stop := false;
                  cfg_max_iter := 0; cfg_batch_size := 0;
                  cfg_layers := [] |};
     pr_state := @Build_LoopState backend [] 0 [] false;
     pr_datasets_ := []; pr_classes_list_ := [];
     pr_stacked_model_ := Keras.compile [];
     pr_n_samples_ := []; pr_fine_tune := false |}.

Definition prepared : Prepared backend :=
  result_or
    (prepare early_stopper two_X two_y (Some (two_X_val, two_y_val)))
    nothing_prepared.

Definition passes (n : nat) : option (LoopState backend) :=
  loop_prefix (pr_cfg prepared) n (pr_state prepared).

(** The training log of a fitted estimator. *)
Definition training_log (self : FactoredLogistic backend)
  : option (list (list Row)) :=
  option_map (@weights_ backend) (fitted self).

(** The state of the generator a fit left in [random_state]. *)
Definition generator_state (self : FactoredLogistic backend) : option Z :=
  match random_state self with
  | RS_Generator g => Some g
  | _ => None
  end.

End Run.

(** [score] as the specification words it: every dataset's accuracy is
    taken against the one-hot encoding over the class set recorded by
    [fit] for that dataset.  It differs from [score_datasets] only in
    the encoding handed to [evaluate]. *)
Fixpoint score_datasets_as_specified {B : Backend} (f : Fitted B)
    (datasets : list Z) (X : list Row) (y : list Z) (i : nat)
    (todo : list Z) : result (list Q) :=
  match todo with
  | [] => Ok []
  | this_dataset :: rest =>
      let indices := Np.eq_mask datasets this_dataset in
      let this_X := Np.select indices X in
      let this_y := Np.select indices y in
      classes <- Np.index (classes_list_ f) (Z.of_nat i) ;;
      model <- Np.index (models_ f) (Z.of_nat i) ;;
      let this_y_bin := Sk.label_binarize this_y classes in
      let acc := snd (evaluate B (layers_ f) model (weights_ f)
                               this_X this_y_bin) in
      accs <- score_datasets_as_specified f datasets X y (S i) rest ;;
      Ok (acc :: accs)
  end.

Definition score_as_specified {B : Backend} (self : FactoredLogistic B)
    (X : list Row) (y : list Z) : result Q :=
  '(X, y) <- check_X_y X y ;;
  let datasets := map dataset_id X in
  let X := map features X in
  f <- get_fitted self ;;
  accs <- score_datasets_as_specified f datasets X y O (datasets_ f) ;;
  Ok (Np.mean accs).

(** A projector on a basis of one component in two dimensions, run by
    one worker, with a driver that returns the right-hand side; and an
    input with three columns, which the basis does not fit. *)
Definition unit_projector : Projector.Projector :=
  {| Projector.basis := [[1%Q; 0%Q]]; Projector.n_jobs := 1;
     Projector.identity := false |}.

Definition echo_solver (mkl : Projector.Mkl) (a b : Projector.Matrix)
  : result Projector.Matrix := Ok b.

Definition three_columns : Projector.Matrix := [[1%Q; 2%Q; 3%Q]].
Definition two_columns : Projector.Matrix := [[1%Q; 2%Q]].

(** The number of batches a dataset's generator still holds. *)
Definition batches_left {B : Backend} (d : DatasetState B) : nat :=
  match ds_batches d with
  | Some l => length l
  | None => O
  end.

(** The features and the encoded labels the loop holds for a dataset,
    row by row. *)
Definition training_rows {B : Backend} (d : DatasetState B)
  : list (Row * list Z) :=
  combine (ds_X d) (ds_y_bin d).

(** The number of batches of [batch_size] rows that cover [n] rows: the
    ceiling of [n / batch_size]. *)
Definition batches_of (batch_size n : nat) : nat :=
  ((n + batch_size - 1) / batch_size)%nat.

(** The loop state of [Run.prepared] after [n] passes. *)
Definition state_after (n : nat) : LoopState Run.backend :=
  match Run.passes n with
  | Some st => st
  | None => pr_state Run.prepared
  end.

Definition some_state (o : option (LoopState Run.backend)) : bool :=
  match o with
  | Some _ => true
  | None => false
  end.

(** An estimator asked for batches of no rows, and the state in which
    it would enter the loop on [Run.two_X]. *)
Definition zero_batches : FactoredLogistic Run.backend :=
  Run.estimator None false 1 0 0 0 false.

Definition zero_prepared : Prepared Run.backend :=
  Run.result_or (prepare zero_batches Run.two_X Run.two_y None)
                Run.nothing_prepared.

(** An estimator with a negative [max_iter]. *)
Definition negative_max_iter : FactoredLogistic Run.backend :=
  Run.estimator None false (-1) 2 0 0 false.

(** The factored estimator with a dropout rate of one half, and what
    [fit] makes of it on [Run.X_id0]. *)
Definition dropping : FactoredLogistic Run.backend :=
  Run.estimator (Some 2%nat) true 2 2 (1 # 2) 7 false.

Definition fitted_dropping : FactoredLogistic Run.backend :=
  Run.fit_or (fit 10 dropping Run.X_id0 Run.y_three None) dropping.

(** What a model constructor owes to the class sets it is given: an
    [IndexError] for no class set at all, otherwise one model per class
    set whose output layer has as many units as the set has classes, and
    a stacked model whose output layer has as many units as there are
    classes in all sets together. *)
Definition heads_sized (classes_list : list (list Z))
    (r : result (Keras.Heap * list Keras.Model * Keras.Model)) : Prop :=
  match classes_list with
  | [] => r = Raise IndexError
  | _ =>
      exists h models stacked,
        r = Ok (h, models, stacked)
        /\ Forall2
             (fun classes m =>
                exists out,
                  Keras.layer_at_depth m 0 = Ok out
                  /\ option_map Keras.l_units (nth_error h out)
                     = Some (length classes))
             classes_list models
        /\ exists out,
             Keras.layer_at_depth stacked 0 = Ok out
             /\ option_map Keras.l_units (nth_error h out)
                = Some (Keras.total_classes classes_list)
  end.

(** An estimator fitted on the two datasets of [Run.two_X], one row of
    dataset 0 alone, and the labels [predict] gives to [Run.two_X]. *)
Definition fitted_two : FactoredLogistic Run.backend :=
  Run.fit_or
    (fit 400 (with_fine_tune false Run.simple) Run.two_X Run.two_y None)
    Run.simple.

Definition one_row_of_dataset_0 : list Row := [Run.row [0] 0].

Definition predicted_two : list Z :=
  Run.result_or (predict fitted_two Run.two_X) [].

(** A dataset in the middle of an epoch: the batches its generator
    still holds are the tail of the batches [gen_batches] cuts its
    current rows into; [done] are the batches already trained on in
    this epoch. *)
Definition in_epoch (batch_size : nat) {B : Backend} (d : DatasetState B)
    (done rest : list (nat * nat)) : Prop :=
  Sk.gen_batches (length (ds_X d)) batch_size = Some (done ++ rest)
  /\ ds_batches d = Some rest.

(** ** [make_loadings_extractor]: the weights of the feature union

    The part of [make_loadings_extractor] that decides whether the
    function returns and with which [transformer_weights]: lines 87 to
    107.  A basis is represented by its shape [(n_components,
    n_features)]; the weights are exact rationals, and [sqrt] stands for
    [np.sqrt].  Building the pipelines before the weighting is taken to
    succeed. *)

Module Loadings.

(** The values of [scale_importance]: [None], ['sqrt'], ['linear'], or
    anything else, the default [True] included. *)
Inductive ScaleImportance : Type :=
| SI_None
| SI_Sqrt
| SI_Linear
| SI_Other.

Definition accepted (si : ScaleImportance) : bool :=
  match si with
  | SI_Other => false
  | _ => true
  end.

Section Weights.

Variable sqrt : Q -> Q.

(** The [if] chain on [scale_importance]. *)
Definition scales_of (sizes : list nat) (si : ScaleImportance)
  : result (list Q) :=
  match si with
  | SI_None => Ok (map (fun _ => 1%Q) sizes)
  | SI_Sqrt => Ok (map (fun n => sqrt (inject_Z (Z.of_nat n))) sizes)
  | SI_Linear => Ok (map (fun n => inject_Z (Z.of_nat n)) sizes)
  | SI_Other => Raise ValueError
  end.

(** [np.sum(1. / scales)]. *)
Definition sum_of_inverses (scales : list Q) : Q :=
  fold_right Qplus 0%Q (map Qinv scales).

(** The weights of ['scaled_projector_0'], ['scaled_projector_1'], ...
    in that order.  With [identity] set, [bases[0].shape[1]] raises
    [IndexError] on an empty list of bases, [1. / n_features] divides by
    zero when the basis has no column, and otherwise [np.concatenate]
    refuses the zero-dimensional array [np.array(1. / n_features)] with
    a [ValueError]. *)
Definition transformer_weights (shapes : list (nat * nat)) (identity : bool)
    (si : ScaleImportance) : result (list Q) :=
  let sizes := map fst shapes in
  scales <- scales_of sizes si ;;
  scales <-
    (if identity then
       match shapes with
       | [] => Raise IndexError
       | (_, n_features) :: _ =>
           if Nat.eqb n_features 0 then Raise ZeroDivisionError
           else Raise ValueError
       end
     else Ok scales) ;;
  Ok (map (fun s => (1 / s / sum_of_inverses scales)%Q) scales).

End Weights.

End Loadings.

(** Two bases of two and three components on four features. *)
Definition two_bases : list (nat * nat) := [(2, 4); (3, 4)]%nat.

(** ** [make_classifier]

    The classifier objects [make_classifier] builds, by the constructor
    called and the arguments this development reads.  [Const] stands for
    the values of the regularization constants, and the three results
    given to [make_classifier] for the outcome of evaluating
    [1. / train_samples], [1. / train_samples / alphas[0]] and
    [1. / train_samples / alphas] (Python raises on a zero divisor and on
    a list divisor). *)

Module Classifier.

(** [alphas]: a number, a list or an array. *)
Inductive Alphas : Type :=
| A_Scalar (a : Q)
| A_List (l : list Q)
| A_Array (l : list Q).

Inductive Penalty : Type := P_L1 | P_L2 | P_Trace.

Inductive MultiClass : Type := Multinomial | Ovr.

Record Args : Type := {
  alphas : Alphas;
  a_latent_dim : option nat;
  factored : bool;
  a_max_iter : Z;
  a_fine_tune : bool;
  a_n_jobs : Z;
  penalty : Penalty;
  a_dropout : Q;
  multi_class : MultiClass;
  a_random_state : option Z
}.

Section Build.

Variable B : Backend.
Variable Const : Type.
Variables (C_samples C_single Cs_all : result Const).

Inductive Estimator : Type :=
| E_Factored (self : FactoredLogistic B) (alpha : Q) (n_jobs : Z)
| E_Fista (multiclass : bool) (max_iter : Z) (alpha : Q) (C : Const)
| E_LogisticRegressionCV (mc : MultiClass) (random_state : option Z)
                         (pen : Penalty) (Cs : Const)
| E_LogisticRegression (mc : MultiClass) (random_state : option Z)
                       (pen : Penalty) (C : Const)
| E_GridSearchCV (inner : Estimator) (grid : list Q) (n_jobs : Z).

(** [if not hasattr(alphas, '__iter__'): alphas = [alphas]]. *)
Definition as_sequence (a : Alphas) : list Q :=
  match a with
  | A_Scalar a => [a]
  | A_List l => l
  | A_Array l => l
  end.

(** [alphas[0]]. *)
Definition first (l : list Q) : result Q :=
  match l with
  | [] => Raise IndexError
  | a :: _ => Ok a
  end.

(** [multiclass == 'multinomial'] for the boolean [multiclass]: a bool
    is never equal to a string. *)
Definition bool_equals_multinomial (multiclass : bool) : bool := false.

Definition multinomial (mc : MultiClass) : bool :=
  match mc with
  | Multinomial => true
  | Ovr => false
  end.

(** The [FactoredLogistic] of the factored branch: [random_state] and
    [early_stop] are not passed and keep their defaults. *)
Definition factored_logistic (args : Args) : FactoredLogistic B :=
  {| latent_dim := a_latent_dim args;
     fine_tune := a_fine_tune args;
     max_iter := a_max_iter args;
     batch_size := 200;
     dropout := a_dropout args;
     random_state := RS_None;
     early_stop := true;
     fitted := None |}.

Definition make_classifier (args : Args) : result Estimator :=
  let alphas := as_sequence (alphas args) in
  if factored args then
    alpha0 <- first alphas ;;
    if (1 <? length alphas)%nat then
      Ok (E_GridSearchCV (E_Factored (factored_logistic args) alpha0 1)
                         alphas (a_n_jobs args))
    else Ok (E_Factored (factored_logistic args) alpha0 (a_n_jobs args))
  else
    match penalty args with
    | P_Trace =>
        let multiclass := multinomial (multi_class args) in
        alpha0 <- first alphas ;;
        c <- C_samples ;;
        let classifier :=
          E_Fista (bool_equals_multinomial multiclass) (a_max_iter args)
                  alpha0 c in
        if (1 <? length alphas)%nat
        then Ok (E_GridSearchCV classifier alphas (a_n_jobs args))
        else Ok classifier
    | pen =>
        if (1 <? length alphas)%nat then
          cs <- Cs_all ;;
          Ok (E_LogisticRegressionCV (multi_class args)
                                     (a_random_state args) pen cs)
        else
          c <- C_single ;;
          Ok (E_LogisticRegression (multi_class args)
                                   (a_random_state args) pen c)
    end.

(** The estimator under a grid search, or the estimator itself. *)
Definition base_estimator (e : Estimator) : Estimator :=
  match e with
  | E_GridSearchCV inner _ _ => inner
  | _ => e
  end.

(** The seed an estimator was built with, if it was given one. *)
Definition seed_of (e : Estimator) : option Z :=
  match base_estimator e with
  | E_Factored self _ _ =>
      match random_state self with
      | RS_Seed s => Some s
      | _ => None
      end
  | E_LogisticRegressionCV _ rs _ _ => rs
  | E_LogisticRegression _ rs _ _ => rs
  | _ => None
  end.

End Build.

Arguments E_Factored {B Const} self alpha n_jobs.
Arguments E_Fista {B Const} multiclass max_iter alpha C.
Arguments E_LogisticRegressionCV {B Const} mc random_state pen Cs.
Arguments E_LogisticRegression {B Const} mc random_state pen C.
Arguments E_GridSearchCV {B Const} inner grid n_jobs.
Arguments make_classifier B {Const} C_samples C_single Cs_all args.
Arguments base_estimator {B Const} e.
Arguments seed_of {B Const} e.

Definition with_seed (rs : option Z) (args : Args) : Args :=
  {| alphas := alphas args; a_latent_dim := a_latent_dim args;
     factored := factored args; a_max_iter := a_max_iter args;
     a_fine_tune := a_fine_tune args; a_n_jobs := a_n_jobs args;
     penalty := penalty args; a_dropout := a_dropout args;
     multi_class := multi_class args; a_random_state := rs |}.

Definition with_multi_class (mc : MultiClass) (args : Args) : Args :=
  {| alphas := alphas args; a_latent_dim := a_latent_dim args;
     factored := factored args; a_max_iter := a_max_iter args;
     a_fine_tune := a_fine_tune args; a_n_jobs := a_n_jobs args;
     penalty := penalty args; a_dropout := a_dropout args;
     multi_class := mc; a_random_state := a_random_state args |}.

End Classifier.

(** The call [make_classifier([0.1, 0.01], beta, 5, random_state=3)] with
    the other arguments at their defaults. *)
Definition seeded_call : Classifier.Args :=
  {| Classifier.alphas := Classifier.A_List [(1 # 10)%Q; (1 # 100)%Q];
     Classifier.a_latent_dim := Some 5%nat;
     Classifier.factored := true;
     Classifier.a_max_iter := 10;
     Classifier.a_fine_tune := true;
     Classifier.a_n_jobs := 1;
     Classifier.penalty := Classifier.P_L2;
     Classifier.a_dropout := 0%Q;
     Classifier.multi_class := Classifier.Multinomial;
     Classifier.a_random_state := Some 3 |}.

(** The validation arrays [fit] keeps for dataset [d]: the validation
    rows carrying that id, and their labels encoded by a binarizer
    fitted on those very labels. *)
Definition validation_slot (X_val : list Row) (y_val : list Z) (d : Z)
  : option (list Row * list (list Z)) :=
  let indices := Np.eq_mask (map dataset_id X_val) d in
  Some (Np.select indices (map features X_val),
        Sk.fit_transform (Np.select indices y_val)).

(** A dataset the loop can take a step on: it has at least one row and a
    batch generator. *)
Definition ready {B : Backend} (d : DatasetState B) : Prop :=
  (1 <= length (ds_X d))%nat /\ exists bl, ds_batches d = Some bl.

(** A constructor result in which the stacked model is made of the
    layers of the per-dataset models: every layer of the stacked model
    is a layer of one of the models, apart from the concatenation and
    the final softmax, which hold no weights. *)
Definition shares_layers
    (r : result (Keras.Heap * list Keras.Model * Keras.Model)) : Prop :=
  exists h models stacked,
    r = Ok (h, models, stacked)
    /\ forall id,
         In id (concat (Keras.m_layers_by_depth stacked)) ->
         (exists m, In m models
                    /\ In id (concat (Keras.m_layers_by_depth m)))
         \/ (exists l, nth_error h id = Some l
                       /\ (Keras.l_role l = Keras.ConcatenateLayer
                           \/ Keras.l_role l = Keras.StackedSoftmax)).

(** The labels of the rows of dataset [d] in [pred] are the classes of
    [classes_list_[d]] at the largest output of the dataset's model. *)
Definition labelled {B : Backend} (f : Fitted B) (datasets : list Z)
    (X : list Row) (d : Z) (pred : list Z) : Prop :=
  exists classes idx model,
    Np.index (classes_list_ f) d = Ok classes
    /\ Np.where_first (datasets_ f) d = Ok idx
    /\ Np.index (models_ f) (Z.of_nat idx) = Ok model
    /\ Np.take classes
         (argmax_rows
            (keras_predict B (layers_ f) model (weights_ f)
               (Np.select (Np.eq_mask datasets d) X)))
       = Ok (Np.select (Np.eq_mask datasets d) pred).

(** The number of passes the loop makes when early stopping cannot act:
    none for [max_iter = 0], and otherwise one more than [max_iter]
    epochs of the dataset with the most batches per epoch, since an
    epoch is counted at the first batch of the next one. *)
Definition loop_passes (max_iter : Z) (batch_size : nat)
    (n_samples : list nat) : nat :=
  if max_iter <=? 0 then O
  else S (Z.to_nat (max_iter
                    * Z.of_nat (list_max (map (batches_of batch_size)
                                              n_samples)))).

(** * Properties *)

(** ** The primitives on small inputs *)

Example unique_sorts_and_dedups : Np.unique [3; 1; 3; 2; 1] = [1; 2; 3].
Proof. reflexivity. Qed.

Example index_counts_from_the_end :
  Np.index [10; 20; 30] (-1) = Ok 30
  /\ Np.index [10; 20; 30] 3 = Raise IndexError
  /\ Np.index [10; 20; 30] (-4) = Raise IndexError.
Proof. repeat split. Qed.

Example argmax_takes_the_first_maximum :
  Np.argmax [(1 # 4)%Q; (1 # 2)%Q; (1 # 2)%Q] = 1%nat.
Proof. reflexivity. Qed.

Example bool_index_checks_the_length :
  Np.bool_index [true; false; true] [1; 2; 3] = Ok [1; 3]
  /\ Np.bool_index [true] [1; 2; 3] = Raise IndexError.
Proof. split; reflexivity. Qed.

Example fit_transform_three_classes :
  Sk.fit_transform [7; 5; 6; 5] = [[0; 0; 1]; [1; 0; 0]; [0; 1; 0]; [1; 0; 0]].
Proof. reflexivity. Qed.

Example fit_transform_one_class : Sk.fit_transform [4; 4] = [[0]; [0]].
Proof. reflexivity. Qed.

Example gen_batches_covers_the_rows :
  Sk.gen_batches 5 2 = Some [(0, 2); (2, 4); (4, 5)]%nat
  /\ Sk.gen_batches 4 2 = Some [(0, 2); (2, 4)]%nat
  /\ Sk.gen_batches 4 0 = None.
Proof. repeat split. Qed.

Example unmatched_mask_has_one_entry_per_fitted_dataset :
  unmatched_mask [0; 1] [0; 0; 7] = [false; true].
Proof. reflexivity. Qed.

(** ** [np.unique]: sorted, without repetition, same elements *)

Lemma insert_unique_In (x y : Z) (l : list Z) :
  In y (Np.insert_unique x l) <-> y = x \/ In y l.
Proof.
  induction l as [|h t IH]; simpl.
  - intuition.
  - destruct (x <? h) eqn:Hlt; [simpl; intuition|].
    destruct (x =? h) eqn:Heq.
    + apply Z.eqb_eq in Heq; subst h; simpl; intuition.
    + simpl; rewrite IH; intuition.
Qed.

Lemma unique_In (x : Z) (l : list Z) : In x (Np.unique l) <-> In x l.
Proof.
  induction l as [|h t IH]; simpl; [tauto|].
  rewrite insert_unique_In, IH; intuition.
Qed.

Lemma insert_unique_sorted (x : Z) (l : list Z) :
  StronglySorted Z.lt l -> StronglySorted Z.lt (Np.insert_unique x l).
Proof.
  induction l as [|h t IH]; intros Hs; simpl.
  - repeat constructor.
  - inversion Hs as [|? ? Ht Hall]; subst.
    destruct (x <? h) eqn:Hlt.
    + apply Z.ltb_lt in Hlt. constructor; [assumption|].
      constructor; [assumption|].
      rewrite Forall_forall in *; intros z Hz; specialize (Hall z Hz); lia.
    + destruct (x =? h) eqn:Heq; [assumption|].
      apply Z.ltb_ge in Hlt. apply Z.eqb_neq in Heq.
      constructor; [auto|].
      rewrite Forall_forall in *; intros z Hz.
      apply insert_unique_In in Hz. destruct Hz as [->|Hz]; [lia|auto].
Qed.

Lemma unique_sorted (l : list Z) : StronglySorted Z.lt (Np.unique l).
Proof.
  induction l as [|h t IH]; simpl; [constructor|].
  now apply insert_unique_sorted.
Qed.

Lemma sorted_lt_NoDup (l : list Z) : StronglySorted Z.lt l -> NoDup l.
Proof.
  induction 1 as [|h t Ht IH Hall]; constructor; [|assumption].
  intros Hin. rewrite Forall_forall in Hall. specialize (Hall h Hin). lia.
Qed.

Lemma unique_NoDup (l : list Z) : NoDup (Np.unique l).
Proof. apply sorted_lt_NoDup, unique_sorted. Qed.

(** ** Boolean masks *)


Lemma select_length_eq {A C : Type} (mask : list bool) (a : list A)
    (c : list C) :
  length a = length c ->
  length (Np.select mask a) = length (Np.select mask c).
Proof.
  revert a c; induction mask as [|b mask IH]; intros [|x a] [|z c] Hlen;
    simpl in *; try reflexivity; try discriminate.
  destruct b; simpl; auto.
Qed.

Lemma select_eq_mask_filter {A : Type} (datasets : list Z) (d : Z)
    (a : list A) :
  Np.select (Np.eq_mask datasets d) a
  = map snd (filter (fun r => fst r =? d) (combine datasets a)).
Proof.
  revert a; induction datasets as [|x ds IH]; intros [|z a]; simpl;
    try reflexivity.
  destruct (x =? d); simpl; now rewrite IH.
Qed.

(** Adding one row whose id is among the ids (each listed once) adds it
    to exactly one part. *)
Lemma concat_one_more {A : Type} (x : A) (d0 : Z) (F : Z -> list A)
    (ks : list Z) :
  NoDup ks -> In d0 ks ->
  Permutation
    (concat (map (fun k => if d0 =? k then x :: F k else F k) ks))
    (x :: concat (map F ks)).
Proof.
  induction ks as [|k ks IH]; intros Hnd Hin; [contradiction|].
  inversion Hnd as [|? ? Hnotin Hnd']; subst. simpl.
  destruct (d0 =? k) eqn:Heq.
  - apply Z.eqb_eq in Heq; subst k. simpl. apply perm_skip.
    apply Permutation_app_head.
    assert (Hsame : map (fun k => if d0 =? k then x :: F k else F k) ks
                    = map F ks).
    { apply map_ext_in. intros k Hk.
      destruct (d0 =? k) eqn:E; [|reflexivity].
      apply Z.eqb_eq in E; subst k; contradiction. }
    now rewrite Hsame.
  - apply Z.eqb_neq in Heq. destruct Hin as [->|Hin]; [congruence|].
    etransitivity; [apply Permutation_app_head, IH; assumption|].
    symmetry. apply Permutation_middle.
Qed.

Lemma split_by_dataset_permutation {A : Type} (ks datasets : list Z)
    (a : list A) :
  NoDup ks -> (forall d, In d datasets -> In d ks) ->
  length datasets = length a ->
  Permutation (concat (split_by_dataset ks datasets a)) a.
Proof.
  intros Hnd. revert a.
  induction datasets as [|d0 ds IH]; intros [|x a] Hcov Hlen;
    simpl in Hlen; try discriminate.
  - unfold split_by_dataset. simpl.
    clear Hnd Hcov. induction ks as [|k ks IHk]; simpl; [constructor|].
    exact IHk.
  - unfold split_by_dataset in *. simpl.
    etransitivity.
    + apply (concat_one_more x d0
               (fun k => Np.select (Np.eq_mask ds k) a));
        [assumption|]. apply Hcov. now left.
    + apply perm_skip. apply IH; [|lia].
      intros d Hd. apply Hcov. now right.
Qed.


Lemma check_array_Ok (X X' : list Row) :
  check_array X = Ok X' -> X' = X /\ X <> [].
Proof.
  unfold check_array. destruct X as [|r0 X0]; [discriminate|].
  destruct (_ && _); [|discriminate].
  intros H; inversion H; split; [reflexivity|discriminate].
Qed.

Lemma check_X_y_Ok (X : list Row) (y : list Z) X' y' :
  check_X_y X y = Ok (X', y') ->
  X' = X /\ y' = y /\ length X = length y /\ X <> [].
Proof.
  unfold check_X_y. destruct (check_array X) as [X0|e] eqn:Hc; simpl;
    [|discriminate].
  apply check_array_Ok in Hc. destruct Hc as [-> Hne].
  destruct (Nat.eqb (length X) (length y)) eqn:Hlen; [|discriminate].
  apply Nat.eqb_eq in Hlen. intros H; inversion H; subst. auto.
Qed.

(** The encodings of a list of label vectors: every vector must have a
    sample. *)
Lemma for_each_fit_transform_Ok (ys : list (list Z)) :
  forall l,
    for_each Sk.fit_transform_call ys = Ok l ->
    l = map Sk.fit_transform ys /\ Forall (fun y => y <> []) ys.
Proof.
  induction ys as [|y ys IH]; intros l H; simpl in H.
  - inversion H. split; [reflexivity|constructor].
  - destruct y as [|v y]; [discriminate|]. cbn [Sk.fit_transform_call
      Sk.check_samples bind] in H.
    destruct (for_each Sk.fit_transform_call ys) as [rest|e];
      cbn [bind] in H; [|discriminate].
    destruct (IH _ eq_refl) as [-> Hall]. inversion H; subst.
    split; [reflexivity|]. constructor; [discriminate|exact Hall].
Qed.

Lemma for_each_fit_transform_nonempty (ys : list (list Z)) :
  Forall (fun y => y <> []) ys ->
  for_each Sk.fit_transform_call ys = Ok (map Sk.fit_transform ys).
Proof.
  induction 1 as [|y ys Hy Hall IH]; simpl; [reflexivity|].
  destruct y as [|v y]; [contradiction|].
  cbn [Sk.fit_transform_call Sk.check_samples bind]. rewrite IH.
  reflexivity.
Qed.



(** ** The label encoding *)

Lemma indicator_row_length (classes : list Z) (v : Z) :
  length (Sk.indicator_row classes v) = length classes.
Proof. unfold Sk.indicator_row. apply length_map. Qed.

Lemma indicator_row_nth (classes : list Z) (v : Z) (j : nat) (c : Z) :
  nth_error classes j = Some c ->
  nth_error (Sk.indicator_row classes v) j
  = Some (if v =? c then 1 else 0).
Proof.
  intros H. unfold Sk.indicator_row. now rewrite nth_error_map, H.
Qed.

(** A label that occurs once in the class set has exactly one 1 in its
    indicator row. *)
Lemma indicator_row_sum (classes : list Z) (v : Z) :
  NoDup classes -> In v classes ->
  fold_right Z.add 0 (Sk.indicator_row classes v) = 1.
Proof.
  unfold Sk.indicator_row.
  induction classes as [|c cs IH]; intros Hnd Hin; [contradiction|].
  inversion Hnd as [|? ? Hnotin Hnd']; subst. simpl.
  destruct (v =? c) eqn:E.
  - apply Z.eqb_eq in E; subst c.
    assert (Hz : fold_right Z.add 0
                   (map (fun c => if v =? c then 1 else 0) cs) = 0).
    { clear IH Hnd Hnd' Hin. induction cs as [|c cs IHc]; [reflexivity|].
      simpl. destruct (v =? c) eqn:E.
      - apply Z.eqb_eq in E; subst c. exfalso; apply Hnotin; now left.
      - rewrite IHc; [reflexivity|]. intros H; apply Hnotin; now right. }
    rewrite Hz. reflexivity.
  - apply Z.eqb_neq in E. destruct Hin as [->|Hin]; [congruence|].
    rewrite IH; auto.
Qed.

(** With three classes or more the encoding of [fit] is the one-hot
    matrix the heads expect: one row per sample, one column per class in
    the order of the sorted class set, a single 1 in the column of the
    sample's label. *)
Lemma fit_transform_multiclass (y : list Z) :
  (3 <= length (Np.unique y))%nat ->
  length (Sk.fit_transform y) = length y
  /\ forall i v, nth_error y i = Some v ->
       exists row,
         nth_error (Sk.fit_transform y) i = Some row
         /\ length row = length (Np.unique y)
         /\ fold_right Z.add 0 row = 1
         /\ forall j c, nth_error (Np.unique y) j = Some c ->
              nth_error row j = Some (if v =? c then 1 else 0).
Proof.
  intros H3. unfold Sk.fit_transform, Sk.label_binarize.
  destruct (Np.unique y) as [|c1 [|c2 [|c3 cs]]] eqn:Hu;
    simpl in H3; try lia.
  rewrite <- Hu. split; [apply length_map|].
  intros i v Hi. exists (Sk.indicator_row (Np.unique y) v).
  rewrite nth_error_map, Hi. simpl.
  repeat split.
  - apply indicator_row_length.
  - apply indicator_row_sum; [apply unique_NoDup|].
    apply unique_In. eapply nth_error_In; eassumption.
  - intros j c Hj. now apply indicator_row_nth.
Qed.

(** C2.  A dataset whose labels take exactly two values is encoded by
    [fit] as a single column (the indicator of the larger label), not as a
    one-hot matrix with one column per class: every row of the encoding
    has length 1 while the class set has 2 elements. *)
Theorem two_class_encoding_is_one_column :
  forall (y : list Z) (a b : Z),
    Np.unique y = [a; b] ->
    Sk.fit_transform y = map (fun v => [if v =? b then 1 else 0]) y
    /\ Forall (fun row => length row = 1%nat
                          /\ length row <> length (Np.unique y))
              (Sk.fit_transform y).
Proof.
  intros y a b Hu.
  assert (Heq : Sk.fit_transform y
                = map (fun v => [if v =? b then 1 else 0]) y).
  { unfold Sk.fit_transform, Sk.label_binarize. rewrite Hu.
    apply map_ext. intros v. reflexivity. }
  split; [exact Heq|].
  rewrite Heq, Hu. apply Forall_forall. intros row Hrow.
  apply in_map_iff in Hrow. destruct Hrow as (v & <- & _).
  simpl. split; [reflexivity|discriminate].
Qed.

Lemma two_class_encoding_is_one_column_witness :
  Sk.fit_transform [0; 1; 1; 0] = [[0]; [1]; [1]; [0]].
Proof.
  exact (proj1 (two_class_encoding_is_one_column [0; 1; 1; 0] eq_refl)).
Defined.

(** ** The model graph and the fine-tuning stage *)

Lemma nth_error_update (id j : nat) (f : Keras.Layer -> Keras.Layer)
    (h : Keras.Heap) :
  nth_error (Keras.update id f h) j
  = if Nat.eqb id j then option_map f (nth_error h j) else nth_error h j.
Proof.
  revert id j; induction h as [|l h IH]; intros id j.
  - destruct id; destruct j; simpl; try reflexivity.
    now destruct (Nat.eqb id j).
  - destruct id, j; simpl; try reflexivity. apply IH.
Qed.

Lemma build_heads_spec (trunk : list nat) (cl : list (list Z)) :
  forall (i : nat) (h h' : Keras.Heap) (models : list Keras.Model)
         (sups : list nat),
    Keras.build_heads trunk i cl h = (h', models, sups) ->
    (exists ext, h' = h ++ ext)
    /\ length models = length cl
    /\ Forall (fun m => (Keras.m_lr m = Keras.adam_lr
                         /\ Keras.m_stop_training m = false)
                        /\ exists sup act,
                             Keras.m_layers_by_depth m
                             = Keras.chain_depths (trunk ++ [sup; act]))
              models.
Proof.
  induction cl as [|classes rest IH]; intros i h h' models sups Hb;
    simpl in Hb.
  - inversion Hb; subst. split; [exists []; now rewrite app_nil_r|].
    split; [reflexivity|constructor].
  - destruct (Keras.build_heads trunk (S i) rest _)
      as [[h3 models3] sups3] eqn:Hrec.
    inversion Hb; subst. apply IH in Hrec.
    destruct Hrec as ((ext & ->) & Hlen & Hall).
    split; [|split].
    + eexists. rewrite <- !app_assoc. reflexivity.
    + simpl. now rewrite Hlen.
    + constructor; [|assumption]. split; [split; reflexivity|].
      eexists _, _. reflexivity.
Qed.

(** The two layers the fine-tuning stage writes to, for a model made of
    a trunk and one head. *)
Lemma chain_depths_lookup (trunk : list nat) (sup act : nat)
    (m : Keras.Model) (depth : nat) :
  Keras.m_layers_by_depth m = Keras.chain_depths (trunk ++ [sup; act]) ->
  Keras.layer_at_depth m (2 + depth)
  = match nth_error (rev trunk) depth with
    | Some id => Ok id
    | None => Raise KeyError
    end.
Proof.
  intros H. unfold Keras.layer_at_depth. rewrite H.
  unfold Keras.chain_depths. rewrite rev_app_distr. simpl.
  rewrite nth_error_map. now destruct (nth_error (rev trunk) depth).
Qed.

Lemma frozen_idempotent (i3 i2 : nat) (h : Keras.Heap) :
  frozen i3 i2 (frozen i3 i2 h) = frozen i3 i2 h.
Proof.
  apply nth_error_ext. intros j. unfold frozen.
  rewrite !nth_error_update.
  destruct (Nat.eqb i2 j), (Nat.eqb i3 j), (nth_error h j) as [[]|];
    reflexivity.
Qed.

Section FineTune.

Variable B : Backend.
Variable cfg : LoopConfig.

Lemma fine_tune_stage_spec (i3 i2 : nat) (ds : list (DatasetState B)) :
  Forall (fun d => Keras.layer_at_depth (ds_model d) 3 = Ok i3
                   /\ Keras.layer_at_depth (ds_model d) 2 = Ok i2) ds ->
  forall (h : Keras.Heap) (w : Wt B),
  exists ds' w',
    fine_tune_stage cfg ds h w
    = Ok (ds', match ds with [] => h | _ => frozen i3 i2 h end, w')
    /\ Forall2 (fun d d' =>
                  Keras.m_lr (ds_model d')
                  = (Keras.m_lr (ds_model d) * (1 # 10))%Q
                  /\ Keras.m_layers_by_depth (ds_model d')
                     = Keras.m_layers_by_depth (ds_model d)
                  /\ ds_X d' = ds_X d /\ ds_y_bin d' = ds_y_bin d
                  /\ ds_n_epochs d' = ds_n_epochs d) ds ds'
    /\ (do_validation cfg = false ->
        w' = fold_left
               (fun w0 d =>
                  keras_fit B (frozen i3 i2 h)
                    (Keras.set_lr (Keras.m_lr (ds_model d) * (1 # 10))%Q
                                  (ds_model d))
                    (ds_X d) (ds_y_bin d) None false 30 w0) ds w).
Proof.
  intros Hall. induction Hall as [|d ds Hd Hall IH]; intros h w.
  - exists [], w. simpl. repeat split. constructor.
  - destruct Hd as [H3 H2]. simpl. unfold fine_tune_model.
    assert (E3 : Keras.layer_at_depth
                   (Keras.set_lr (Keras.m_lr (ds_model d) * (1 # 10))%Q
                                 (ds_model d)) 3 = Ok i3) by exact H3.
    assert (E2 : Keras.layer_at_depth
                   (Keras.set_lr (Keras.m_lr (ds_model d) * (1 # 10))%Q
                                 (ds_model d)) 2 = Ok i2) by exact H2.
    rewrite E3. simpl. rewrite E2. simpl.
    fold (frozen i3 i2 h).
    match goal with
    | |- context [fine_tune_stage cfg ds (frozen i3 i2 h) ?w1] =>
        destruct (IH (frozen i3 i2 h) w1) as (ds' & w' & Heq & Hf2 & Hw)
    end.
    rewrite Heq. simpl.
    eexists (_ :: ds'), w'. split; [|split].
    + f_equal. f_equal. f_equal.
      destruct ds; [reflexivity|apply frozen_idempotent].
    + constructor; [|assumption]. simpl. repeat split; reflexivity.
    + intros Hv. specialize (Hw Hv). rewrite Hw, Hv. simpl.
      destruct ds as [|d2 ds2]; [reflexivity|].
      now rewrite frozen_idempotent.
Qed.

End FineTune.

Lemma build_stacked_extends (trunk sups : list nat) (total : nat)
    (h h' : Keras.Heap) (m : Keras.Model) :
  Keras.build_stacked trunk sups total h = Ok (h', m) ->
  exists ext, h' = h ++ ext.
Proof.
  unfold Keras.build_stacked.
  destruct sups as [|s1 [|s2 sups]]; intros H; inversion H; subst;
    eexists; try reflexivity.
  rewrite <- app_assoc. reflexivity.
Qed.

Lemma make_factored_model_spec (nf : nat) (cl : list (list Z))
    (latent : nat) (drop : Q) (h : Keras.Heap) (models : list Keras.Model)
    (stacked : Keras.Model) :
  Keras.make_factored_model nf cl latent drop = Ok (h, models, stacked) ->
  length models = length cl
  /\ Forall (fun m => Keras.m_lr m = Keras.adam_lr
                      /\ Keras.m_stop_training m = false) models
  /\ nth_error h 0 = Some (Keras.new_layer Keras.InputLayer nf None)
  /\ nth_error h 1 = Some (Keras.new_layer Keras.Encoded latent None)
  /\ if Qlt_le_dec 0 drop
     then nth_error h 2
          = Some (Keras.new_layer Keras.DropoutLayer latent (Some drop))
          /\ Forall (fun m => Keras.layer_at_depth m 3 = Ok 1%nat
                              /\ Keras.layer_at_depth m 2 = Ok 2%nat) models
     else Forall (fun m => Keras.layer_at_depth m 3 = Ok 0%nat
                           /\ Keras.layer_at_depth m 2 = Ok 1%nat) models.
Proof.
  unfold Keras.make_factored_model.
  destruct (Qlt_le_dec 0 drop) as [Hpos|Hle].
  - destruct (Keras.build_heads _ _ _ _) as [[h2 models2] sups] eqn:Hb.
    destruct (Keras.build_stacked _ _ _ _) as [[h3 st]|e] eqn:Hs;
      simpl; [|discriminate].
    intros H; inversion H; subst.
    apply build_stacked_extends in Hs. destruct Hs as (ext' & ->).
    apply build_heads_spec in Hb.
    destruct Hb as ((ext & ->) & Hlen & Hall).
    repeat split; try assumption; try reflexivity.
    + eapply Forall_impl; [|exact Hall]. intros m [Hlr _]. exact Hlr.
    + eapply Forall_impl; [|exact Hall].
      intros m (_ & sup & act & Hm).
      split.
      * exact (chain_depths_lookup [0; 1; 2]%nat sup act m 1 Hm).
      * exact (chain_depths_lookup [0; 1; 2]%nat sup act m 0 Hm).
  - destruct (Keras.build_heads _ _ _ _) as [[h2 models2] sups] eqn:Hb.
    destruct (Keras.build_stacked _ _ _ _) as [[h3 st]|e] eqn:Hs;
      simpl; [|discriminate].
    intros H; inversion H; subst.
    apply build_stacked_extends in Hs. destruct Hs as (ext' & ->).
    apply build_heads_spec in Hb.
    destruct Hb as ((ext & ->) & Hlen & Hall).
    repeat split; try assumption; try reflexivity.
    + eapply Forall_impl; [|exact Hall]. intros m [Hlr _]. exact Hlr.
    + eapply Forall_impl; [|exact Hall].
      intros m (_ & sup & act & Hm).
      split.
      * exact (chain_depths_lookup [0; 1]%nat sup act m 1 Hm).
      * exact (chain_depths_lookup [0; 1]%nat sup act m 0 Hm).
Qed.

(** The stage on a graph built without dropout: there is no dropout
    layer, so the layer at depth 3 of every model is the input layer and
    the layer at depth 2 is the encoder; the stage marks the input layer
    non-trainable and gives the encoder a [rate] attribute, and the
    shared encoder stays trainable. *)
Lemma stage_without_dropout_freezes_input_layer :
  forall (B : Backend) (cfg : LoopConfig) (nf : nat) (cl : list (list Z))
         (latent : nat) (drop : Q) (h : Keras.Heap)
         (models : list Keras.Model) (stacked : Keras.Model)
         (ds : list (DatasetState B)) (w : Wt B),
    ~ (0 < drop)%Q ->
    Keras.make_factored_model nf cl latent drop = Ok (h, models, stacked) ->
    map (@ds_model B) ds = models ->
    ds <> [] ->
    exists ds' h' w',
      fine_tune_stage cfg ds h w = Ok (ds', h', w')
      /\ nth_error h' 1
         = Some {| Keras.l_role := Keras.Encoded; Keras.l_units := latent;
                   Keras.l_trainable := true; Keras.l_rate := Some 0%Q |}
      /\ nth_error h' 0
         = Some {| Keras.l_role := Keras.InputLayer; Keras.l_units := nf;
                   Keras.l_trainable := false; Keras.l_rate := None |}.
Proof.
  intros B cfg nf cl latent drop h models stacked ds w Hdrop Hmk Hmap Hne.
  apply make_factored_model_spec in Hmk.
  destruct Hmk as (_ & _ & H0 & H1 & Hdepth).
  destruct (Qlt_le_dec 0 drop) as [Hpos|_]; [contradiction|].
  assert (Hds : Forall (fun d => Keras.layer_at_depth (ds_model d) 3 = Ok 0%nat
                        /\ Keras.layer_at_depth (ds_model d) 2 = Ok 1%nat) ds).
  { subst models. rewrite Forall_map in Hdepth. exact Hdepth. }
  destruct (fine_tune_stage_spec cfg Hds h w) as (ds' & w' & Heq & _ & _).
  destruct ds as [|d ds0]; [contradiction|].
  exists ds', (frozen 0 1 h), w'. split; [exact Heq|].
  unfold frozen. rewrite !nth_error_update. cbn [Nat.eqb].
  rewrite H0, H1. split; reflexivity.
Qed.

(** With a positive dropout rate the stage does what it is meant to do:
    the shared encoder is marked non-trainable, the dropout rate is set
    to zero, every model's learning rate is a tenth of its previous
    value, and without validation data every model is refit for 30
    epochs. *)
Lemma fine_tune_with_dropout_freezes_encoder :
  forall (B : Backend) (cfg : LoopConfig) (nf : nat) (cl : list (list Z))
         (latent : nat) (drop : Q) (h : Keras.Heap)
         (models : list Keras.Model) (stacked : Keras.Model)
         (ds : list (DatasetState B)) (w : Wt B),
    (0 < drop)%Q ->
    Keras.make_factored_model nf cl latent drop = Ok (h, models, stacked) ->
    map (@ds_model B) ds = models ->
    ds <> [] ->
    exists ds' h' w',
      fine_tune_stage cfg ds h w = Ok (ds', h', w')
      /\ nth_error h' 1
         = Some {| Keras.l_role := Keras.Encoded; Keras.l_units := latent;
                   Keras.l_trainable := false; Keras.l_rate := None |}
      /\ nth_error h' 2
         = Some {| Keras.l_role := Keras.DropoutLayer;
                   Keras.l_units := latent;
                   Keras.l_trainable := true; Keras.l_rate := Some 0%Q |}
      /\ Forall2 (fun d d' =>
                    Keras.m_lr (ds_model d')
                    = (Keras.m_lr (ds_model d) * (1 # 10))%Q) ds ds'
      /\ (do_validation cfg = false ->
          w' = fold_left
                 (fun w0 d =>
                    keras_fit B h'
                      (Keras.set_lr (Keras.m_lr (ds_model d) * (1 # 10))%Q
                                    (ds_model d))
                      (ds_X d) (ds_y_bin d) None false 30 w0) ds w).
Proof.
  intros B cfg nf cl latent drop h models stacked ds w Hdrop Hmk Hmap Hne.
  apply make_factored_model_spec in Hmk.
  destruct Hmk as (_ & _ & H0 & H1 & Hdepth).
  destruct (Qlt_le_dec 0 drop) as [_|Hle];
    [|exfalso; eapply Qlt_not_le; eassumption].
  destruct Hdepth as [H2 Hdepth].
  assert (Hds : Forall (fun d => Keras.layer_at_depth (ds_model d) 3 = Ok 1%nat
                        /\ Keras.layer_at_depth (ds_model d) 2 = Ok 2%nat) ds).
  { subst models. rewrite Forall_map in Hdepth. exact Hdepth. }
  destruct (fine_tune_stage_spec cfg Hds h w) as (ds' & w' & Heq & Hf2 & Hw).
  destruct ds as [|d ds0]; [contradiction|].
  exists ds', (frozen 1 2 h), w'. split; [exact Heq|].
  unfold frozen at 1 2. rewrite !nth_error_update. cbn [Nat.eqb].
  rewrite H1, H2. repeat split; try reflexivity.
  - eapply Forall2_impl; [|exact Hf2]. intros a b' (Hlr & _). exact Hlr.
  - exact Hw.
Qed.

(** ** The training loop *)

Lemma reorder_identity {A : Type} (pre a : list A) :
  flat_map (fun p => match nth_error (pre ++ a) p with
                     | Some x => [x]
                     | None => []
                     end) (seq (length pre) (length a)) = a.
Proof.
  revert pre; induction a as [|x a IH]; intros pre; [reflexivity|].
  simpl. rewrite nth_error_app2, Nat.sub_diag by lia. simpl. f_equal.
  specialize (IH (pre ++ [x])).
  rewrite <- app_assoc, length_app in IH. simpl in IH.
  rewrite Nat.add_1_r in IH. exact IH.
Qed.

Lemma reorder_permutation {A : Type} (perm : list nat) (a : list A) :
  Permutation perm (seq 0 (length a)) -> Permutation (reorder perm a) a.
Proof.
  intros Hp. unfold reorder.
  etransitivity; [apply Permutation_flat_map, Hp|].
  pose proof (reorder_identity [] a) as Hid. simpl in Hid.
  rewrite Hid. reflexivity.
Qed.

Lemma reorder_length {A : Type} (perm : list nat) (a : list A) :
  Permutation perm (seq 0 (length a)) ->
  length (reorder perm a) = length a.
Proof.
  intros Hp. apply Permutation_length. now apply reorder_permutation.
Qed.

Lemma Forall2_map_left {A A' C : Type} (f : A -> A') (R : A' -> C -> Prop)
    (l : list A) (l' : list C) :
  Forall2 R (map f l) l' -> Forall2 (fun a c => R (f a) c) l l'.
Proof.
  revert l'; induction l as [|a l IH]; intros l' H; simpl in H;
    inversion H; subst; constructor; auto.
Qed.

Section Loop.

Variable B : Backend.
Variable cfg : LoopConfig.

Lemma epoch_end_fields (d : DatasetState B) (rng : G B) (w : Wt B) :
  let d1 := fst (epoch_end cfg d rng w) in
  ds_n_epochs d1 = ds_n_epochs d + 1
  /\ ds_X d1 = reorder (fst (permutation B rng (length (ds_X d)))) (ds_X d)
  /\ ds_batches d1 = Sk.gen_batches (length (ds_X d1)) (cfg_batch_size cfg)
  /\ Keras.m_layers_by_depth (ds_model d1)
     = Keras.m_layers_by_depth (ds_model d)
  /\ Keras.m_lr (ds_model d1) = Keras.m_lr (ds_model d)
  /\ (stop_flag d1 = true ->
      stop_flag d = true
      \/ (do_validation cfg = true /\ cfg_early_stop cfg = true)).
Proof.
  unfold epoch_end, stop_flag.
  destruct (permutation B rng (length (ds_X d))) as [perm rng1]. simpl.
  destruct (ds_val d) as [[Xv yv]|].
  - destruct (do_validation cfg) eqn:Hv, (cfg_early_stop cfg) eqn:He; simpl;
      try (repeat split; auto; fail).
    destruct (es_epoch_end B _ _ _) as [es1 [|]]; simpl;
      repeat split; auto.
  - simpl. repeat split; auto.
Qed.

Lemma model_step_stepped (d d' : DatasetState B) (rng rng' : G B)
    (w w' : Wt B) :
  model_step cfg d rng w = Ok (d', rng', w') -> stepped cfg d d'.
Proof.
  unfold model_step, stepped, next_batch.
  destruct (ds_batches d) as [[|b rest]|] eqn:Hb; simpl.
  - destruct (epoch_end cfg d rng w) as [d1 rng1] eqn:He.
    destruct (ds_batches d1) as [[|b1 rest1]|] eqn:Hb1; simpl;
      try discriminate.
    intros H; inversion H; subst. right. split; [reflexivity|].
    exists rng, w, b1, rest1. rewrite He. simpl. auto.
  - intros H; inversion H; subst. left. eauto.
  - discriminate.
Qed.

Lemma for_models_spec (todo : list (DatasetState B)) :
  forall (done : list (DatasetState B)) (rng : G B) (w : Wt B)
         (stop : bool) (st' : LoopState B),
    for_models cfg done todo rng w stop = Ok st' ->
    exists todo',
      ls_datasets st' = done ++ todo'
      /\ Forall2 (stepped cfg) todo todo'
      /\ ls_stop_training st'
         = match todo with
           | [] => stop
           | _ => if do_validation cfg && cfg_early_stop cfg
                  then all_stop (ls_datasets st') else stop
           end.
Proof.
  induction todo as [|d todo IH]; intros done rng w stop st' H; simpl in H.
  - inversion H; subst. exists []. simpl. rewrite app_nil_r.
    repeat split. constructor.
  - destruct (model_step cfg d rng w) as [[[d1 rng1] w1]|e] eqn:Hs;
      simpl in H; [|discriminate].
    apply model_step_stepped in Hs.
    apply IH in H. destruct H as (todo' & Hds & Hf2 & Hstop).
    exists (d1 :: todo'). rewrite <- app_assoc in Hds. simpl in Hds.
    split; [exact Hds|]. split; [constructor; assumption|].
    rewrite Hstop. destruct todo as [|d2 todo2].
    + inversion Hf2; subst. rewrite Hds.
      destruct (do_validation cfg && cfg_early_stop cfg); reflexivity.
    + destruct (do_validation cfg && cfg_early_stop cfg); reflexivity.
Qed.

(** One pass: every dataset is reset and stepped, and the loop's flag is
    recomputed from the models' flags when early stopping is active. *)
Lemma tick_spec (st st' : LoopState B) :
  tick cfg st = Ok st' ->
  Forall2 (fun d d' => stepped cfg (reset_flag cfg (ls_stop_training st) d) d')
          (ls_datasets st) (ls_datasets st')
  /\ ls_stop_training st'
     = match ls_datasets st with
       | [] => ls_stop_training st
       | _ => if do_validation cfg && cfg_early_stop cfg
              then all_stop (ls_datasets st') else ls_stop_training st
       end.
Proof.
  unfold tick. intros H. apply for_models_spec in H.
  destruct H as (todo' & Hds & Hf2 & Hstop). simpl in Hds. subst todo'.
  split.
  - unfold reset_flag. destruct (do_validation cfg).
    + now apply Forall2_map_left.
    + exact Hf2.
  - rewrite Hstop. destruct (do_validation cfg); simpl;
      destruct (ls_datasets st); reflexivity.
Qed.

Lemma stepped_epochs (d d' : DatasetState B) :
  stepped cfg d d' ->
  ds_n_epochs d <= ds_n_epochs d' <= ds_n_epochs d + 1.
Proof.
  intros [(b & rest & Hb & ->)|(Hb & rng & w & b & rest & Hb1 & ->)]; simpl.
  - lia.
  - destruct (epoch_end_fields d rng w) as (Hn & _). rewrite Hn. lia.
Qed.

Lemma stepped_graph (d d' : DatasetState B) :
  stepped cfg d d' ->
  Keras.m_layers_by_depth (ds_model d') = Keras.m_layers_by_depth (ds_model d)
  /\ Keras.m_lr (ds_model d') = Keras.m_lr (ds_model d).
Proof.
  intros [(b & rest & Hb & ->)|(Hb & rng & w & b & rest & Hb1 & ->)]; simpl.
  - auto.
  - destruct (epoch_end_fields d rng w) as (_ & _ & _ & Hl & Hlr & _). auto.
Qed.

(** A model's flag can only be raised at an epoch end, by the tracker. *)
Lemma stepped_flag (d d' : DatasetState B) :
  stepped cfg d d' ->
  stop_flag d = false -> stop_flag d' = true ->
  ds_batches d = Some [] /\ ds_n_epochs d' = ds_n_epochs d + 1
  /\ do_validation cfg = true /\ cfg_early_stop cfg = true.
Proof.
  intros [(b & rest & Hb & ->)|(Hb & rng & w & b & rest & Hb1 & ->)];
    unfold stop_flag; simpl; intros Hf Ht.
  - congruence.
  - destruct (epoch_end_fields d rng w) as (Hn & _ & _ & _ & _ & Hflag).
    destruct (Hflag Ht) as [Hold|[Hv He]];
      [unfold stop_flag in Hold; congruence|]. auto.
Qed.

Lemma reset_flag_steps_left (stop : bool) (d : DatasetState B) :
  steps_left cfg (reset_flag cfg stop d) = steps_left cfg d.
Proof. unfold reset_flag. destruct (do_validation cfg); reflexivity. Qed.

Lemma reset_flag_fields (stop : bool) (d : DatasetState B) :
  ds_n_epochs (reset_flag cfg stop d) = ds_n_epochs d
  /\ ds_batches (reset_flag cfg stop d) = ds_batches d
  /\ Keras.m_layers_by_depth (ds_model (reset_flag cfg stop d))
     = Keras.m_layers_by_depth (ds_model d)
  /\ Keras.m_lr (ds_model (reset_flag cfg stop d)) = Keras.m_lr (ds_model d)
  /\ (do_validation cfg = true -> stop_flag (reset_flag cfg stop d) = stop).
Proof.
  unfold reset_flag, stop_flag.
  destruct (do_validation cfg); simpl; repeat split; auto; discriminate.
Qed.

Section Termination.

Hypothesis Hperm : valid_permutations B.

(** Every pass brings every dataset one step closer to [max_iter]
    epochs. *)
Lemma stepped_steps_left (d d' : DatasetState B) :
  stepped cfg d d' -> steps_left cfg d' = steps_left cfg d - 1.
Proof.
  intros [(b & rest & Hb & ->)|(Hb & rng & w & b & rest & Hb1 & ->)];
    unfold steps_left, batches_per_epoch; simpl.
  - rewrite Hb. simpl length. lia.
  - destruct (epoch_end_fields d rng w) as (Hn & HX & Hbt & _).
    rewrite Hn, Hb. rewrite Hb1 in Hbt.
    assert (Hlen : length (ds_X (fst (epoch_end cfg d rng w)))
                   = length (ds_X d)).
    { rewrite HX. apply reorder_length. apply Hperm. }
    rewrite Hlen in *. rewrite <- Hbt. simpl length. lia.
Qed.

Lemma loop_bound_decreases (ds ds' : list (DatasetState B)) :
  Forall2 (fun d d' => steps_left cfg d' = steps_left cfg d - 1) ds ds' ->
  (fold_right (fun d m => Nat.max (Z.to_nat (steps_left cfg d)) m) O ds'
   <= fold_right (fun d m => Nat.max (Z.to_nat (steps_left cfg d)) m) O ds
      - 1)%nat.
Proof.
  induction 1 as [|d d' ds ds' Hd Hf2 IH]; simpl; [lia|].
  rewrite Hd. lia.
Qed.

Lemma fold_min_le (l : list (DatasetState B)) (a : Z) :
  fold_left (fun m d => Z.min m (ds_n_epochs d)) l a <= a
  /\ Forall (fun d =>
               fold_left (fun m d' => Z.min m (ds_n_epochs d')) l a
               <= ds_n_epochs d) l.
Proof.
  revert a; induction l as [|d l IH]; intros a; simpl.
  - split; [lia|constructor].
  - destruct (IH (Z.min a (ds_n_epochs d))) as [Hle Hall].
    split; [lia|]. constructor; [lia|exact Hall].
Qed.

Lemma fold_min_attained (l : list (DatasetState B)) (a : Z) :
  fold_left (fun m d => Z.min m (ds_n_epochs d)) l a = a
  \/ exists d, In d l
       /\ fold_left (fun m d' => Z.min m (ds_n_epochs d')) l a
          = ds_n_epochs d.
Proof.
  revert a; induction l as [|d l IH]; intros a; simpl; [now left|].
  destruct (IH (Z.min a (ds_n_epochs d))) as [Heq|(d0 & Hin & Heq)].
  - rewrite Heq. destruct (Z.min_spec a (ds_n_epochs d)) as [[_ ->]|[_ ->]];
      [now left|right; exists d; auto].
  - right. exists d0. auto.
Qed.

Lemma guard_true_behind (st : LoopState B) :
  loop_guard cfg st = Ok true ->
  ls_stop_training st = false
  /\ exists d, In d (ls_datasets st) /\ ds_n_epochs d < cfg_max_iter cfg.
Proof.
  unfold loop_guard, min_epochs.
  destruct (ls_stop_training st); [discriminate|].
  destruct (ls_datasets st) as [|d l]; simpl; [discriminate|].
  intros H; inversion H as [Hlt]. apply Z.ltb_lt in Hlt.
  split; [reflexivity|].
  destruct (fold_min_attained l (ds_n_epochs d)) as [Heq|(d0 & Hin & Heq)].
  - exists d. split; [now left|lia].
  - exists d0. split; [now right|lia].
Qed.

Lemma loop_bound_ge (st : LoopState B) (d : DatasetState B) :
  In d (ls_datasets st) ->
  (Z.to_nat (steps_left cfg d) <= loop_bound cfg st)%nat.
Proof.
  unfold loop_bound. induction (ls_datasets st) as [|d0 l IH]; simpl;
    [contradiction|].
  intros [->|Hin]; [lia|]. specialize (IH Hin). lia.
Qed.

Lemma steps_left_nonneg (d : DatasetState B) :
  ds_n_epochs d <= cfg_max_iter cfg -> 0 <= steps_left cfg d.
Proof.
  intros H. unfold steps_left. destruct (ds_batches d); nia.
Qed.

Lemma tick_decreases (st st' : LoopState B) :
  loop_guard cfg st = Ok true -> tick cfg st = Ok st' ->
  (loop_bound cfg st' < loop_bound cfg st)%nat.
Proof.
  intros Hg Ht. apply tick_spec in Ht. destruct Ht as [Hf2 _].
  assert (Hdec : Forall2 (fun d d' => steps_left cfg d'
                                      = steps_left cfg d - 1
                                      /\ ds_n_epochs d' <= ds_n_epochs d + 1)
                         (ls_datasets st) (ls_datasets st')).
  { eapply Forall2_impl; [|exact Hf2]. intros d d' Hs. split.
    - rewrite (stepped_steps_left Hs). now rewrite reset_flag_steps_left.
    - apply stepped_epochs in Hs.
      destruct (reset_flag_fields (ls_stop_training st) d) as (Hn & _).
      rewrite Hn in Hs. lia. }
  apply guard_true_behind in Hg. destruct Hg as (_ & d & Hin & Hlt).
  assert (Hpos : (1 <= loop_bound cfg st)%nat).
  { pose proof (loop_bound_ge st d Hin) as Hge.
    assert (Hex : exists d' : DatasetState B,
                    steps_left cfg d' = steps_left cfg d - 1
                             /\ ds_n_epochs d' <= ds_n_epochs d + 1).
    { clear Hge Hf2. induction Hdec as [|a a' l l' Ha Hl IH];
        [contradiction|].
      destruct Hin as [->|Hin]; [eauto|auto]. }
    destruct Hex as (d' & Hsl & Hne).
    assert (0 <= steps_left cfg d') by (apply steps_left_nonneg; lia).
    lia. }
  assert (Hle : (loop_bound cfg st' <= loop_bound cfg st - 1)%nat).
  { unfold loop_bound. apply loop_bound_decreases.
    eapply Forall2_impl; [|exact Hdec]. intros a b' [H _]. exact H. }
  lia.
Qed.

(** The loop ends: [loop_bound] passes are enough. *)
Lemma training_loop_terminates (fuel : nat) :
  forall st : LoopState B,
    (loop_bound cfg st < fuel)%nat ->
    exists r, training_loop cfg fuel st = Some r.
Proof.
  induction fuel as [|fuel IH]; intros st Hb; [lia|].
  simpl. destruct (loop_guard cfg st) as [[|]|e] eqn:Hg; eauto.
  destruct (tick cfg st) as [st'|e] eqn:Ht; eauto.
  apply IH. pose proof (tick_decreases _ Hg Ht). lia.
Qed.

End Termination.

Lemma all_stop_Forall (ds : list (DatasetState B)) :
  all_stop ds = true <-> Forall (fun d => stop_flag d = true) ds.
Proof.
  unfold all_stop, stop_flag. rewrite forallb_forall, Forall_forall.
  reflexivity.
Qed.

Lemma tick_preserves_invariant (st st' : LoopState B) :
  loop_invariant cfg st -> tick cfg st = Ok st' -> loop_invariant cfg st'.
Proof.
  intros [Hne Hstop] Ht. apply tick_spec in Ht. destruct Ht as [Hf2 Hs].
  split.
  - intros Hnil. rewrite Hnil in Hf2. inversion Hf2 as [Hds|].
    symmetry in Hds. contradiction.
  - rewrite Hs. destruct (ls_datasets st) as [|d l]; [contradiction|].
    destruct (do_validation cfg && cfg_early_stop cfg) eqn:E;
      [reflexivity|].
    rewrite Hstop. rewrite ?E. reflexivity.
Qed.

Lemma loop_prefix_invariant (n : nat) :
  forall st0 st : LoopState B,
    loop_invariant cfg st0 -> loop_prefix cfg n st0 = Some st ->
    loop_invariant cfg st.
Proof.
  induction n as [|n IH]; intros st0 st Hinv H; simpl in H.
  - inversion H; subst. exact Hinv.
  - destruct (loop_guard cfg st0) as [[|]|e]; try discriminate.
    destruct (tick cfg st0) as [st1|e] eqn:Ht; [|discriminate].
    eapply IH; [|exact H]. eapply tick_preserves_invariant; eassumption.
Qed.

(** At the end of a pass the loop stops exactly under [exit_condition]. *)
Lemma guard_false_iff (st : LoopState B) :
  loop_invariant cfg st ->
  (loop_guard cfg st = Ok false <-> exit_condition cfg st).
Proof.
  intros [Hne Hstop]. unfold loop_guard, exit_condition, min_epochs.
  destruct (ls_datasets st) as [|d l] eqn:Hds; [contradiction|].
  destruct (fold_min_le l (ds_n_epochs d)) as [Hle Hall].
  destruct (fold_min_attained l (ds_n_epochs d)) as [Heq|(d0 & Hin & Heq)].
  - split.
    + destruct (ls_stop_training st) eqn:Hs.
      * intros _. right. symmetry in Hstop.
        apply andb_prop in Hstop. destruct Hstop as [Hve Hall'].
        apply andb_prop in Hve. destruct Hve as [Hv He].
        repeat split; auto. now apply all_stop_Forall.
      * simpl. intros H; inversion H as [Hlt]. apply Z.ltb_ge in Hlt.
        left. constructor; [lia|].
        eapply Forall_impl; [|exact Hall]. simpl. intros a Ha. lia.
    + intros [Hmax|(Hv & He & Hfl)].
      * destruct (ls_stop_training st); [reflexivity|]. simpl.
        inversion Hmax; subst.
        assert (Hge : (fold_left (fun m d' => Z.min m (ds_n_epochs d')) l
                                 (ds_n_epochs d) <? cfg_max_iter cfg) = false)
          by (apply Z.ltb_ge; lia).
        now rewrite Hge.
      * apply all_stop_Forall in Hfl. rewrite Hv, He, Hfl in Hstop.
        simpl in Hstop. now rewrite Hstop.
  - split.
    + destruct (ls_stop_training st) eqn:Hs.
      * intros _. right. symmetry in Hstop.
        apply andb_prop in Hstop. destruct Hstop as [Hve Hall'].
        apply andb_prop in Hve. destruct Hve as [Hv He].
        repeat split; auto. now apply all_stop_Forall.
      * simpl. intros H; inversion H as [Hlt]. apply Z.ltb_ge in Hlt.
        left. constructor; [lia|].
        eapply Forall_impl; [|exact Hall]. simpl. intros a Ha. lia.
    + intros [Hmax|(Hv & He & Hfl)].
      * destruct (ls_stop_training st); [reflexivity|]. simpl.
        inversion Hmax as [|? ? Hd Hl]; subst.
        rewrite Forall_forall in Hl. specialize (Hl d0 Hin).
        assert (Hge : (fold_left (fun m d' => Z.min m (ds_n_epochs d')) l
                                 (ds_n_epochs d) <? cfg_max_iter cfg) = false)
          by (apply Z.ltb_ge; lia).
        now rewrite Hge.
      * apply all_stop_Forall in Hfl. rewrite Hv, He, Hfl in Hstop.
        simpl in Hstop. now rewrite Hstop.
Qed.

Lemma training_loop_prefix (fuel : nat) :
  forall st0 st : LoopState B,
    training_loop cfg fuel st0 = Some (Ok st) ->
    loop_guard cfg st = Ok false
    /\ exists n, loop_prefix cfg n st0 = Some st.
Proof.
  induction fuel as [|fuel IH]; intros st0 st H; simpl in H.
  - destruct (loop_guard cfg st0) as [[|]|e] eqn:Hg; try discriminate.
    inversion H; subst. split; [assumption|exists O; reflexivity].
  - destruct (loop_guard cfg st0) as [[|]|e] eqn:Hg; try discriminate.
    + destruct (tick cfg st0) as [st1|e] eqn:Ht; [|discriminate].
      apply IH in H. destruct H as [Hgf [n Hn]].
      split; [assumption|]. exists (S n). simpl. now rewrite Hg, Ht.
    + inversion H; subst. split; [assumption|exists O; reflexivity].
Qed.

(** The flags found at the end of a pass were all raised during that
    pass, each at an epoch end of its dataset. *)
Lemma tick_flags_are_fresh (st st' : LoopState B) :
  loop_guard cfg st = Ok true -> tick cfg st = Ok st' ->
  do_validation cfg = true ->
  Forall2 (fun d d' =>
             stop_flag d' = true ->
             ds_batches d = Some []
             /\ ds_n_epochs d' = ds_n_epochs d + 1)
          (ls_datasets st) (ls_datasets st').
Proof.
  intros Hg Ht Hv. apply tick_spec in Ht. destruct Ht as [Hf2 _].
  unfold loop_guard in Hg.
  destruct (ls_stop_training st) eqn:Hs; [discriminate|].
  eapply Forall2_impl; [|exact Hf2]. intros d d' Hstep Hflag.
  destruct (reset_flag_fields false d) as (Hn & Hb & _ & _ & Hreset).
  destruct (stepped_flag Hstep (Hreset Hv) Hflag) as (Hb' & Hn' & _).
  rewrite Hb in Hb'. rewrite Hn in Hn'. auto.
Qed.

End Loop.

Lemma make_simple_model_spec (nf : nat) (cl : list (list Z)) (drop : Q)
    (h : Keras.Heap) (models : list Keras.Model) (stacked : Keras.Model) :
  Keras.make_simple_model nf cl drop = Ok (h, models, stacked) ->
  length models = length cl
  /\ Forall (fun m => Keras.m_lr m = Keras.adam_lr
                      /\ Keras.m_stop_training m = false) models.
Proof.
  unfold Keras.make_simple_model.
  destruct (Qlt_le_dec 0 drop) as [Hpos|Hle];
    destruct (Keras.build_heads _ _ _ _) as [[h2 models2] sups] eqn:Hb;
    (destruct (Keras.build_stacked _ _ _ _) as [[h3 st]|e] eqn:Hs;
       simpl; [|discriminate]);
    intros H; inversion H; subst; apply build_heads_spec in Hb;
    destruct Hb as (_ & Hlen & Hall); (split; [assumption|]);
    (eapply Forall_impl; [|exact Hall]); intros m [Hm _]; exact Hm.
Qed.

(** ** What [prepare] hands to the loop *)

Section Prepare.

Variable B : Backend.

Lemma init_datasets_spec (cfg : LoopConfig) slots :
  forall rng : G B,
    map (@ds_model B) (fst (init_datasets B cfg slots rng)) = map fst slots.
Proof.
  induction slots as [|[model [this_X [this_y_bin val]]] rest IH];
    intros rng; simpl; [reflexivity|].
  destruct (permutation B rng (length this_X)) as [perm rng1].
  specialize (IH rng1).
  destruct (init_datasets B cfg rest rng1) as [ds rng2]. simpl in *.
  now rewrite IH.
Qed.

Lemma map_fst_combine {A C : Type} (l : list A) (l' : list C) :
  length l = length l' -> map fst (combine l l') = l.
Proof.
  revert l'; induction l as [|a l IH]; intros [|c l'] H; simpl in *;
    try reflexivity; try discriminate.
  f_equal. apply IH. lia.
Qed.

Lemma split_by_dataset_length {A : Type} (ks datasets : list Z)
    (a : list A) :
  length (split_by_dataset ks datasets a) = length ks.
Proof. unfold split_by_dataset. apply length_map. Qed.

Lemma unique_nonempty (l : list Z) : l <> [] -> Np.unique l <> [].
Proof.
  destruct l as [|x l]; [contradiction|]. intros _ Hnil.
  assert (Hin : In x (Np.unique (x :: l))) by (apply unique_In; now left).
  rewrite Hnil in Hin. contradiction.
Qed.

Lemma prepare_spec (self : FactoredLogistic B) (X : list Row) (y : list Z)
    (validation_data : option (list Row * list Z)) (p : Prepared B) :
  prepare self X y validation_data = Ok p ->
  pr_datasets_ p = Np.unique (map dataset_id X)
  /\ pr_datasets_ p <> []
  /\ length (pr_classes_list_ p) = length (pr_datasets_ p)
  /\ length (ls_datasets (pr_state p)) = length (pr_datasets_ p)
  /\ Forall (fun d => Keras.m_lr (ds_model d) = Keras.adam_lr
                      /\ stop_flag d = false) (ls_datasets (pr_state p))
  /\ ls_stop_training (pr_state p) = false
  /\ pr_fine_tune p = match latent_dim self with
                      | Some _ => fine_tune self
                      | None => false
                      end
  /\ cfg_max_iter (pr_cfg p) = max_iter self
  /\ cfg_early_stop (pr_cfg p) = early_stop self
  /\ do_validation (pr_cfg p)
     = match validation_data with Some _ => true | None => false end
  /\ exists nf,
       match latent_dim self with
       | Some k =>
           Keras.make_factored_model nf (pr_classes_list_ p) k (dropout self)
       | None =>
           Keras.make_simple_model nf (pr_classes_list_ p) (dropout self)
       end
       = Ok (cfg_layers (pr_cfg p),
             map (@ds_model B) (ls_datasets (pr_state p)),
             pr_stacked_model_ p).
Proof.
  unfold prepare. destruct (max_iter self <? 0); [discriminate|].
  destruct (check_X_y X y) as [[X1 y1]|e] eqn:Hc; simpl; [|discriminate].
  apply check_X_y_Ok in Hc. destruct Hc as (-> & -> & Hlen & Hne).
  destruct (check_random_state (random_state self)) as [rng|e];
    simpl; [|discriminate].
  set (datasets := map dataset_id X).
  set (datasets_ := Np.unique datasets).
  set (classes := map Np.unique
                      (split_by_dataset datasets_ datasets y)).
  set (val := match validation_data with
              | Some (X_val, y_val) => _
              | None => _
              end).
  destruct val as [val|e]; simpl; [|discriminate].
  destruct (for_each Sk.fit_transform_call
              (split_by_dataset datasets_ datasets y)) as [ybl|e] eqn:Hyb;
    simpl; [|discriminate].
  apply for_each_fit_transform_Ok in Hyb. destruct Hyb as [-> _].
  set (vl := match val with Some _ => _ | None => _ end).
  assert (Hvl : forall val_list,
             vl = Ok val_list -> length val_list = length datasets_).
  { intros val_list Heq. unfold vl in Heq. destruct val as [[[dv Xv] yv]|].
    - destruct (for_each Sk.fit_transform_call
                  (split_by_dataset datasets_ dv yv)) as [ybv|e] eqn:Hv;
        simpl in Heq; [|discriminate].
      apply for_each_fit_transform_Ok in Hv. destruct Hv as [-> _].
      inversion Heq; subst.
      rewrite length_map, length_combine, length_map,
        !split_by_dataset_length. lia.
    - inversion Heq. now rewrite length_map. }
  clearbody vl. destruct vl as [val_list|e]; simpl; [|discriminate].
  specialize (Hvl _ eq_refl).
  set (nf := length (hd [] (map features X))).
  set (mk := match latent_dim self with Some _ => _ | None => _ end).
  assert (Hmk : forall layers models stacked,
             mk = Ok (layers, models, stacked) ->
             length models = length datasets_
             /\ Forall (fun m => Keras.m_lr m = Keras.adam_lr
                                 /\ Keras.m_stop_training m = false) models).
  { intros layers models stacked Heq. unfold mk in Heq.
    assert (Hcl : length classes = length datasets_)
      by (unfold classes; now rewrite length_map, split_by_dataset_length).
    destruct (latent_dim self) as [k|].
    - apply make_factored_model_spec in Heq.
      destruct Heq as (Hl & Hall & _). split; [congruence|assumption].
    - apply make_simple_model_spec in Heq.
      destruct Heq as (Hl & Hall). split; [congruence|assumption]. }
  assert (Hmkeq :
            mk = match latent_dim self with
                 | Some k =>
                     Keras.make_factored_model nf classes k (dropout self)
                 | None => Keras.make_simple_model nf classes (dropout self)
                 end) by reflexivity.
  clearbody mk.
  destruct mk as [[[layers models] stacked]|e]; simpl; [|discriminate].
  destruct (Hmk _ _ _ eq_refl) as [Hml Hmall].
  match goal with
  | |- context [init_datasets B ?c ?s rng] =>
      pose proof (init_datasets_spec c s rng) as Hinit;
      destruct (init_datasets B c s rng) as [ds rng1]
  end.
  simpl in Hinit. intros H; inversion H; subst; clear H. simpl.
  assert (Hfst : map (@ds_model B) ds = models).
  { rewrite Hinit. apply map_fst_combine.
    rewrite !length_combine, !length_map, !split_by_dataset_length. lia. }
  assert (Hne' : datasets_ <> []).
  { apply unique_nonempty. unfold datasets.
    destruct X; [contradiction|discriminate]. }
  repeat split; try reflexivity; try assumption.
  - unfold classes. now rewrite length_map, split_by_dataset_length.
  - rewrite <- Hml, <- Hfst. now rewrite length_map.
  - rewrite <- Hfst in Hmall. rewrite Forall_map in Hmall. exact Hmall.
  - exists nf. rewrite Hfst. symmetry. exact Hmkeq.
Qed.

Lemma prepare_invariant (self : FactoredLogistic B) (X : list Row)
    (y : list Z) (validation_data : option (list Row * list Z))
    (p : Prepared B) :
  prepare self X y validation_data = Ok p ->
  loop_invariant (pr_cfg p) (pr_state p).
Proof.
  intros H. apply prepare_spec in H.
  destruct H as (_ & Hne & _ & Hlen & Hall & Hstop & _).
  split.
  - intros Hnil. rewrite Hnil in Hlen. simpl in Hlen.
    destruct (pr_datasets_ p); [contradiction|discriminate].
  - rewrite Hstop. destruct (ls_datasets (pr_state p)) as [|d l].
    + simpl in Hlen. destruct (pr_datasets_ p); [contradiction|discriminate].
    + inversion Hall as [|? ? [_ Hd] _]; subst. simpl.
      unfold stop_flag in Hd. rewrite Hd. simpl.
      now rewrite andb_false_r.
Qed.

End Prepare.

Section FitFacts.

Variable B : Backend.

Lemma fit_inv (fuel : nat) (self self' : FactoredLogistic B) (X : list Row)
    (y : list Z) (validation_data : option (list Row * list Z)) :
  fit fuel self X y validation_data = Some (Ok self') ->
  exists p st,
    prepare self X y validation_data = Ok p
    /\ training_loop (pr_cfg p) fuel (pr_state p) = Some (Ok st)
    /\ finish self p st = Ok self'.
Proof.
  unfold fit. destruct (prepare self X y validation_data) as [p|e];
    [|discriminate].
  destruct (training_loop (pr_cfg p) fuel (pr_state p)) as [[st|e]|]
    eqn:Hl; try discriminate.
  intros H. exists p, st. split; [reflexivity|]. split; [exact Hl|].
  now inversion H.
Qed.

Lemma fine_tune_stage_length (cfg : LoopConfig) (ds : list (DatasetState B)) :
  forall h w ds' h' w',
    fine_tune_stage cfg ds h w = Ok (ds', h', w') -> length ds' = length ds.
Proof.
  induction ds as [|d ds IH]; intros h w ds' h' w' H; simpl in H.
  - inversion H; reflexivity.
  - destruct (fine_tune_model cfg d h w) as [[[d1 h1] w1]|e];
      simpl in H; [|discriminate].
    destruct (fine_tune_stage cfg ds h1 w1) as [[[rest h2] w2]|e] eqn:Hr;
      simpl in H; [|discriminate].
    inversion H; subst. simpl. f_equal. eapply IH; eassumption.
Qed.

Lemma finish_inv (self self' : FactoredLogistic B) (p : Prepared B)
    (st : LoopState B) :
  finish self p st = Ok self' ->
  latent_dim self' = latent_dim self
  /\ fine_tune self' = pr_fine_tune p
  /\ max_iter self' = max_iter self
  /\ batch_size self' = batch_size self
  /\ dropout self' = dropout self
  /\ random_state self' = RS_Generator (ls_rng st)
  /\ early_stop self' = early_stop self
  /\ exists f,
       fitted self' = Some f
       /\ datasets_ f = pr_datasets_ p
       /\ classes_list_ f = pr_classes_list_ p
       /\ classes_ f = concat (pr_classes_list_ p)
       /\ stacked_model_ f = pr_stacked_model_ p
       /\ n_epochs_ f = map (@ds_n_epochs B) (ls_datasets st)
       /\ length (models_ f) = length (ls_datasets st)
       /\ (pr_fine_tune p = false ->
           models_ f = map (@ds_model B) (ls_datasets st)
           /\ layers_ f = cfg_layers (pr_cfg p)
           /\ weights_ f = ls_weights st)
       /\ (pr_fine_tune p = true ->
           exists ds,
             fine_tune_stage (pr_cfg p) (ls_datasets st)
                             (cfg_layers (pr_cfg p)) (ls_weights st)
             = Ok (ds, layers_ f, weights_ f)
             /\ models_ f = map (@ds_model B) ds).
Proof.
  unfold finish. destruct (pr_fine_tune p) eqn:Hft.
  - destruct (fine_tune_stage _ _ _ _) as [[[ds layers] w]|e] eqn:Hs;
      simpl; [|discriminate].
    intros H; inversion H; subst; clear H. simpl.
    repeat split; try reflexivity.
    eexists. repeat split; try reflexivity.
    + simpl. rewrite length_map. eapply fine_tune_stage_length; eassumption.
    + discriminate.
    + discriminate.
    + discriminate.
    + intros _. simpl. eauto.
  - simpl. intros H; inversion H; subst; clear H. simpl.
    repeat split; try reflexivity.
    eexists. repeat split; try reflexivity.
    + simpl. now rewrite length_map.
    + discriminate.
Qed.

Lemma loop_prefix_related (cfg : LoopConfig)
    (R : DatasetState B -> DatasetState B -> Prop) :
  (forall d, R d d) ->
  (forall d1 d2 d3, R d1 d2 -> R d2 d3 -> R d1 d3) ->
  (forall stop d d', stepped cfg (reset_flag cfg stop d) d' -> R d d') ->
  forall n st0 st,
    loop_prefix cfg n st0 = Some st ->
    Forall2 R (ls_datasets st0) (ls_datasets st).
Proof.
  intros Hrefl Htrans Hstep.
  assert (Hf2refl : forall l, Forall2 R l l)
    by (induction l; constructor; auto).
  assert (Hf2trans : forall l1 l2, Forall2 R l1 l2 ->
            forall l3, Forall2 R l2 l3 -> Forall2 R l1 l3).
  { induction 1; intros l3 H3; inversion H3; subst; constructor; eauto. }
  induction n as [|n IH]; intros st0 st H; simpl in H.
  - inversion H; subst. apply Hf2refl.
  - destruct (loop_guard cfg st0) as [[|]|e]; try discriminate.
    destruct (tick cfg st0) as [st1|e] eqn:Ht; [|discriminate].
    apply tick_spec in Ht. destruct Ht as [Hf2 _].
    eapply Hf2trans; [|apply IH; exact H].
    eapply Forall2_impl; [|exact Hf2]. intros d d'. apply Hstep.
Qed.

(** The loop changes neither the graph of a model nor its learning
    rate, and keeps one state per dataset. *)
Lemma training_loop_graph (cfg : LoopConfig) (fuel : nat)
    (st0 st : LoopState B) :
  training_loop cfg fuel st0 = Some (Ok st) ->
  Forall2 (fun d d' =>
             Keras.m_layers_by_depth (ds_model d')
             = Keras.m_layers_by_depth (ds_model d)
             /\ Keras.m_lr (ds_model d') = Keras.m_lr (ds_model d))
          (ls_datasets st0) (ls_datasets st).
Proof.
  intros H. apply training_loop_prefix in H. destruct H as [_ [n Hn]].
  eapply loop_prefix_related; [| | |exact Hn].
  - auto.
  - intros d1 d2 d3 [H1 H2] [H3 H4]. split; congruence.
  - intros stop d d' Hs. apply stepped_graph in Hs.
    destruct (reset_flag_fields cfg stop d) as (_ & _ & Hl & Hlr & _).
    destruct Hs as [H1 H2]. split; congruence.
Qed.

(** What every successful [fit] leaves behind. *)
Lemma fit_fitted (fuel : nat) (self self' : FactoredLogistic B)
    (X : list Row) (y : list Z)
    (validation_data : option (list Row * list Z)) :
  fit fuel self X y validation_data = Some (Ok self') ->
  exists f,
    fitted self' = Some f
    /\ datasets_ f = Np.unique (map dataset_id X)
    /\ datasets_ f <> []
    /\ length (models_ f) = length (datasets_ f)
    /\ length (classes_list_ f) = length (datasets_ f)
    /\ classes_ f = concat (classes_list_ f).
Proof.
  intros H. apply fit_inv in H. destruct H as (p & st & Hp & Hl & Hf).
  apply prepare_spec in Hp.
  destruct Hp as (Hd & Hne & Hcl & Hlen & _).
  apply training_loop_graph in Hl. apply Forall2_length in Hl.
  apply finish_inv in Hf.
  destruct Hf as (_ & _ & _ & _ & _ & _ & _ & f & Hfit & Hfd & Hfc & Hfcc
                  & _ & _ & Hfm & _).
  exists f. rewrite Hfd, Hfc, Hfcc, Hfm. repeat split; auto; congruence.
Qed.

End FitFacts.

(** ** The fine-tuning stage inside [fit] *)

Lemma layer_at_depth_ext (m m' : Keras.Model) (depth : nat) :
  Keras.m_layers_by_depth m' = Keras.m_layers_by_depth m ->
  Keras.layer_at_depth m' depth = Keras.layer_at_depth m depth.
Proof. unfold Keras.layer_at_depth. now intros ->. Qed.

(** The models the loop hands to the fine-tuning stage have the layers
    the constructor gave them at depths 2 and 3. *)
Lemma fit_models_depths (B : Backend) (fuel : nat)
    (self : FactoredLogistic B) (X : list Row) (y : list Z)
    (validation_data : option (list Row * list Z)) (p : Prepared B)
    (st : LoopState B) (i3 i2 : nat) :
  prepare self X y validation_data = Ok p ->
  training_loop (pr_cfg p) fuel (pr_state p) = Some (Ok st) ->
  Forall (fun m => Keras.layer_at_depth m 3 = Ok i3
                   /\ Keras.layer_at_depth m 2 = Ok i2)
         (map (@ds_model B) (ls_datasets (pr_state p))) ->
  Forall (fun d => Keras.layer_at_depth (ds_model d) 3 = Ok i3
                   /\ Keras.layer_at_depth (ds_model d) 2 = Ok i2)
         (ls_datasets st).
Proof.
  intros _ Hl Hall. apply training_loop_graph in Hl.
  rewrite Forall_map in Hall.
  induction Hl as [|d d' l l' [Hd _] Hf2 IH]; [constructor|].
  inversion Hall as [|? ? [H3 H2] Hall']; subst.
  constructor; [|auto].
  rewrite !(layer_at_depth_ext _ _ _ Hd). auto.
Qed.

(** C8.  A factored estimator built without dropout (the default,
    [dropout = 0]) and with fine-tuning on: after [fit] the shared
    encoder layer is still trainable.  Without a dropout layer the layer
    at depth 3 of every model is the input layer, which is the one
    marked non-trainable, and the layer at depth 2, which receives
    [rate = 0], is the encoder. *)
Theorem fit_without_dropout_leaves_encoder_trainable :
  forall (B : Backend) (fuel : nat) (self self' : FactoredLogistic B)
         (X : list Row) (y : list Z)
         (validation_data : option (list Row * list Z)) (k : nat),
    latent_dim self = Some k ->
    fine_tune self = true ->
    ~ (0 < dropout self)%Q ->
    fit fuel self X y validation_data = Some (Ok self') ->
    exists f nf,
      fitted self' = Some f
      /\ nth_error (layers_ f) 1
         = Some {| Keras.l_role := Keras.Encoded; Keras.l_units := k;
                   Keras.l_trainable := true; Keras.l_rate := Some 0%Q |}
      /\ nth_error (layers_ f) 0
         = Some {| Keras.l_role := Keras.InputLayer; Keras.l_units := nf;
                   Keras.l_trainable := false; Keras.l_rate := None |}.
Proof.
  intros B fuel self self' X y vd k Hk Hft Hdrop Hfit.
  apply fit_inv in Hfit. destruct Hfit as (p & st & Hp & Hl & Hf).
  pose proof (prepare_spec _ _ _ _ Hp) as Hspec.
  destruct Hspec as (_ & Hne & _ & Hlen & _ & _ & Hpft & _ & _ & _ & nf & Hmk).
  rewrite Hk in Hmk, Hpft. rewrite Hft in Hpft.
  apply make_factored_model_spec in Hmk.
  destruct Hmk as (_ & _ & H0 & H1 & Hdepth).
  destruct (Qlt_le_dec 0 (dropout self)) as [Hpos|_]; [contradiction|].
  pose proof (fit_models_depths _ _ _ _ _ Hp Hl Hdepth) as Hds.
  apply finish_inv in Hf.
  destruct Hf as (_ & _ & _ & _ & _ & _ & _ & f & Hfit & _ & _ & _ & _ & _
                  & _ & _ & Hstage).
  destruct (Hstage Hpft) as (ds & Hs & _).
  destruct (fine_tune_stage_spec (pr_cfg p) Hds
              (cfg_layers (pr_cfg p)) (ls_weights st))
    as (ds' & w' & Heq & _ & _).
  rewrite Heq in Hs.
  exists f, nf. split; [exact Hfit|].
  apply training_loop_graph in Hl. apply Forall2_length in Hl.
  destruct (ls_datasets st) as [|d l].
  - rewrite Hlen in Hl. simpl in Hl.
    destruct (pr_datasets_ p); [contradiction|discriminate].
  - inversion Hs as [[Hds' Hlayers Hw]].
    unfold frozen. rewrite !nth_error_update. cbn [Nat.eqb].
    rewrite H0, H1. split; reflexivity.
Qed.

Lemma fit_or_returned {B : Backend}
    (o : option (result (FactoredLogistic B))) (default : FactoredLogistic B) :
  Run.returned o = true -> o = Some (Ok (Run.fit_or o default)).
Proof. destruct o as [[self'|e]|]; simpl; congruence. Qed.

Lemma run_factored_id0 :
  fit 10 Run.factored Run.X_id0 Run.y_three None = Some (Ok Run.fitted_id0).
Proof.
  apply fit_or_returned. vm_compute. reflexivity.
Qed.

Lemma run_factored_no_dropout : ~ (0 < dropout Run.factored)%Q.
Proof. vm_compute. discriminate. Qed.

Lemma fit_without_dropout_leaves_encoder_trainable_witness :
  exists f nf,
    fitted Run.fitted_id0 = Some f
    /\ nth_error (layers_ f) 1
       = Some {| Keras.l_role := Keras.Encoded; Keras.l_units := 2;
                 Keras.l_trainable := true; Keras.l_rate := Some 0%Q |}
    /\ nth_error (layers_ f) 0
       = Some {| Keras.l_role := Keras.InputLayer; Keras.l_units := nf;
                 Keras.l_trainable := false; Keras.l_rate := None |}.
Proof.
  exact (@fit_without_dropout_leaves_encoder_trainable
           Run.backend 10 Run.factored Run.fitted_id0 Run.X_id0 Run.y_three
           None 2%nat eq_refl eq_refl run_factored_no_dropout
           run_factored_id0).
Defined.

(** ** When the training loop stops *)

Lemma rotation_valid : valid_permutations Run.backend.
Proof.
  intros g n. simpl. unfold Run.rotate.
  etransitivity; [apply Permutation_app_comm|].
  now rewrite firstn_skipn.
Qed.

(** C4, as the code has it.  From the state [fit] enters the loop with:
    the loop ends (some number of passes suffices); when it ends,
    [exit_condition] holds: every epoch counter has reached [max_iter],
    or validation data is present, early stopping is on and every
    model's [stop_training] is set; at the end of every pass the loop
    stops exactly under that condition; and a [stop_training] found set
    at the end of a pass was set during that very pass, at an epoch end
    of its dataset, because every pass starts by clearing the flags. *)
Theorem training_loop_stops_on_exit_condition :
  forall (B : Backend) (self : FactoredLogistic B) (X : list Row)
         (y : list Z) (validation_data : option (list Row * list Z))
         (p : Prepared B),
    valid_permutations B ->
    prepare self X y validation_data = Ok p ->
    (exists fuel r, training_loop (pr_cfg p) fuel (pr_state p) = Some r)
    /\ (forall fuel st,
          training_loop (pr_cfg p) fuel (pr_state p) = Some (Ok st) ->
          exit_condition (pr_cfg p) st)
    /\ (forall n st,
          loop_prefix (pr_cfg p) n (pr_state p) = Some st ->
          (loop_guard (pr_cfg p) st = Ok false <-> exit_condition (pr_cfg p) st)
          /\ forall st',
               loop_guard (pr_cfg p) st = Ok true ->
               tick (pr_cfg p) st = Ok st' ->
               do_validation (pr_cfg p) = true ->
               Forall2 (fun d d' =>
                          stop_flag d' = true ->
                          ds_batches d = Some []
                          /\ ds_n_epochs d' = ds_n_epochs d + 1)
                       (ls_datasets st) (ls_datasets st')).
Proof.
  intros B self X y vd p Hperm Hp.
  pose proof (prepare_invariant _ _ _ _ Hp) as Hinv.
  split; [|split].
  - exists (S (loop_bound (pr_cfg p) (pr_state p))).
    apply training_loop_terminates; [exact Hperm|lia].
  - intros fuel st Hl. apply training_loop_prefix in Hl.
    destruct Hl as [Hg [n Hn]].
    apply guard_false_iff; [|exact Hg].
    eapply loop_prefix_invariant; eassumption.
  - intros n st Hn. split.
    + apply guard_false_iff. eapply loop_prefix_invariant; eassumption.
    + intros st' Hg Ht Hv. eapply tick_flags_are_fresh; eassumption.
Qed.

Lemma result_or_ok {A : Type} (r : result A) (default : A) :
  is_ok r = true -> r = Ok (Run.result_or r default).
Proof. destruct r; simpl; congruence. Qed.

Lemma run_prepared :
  prepare Run.early_stopper Run.two_X Run.two_y
          (Some (Run.two_X_val, Run.two_y_val)) = Ok Run.prepared.
Proof. apply result_or_ok. vm_compute. reflexivity. Qed.

(** [fit] always comes back, with an estimator or with an exception:
    some number of passes of the loop is enough. *)
Lemma fit_returns (B : Backend) (self : FactoredLogistic B) (X : list Row)
    (y : list Z) (validation_data : option (list Row * list Z)) :
  valid_permutations B ->
  exists fuel r, fit fuel self X y validation_data = Some r.
Proof.
  intros Hperm. unfold fit.
  destruct (prepare self X y validation_data) as [p|e] eqn:Hp.
  - destruct (@training_loop_terminates B (pr_cfg p) Hperm
                (S (loop_bound (pr_cfg p) (pr_state p)))
                (pr_state p)) as [r Hr]; [lia|].
    exists (S (loop_bound (pr_cfg p) (pr_state p))). rewrite Hr.
    destruct r; eauto.
  - exists O. eauto.
Qed.

Lemma training_loop_stops_on_exit_condition_witness :
  exists fuel r,
    training_loop (pr_cfg Run.prepared) fuel (pr_state Run.prepared) = Some r.
Proof.
  exact (proj1 (training_loop_stops_on_exit_condition
                  Run.early_stopper Run.two_X Run.two_y
                  (Some (Run.two_X_val, Run.two_y_val))
                  rotation_valid run_prepared)).
Defined.

(** C4, counterexample to the claim as stated.  With validation data
    and early stopping, on two datasets with two and three batches per
    epoch and a loss that never improves: the tracker of dataset 0 has
    signalled stop in pass 11 and the tracker of dataset 1 in pass 16,
    so by the end of pass 16 every tracker has signalled stop and no
    epoch counter is near [max_iter = 100]; yet the loop goes on, and it
    only stops after pass 19, the first pass in which both trackers
    signal together. *)
Lemma signals_of_earlier_passes_do_not_stop_the_loop :
  option_map (fun st => map (@stop_flag Run.backend) (ls_datasets st))
             (Run.passes 11) = Some [true; false]
  /\ option_map (fun st => map (@stop_flag Run.backend) (ls_datasets st))
                (Run.passes 16) = Some [false; true]
  /\ option_map (fun st => map (@ds_n_epochs Run.backend) (ls_datasets st))
                (Run.passes 16) = Some [7; 5]
  /\ prepare Run.early_stopper Run.two_X Run.two_y
             (Some (Run.two_X_val, Run.two_y_val)) = Ok Run.prepared
  /\ do_validation (pr_cfg Run.prepared) = true
  /\ cfg_early_stop (pr_cfg Run.prepared) = true
  /\ cfg_max_iter (pr_cfg Run.prepared) = 100
  /\ option_map (loop_guard (pr_cfg Run.prepared)) (Run.passes 16)
     = Some (Ok true)
  /\ option_map (loop_guard (pr_cfg Run.prepared)) (Run.passes 19)
     = Some (Ok false).
Proof.
  repeat split; try exact run_prepared; vm_compute; reflexivity.
Qed.

(** ** What [fit] does to the estimator's own arguments *)

Lemma Forall2_Forall {A C : Type} (R : A -> C -> Prop) (P : A -> Prop)
    (Q : C -> Prop) (l : list A) (l' : list C) :
  Forall2 R l l' -> Forall P l ->
  (forall a c, R a c -> P a -> Q c) -> Forall Q l'.
Proof.
  intros Hf2 Hall Himp. induction Hf2 as [|a c l l' Hr Hf2 IH];
    [constructor|].
  inversion Hall; subst. constructor; eauto.
Qed.

(** [fit] reads the constructor arguments only, never the attributes of
    an earlier fit. *)
Lemma fit_reads_arguments_only (B : Backend) (fuel : nat)
    (a b : FactoredLogistic B) (X : list Row) (y : list Z)
    (validation_data : option (list Row * list Z)) :
  latent_dim a = latent_dim b -> fine_tune a = fine_tune b ->
  max_iter a = max_iter b -> batch_size a = batch_size b ->
  dropout a = dropout b -> random_state a = random_state b ->
  early_stop a = early_stop b ->
  fit fuel a X y validation_data = fit fuel b X y validation_data.
Proof.
  destruct a, b; simpl. intros; subst. reflexivity.
Qed.

(** C6.  In simple mode ([latent_dim] is [None]) a fit requested with
    [fine_tune=True] is the fit with [fine_tune=False], result and
    errors alike; after it [fine_tune] is [False] and every model still
    has the learning rate it was compiled with, so the fine-tuning stage
    has not run. *)
Theorem simple_mode_disables_fine_tune :
  forall (B : Backend) (fuel : nat) (self : FactoredLogistic B)
         (X : list Row) (y : list Z)
         (validation_data : option (list Row * list Z)),
    fit fuel (with_latent_dim None (with_fine_tune true self))
        X y validation_data
    = fit fuel (with_latent_dim None (with_fine_tune false self))
          X y validation_data
    /\ forall self',
         fit fuel (with_latent_dim None (with_fine_tune true self))
             X y validation_data = Some (Ok self') ->
         fine_tune self' = false
         /\ exists f,
              fitted self' = Some f
              /\ Forall (fun m => Keras.m_lr m = Keras.adam_lr) (models_ f).
Proof.
  intros B fuel self X y vd. split; [reflexivity|].
  intros self' Hfit. apply fit_inv in Hfit.
  destruct Hfit as (p & st & Hp & Hl & Hf).
  apply prepare_spec in Hp.
  destruct Hp as (_ & _ & _ & _ & Hall & _ & Hpft & _).
  simpl in Hpft. apply finish_inv in Hf.
  destruct Hf as (_ & Hft & _ & _ & _ & _ & _ & f & Hfit & _ & _ & _ & _ & _
                  & _ & Hplain & _).
  split; [congruence|]. exists f. split; [exact Hfit|].
  destruct (Hplain Hpft) as (-> & _). rewrite Forall_map.
  apply training_loop_graph in Hl.
  eapply Forall2_Forall; [exact Hl|exact Hall|].
  intros d d' [_ Hlr] [Hd _]. congruence.
Qed.

Lemma run_simple_id0 :
  fit 10 (with_latent_dim None (with_fine_tune true Run.simple))
      Run.X_id0 Run.y_three None = Some (Ok Run.fitted_simple).
Proof.
  apply (fit_or_returned (fit 10 Run.simple Run.X_id0 Run.y_three None)).
  vm_compute. reflexivity.
Qed.

Lemma simple_mode_disables_fine_tune_witness :
  fine_tune Run.fitted_simple = false.
Proof.
  exact (proj1 (proj2 (@simple_mode_disables_fine_tune
                         Run.backend 10%nat Run.simple Run.X_id0
                         Run.y_three None)
                      Run.fitted_simple run_simple_id0)).
Defined.

(** C10.  [fit] replaces [random_state] by the generator, in the state
    the fit left it in, and [fine_tune] by [False] in simple mode; a
    second [fit] of the same estimator object is therefore the fit of
    the original arguments started from that generator state instead of
    the seed.  On the executable backend the two fits of one estimator,
    on the same data, train on different batches. *)
Theorem fit_overwrites_its_arguments :
  (forall (B : Backend) (fuel : nat) (self self1 : FactoredLogistic B)
          (X : list Row) (y : list Z)
          (validation_data : option (list Row * list Z)),
      fit fuel self X y validation_data = Some (Ok self1) ->
      exists g,
        random_state self1 = RS_Generator g
        /\ fine_tune self1 = match latent_dim self with
                             | Some _ => fine_tune self
                             | None => false
                             end
        /\ forall fuel' X' y' validation_data',
             fit fuel' self1 X' y' validation_data'
             = fit fuel'
                 (with_fine_tune (fine_tune self1)
                    (with_random_state (RS_Generator g) self))
                 X' y' validation_data')
  /\ (random_state Run.factored = RS_Seed 7
      /\ fit 10 Run.factored Run.X_id0 Run.y_three None
         = Some (Ok Run.fitted_id0)
      /\ fit 10 Run.fitted_id0 Run.X_id0 Run.y_three None
         = Some (Ok Run.refitted_id0)
      /\ Run.generator_state Run.fitted_id0 = Some 8
      /\ Run.training_log Run.fitted_id0
         <> Run.training_log Run.refitted_id0).
Proof.
  split.
  - intros B fuel self self1 X y vd Hfit. apply fit_inv in Hfit.
    destruct Hfit as (p & st & Hp & Hl & Hf).
    apply prepare_spec in Hp.
    destruct Hp as (_ & _ & _ & _ & _ & _ & Hpft & _).
    apply finish_inv in Hf.
    destruct Hf as (Hld & Hft & Hmi & Hbs & Hdr & Hrs & Hes & _).
    exists (ls_rng st). split; [exact Hrs|]. split; [congruence|].
    intros fuel' X' y' vd'. apply fit_reads_arguments_only; simpl; auto.
  - split; [reflexivity|]. split; [exact run_factored_id0|].
    split; [apply fit_or_returned; vm_compute; reflexivity|].
    split; [vm_compute; reflexivity|].
    vm_compute. discriminate.
Qed.

Lemma fit_overwrites_its_arguments_witness :
  exists g, random_state Run.fitted_id0 = RS_Generator g.
Proof.
  destruct (proj1 fit_overwrites_its_arguments Run.backend 10%nat
              Run.factored Run.fitted_id0 Run.X_id0 Run.y_three None
              run_factored_id0) as (g & Hg & _).
  exists g. exact Hg.
Defined.

(** ** Prediction *)

Lemma where_first_not_in (v : list Z) (d : Z) :
  ~ In d v -> Np.where_first v d = Raise IndexError.
Proof.
  induction v as [|x v IH]; intros Hnot; simpl; [reflexivity|].
  destruct (x =? d) eqn:E.
  - apply Z.eqb_eq in E. exfalso. apply Hnot. now left.
  - rewrite IH; [reflexivity|]. intros H. apply Hnot. now right.
Qed.

Lemma where_first_in (v : list Z) (d : Z) :
  In d v ->
  exists i, Np.where_first v d = Ok i /\ nth_error v i = Some d.
Proof.
  induction v as [|x v IH]; intros Hin; [contradiction|]. simpl.
  destruct (x =? d) eqn:E.
  - apply Z.eqb_eq in E. subst x. exists O. auto.
  - apply Z.eqb_neq in E. destruct Hin as [->|Hin]; [congruence|].
    destruct (IH Hin) as (i & Hw & Hn). exists (S i). rewrite Hw. auto.
Qed.

Lemma index_of_nat {A : Type} (l : list A) (i : nat) :
  (i < length l)%nat ->
  exists a, nth_error l i = Some a /\ Np.index l (Z.of_nat i) = Ok a.
Proof.
  intros Hlt. unfold Np.index.
  assert (H0 : (Z.of_nat i <? 0) = false) by (apply Z.ltb_ge; lia).
  assert (H1 : (Z.of_nat (length l) <=? Z.of_nat i) = false)
    by (apply Z.leb_gt; lia).
  cbv zeta. rewrite H0. cbv iota. rewrite H0, H1. cbn [orb].
  rewrite Nat2Z.id.
  destruct (nth_error l i) as [a|] eqn:Hn.
  - exists a. split; reflexivity.
  - apply nth_error_None in Hn. lia.
Qed.

Lemma index_beyond {A : Type} (l : list A) (d : Z) :
  Z.of_nat (length l) <= d -> Np.index l d = Raise IndexError.
Proof.
  intros Hge. unfold Np.index.
  assert (H0 : (d <? 0) = false) by (apply Z.ltb_ge; lia).
  assert (H1 : (Z.of_nat (length l) <=? d) = true) by (apply Z.leb_le; lia).
  cbv zeta. rewrite H0. cbv iota. now rewrite H0, H1.
Qed.

(** C7.  On an estimator returned by [fit]: without a dataset,
    [predict_proba] is the stacked model's prediction; with a dataset id
    that [fit] did not record it raises [IndexError]; with a recorded id
    it is the prediction of the model at the position of that id. *)
Theorem predict_proba_routes :
  forall (B : Backend) (fuel : nat) (self0 self : FactoredLogistic B)
         (X_train : list Row) (y_train : list Z)
         (validation_data : option (list Row * list Z)) (X : list Row),
    fit fuel self0 X_train y_train validation_data = Some (Ok self) ->
    exists f,
      fitted self = Some f
      /\ predict_proba self X None
         = Ok (keras_predict B (layers_ f) (stacked_model_ f) (weights_ f) X)
      /\ (forall d, ~ In d (datasets_ f) ->
            predict_proba self X (Some d) = Raise IndexError)
      /\ (forall d, In d (datasets_ f) ->
            exists i model,
              nth_error (datasets_ f) i = Some d
              /\ nth_error (models_ f) i = Some model
              /\ predict_proba self X (Some d)
                 = Ok (keras_predict B (layers_ f) model (weights_ f) X)).
Proof.
  intros B fuel self0 self Xtr ytr vd X Hfit.
  apply fit_fitted in Hfit.
  destruct Hfit as (f & Hf & _ & _ & Hlen & _).
  exists f. split; [exact Hf|].
  unfold predict_proba, get_fitted. rewrite Hf. simpl.
  split; [reflexivity|]. split.
  - intros d Hnot. now rewrite where_first_not_in.
  - intros d Hin. destruct (where_first_in _ _ Hin) as (i & Hw & Hn).
    assert (Hlt : (i < length (models_ f))%nat).
    { rewrite Hlen. apply nth_error_Some. congruence. }
    destruct (index_of_nat _ Hlt) as (model & Hm & Hidx).
    exists i, model. rewrite Hw. simpl. rewrite Hidx. auto.
Qed.

Lemma predict_proba_routes_witness :
  exists f,
    fitted Run.fitted_id0 = Some f
    /\ predict_proba Run.fitted_id0 Run.X_id0 None
       = Ok (keras_predict Run.backend (layers_ f) (stacked_model_ f)
                           (weights_ f) Run.X_id0).
Proof.
  destruct (@predict_proba_routes Run.backend 10%nat Run.factored
              Run.fitted_id0 Run.X_id0 Run.y_three None Run.X_id0
              run_factored_id0) as (f & Hf & Hnone & _).
  exists f. split; [exact Hf|exact Hnone].
Defined.

Lemma count_true_eq_mask (datasets : list Z) (d : Z) :
  In d datasets -> (0 <? Np.count_true (Np.eq_mask datasets d))%nat = true.
Proof.
  intros Hin. apply Nat.ltb_lt. unfold Np.count_true, Np.eq_mask.
  induction datasets as [|x ds IH]; [contradiction|]. simpl.
  destruct (x =? d) eqn:E; simpl; [lia|].
  apply Z.eqb_neq in E. destruct Hin as [->|Hin]; [congruence|auto].
Qed.

Section Predict.

Variable B : Backend.
Variable self : FactoredLogistic B.
Variable f : Fitted B.
Variables (datasets : list Z) (X : list Row).
Hypothesis Hlen : length datasets = length X.

(** A fitted dataset id that is not a position of [classes_list_] makes
    the loop of [predict] raise as soon as a row carries it. *)
Lemma predict_datasets_raises (d : Z) (todo : list Z) :
  In d datasets -> In d todo ->
  Z.of_nat (length (classes_list_ f)) <= d ->
  forall pred, exists e,
    predict_datasets self f datasets X pred todo = Raise e.
Proof.
  intros Hrow Htodo Hbeyond.
  induction todo as [|a todo IH]; [contradiction|]. intros pred. simpl.
  destruct (Z.eq_dec a d) as [->|Hne].
  - unfold predict_dataset. rewrite (count_true_eq_mask _ _ Hrow).
    unfold Np.bool_index, Np.eq_mask. rewrite length_map, Hlen, Nat.eqb_refl.
    simpl. rewrite (index_beyond _ Hbeyond). simpl. eauto.
  - destruct Htodo as [->|Htodo]; [contradiction|].
    destruct (predict_dataset self f datasets X pred a) as [pred1|e];
      simpl; [apply IH; assumption|eauto].
Qed.

End Predict.

(** C1.  [predict] reads the class set of a dataset at the position
    given by the dataset id itself, [classes_list_[this_dataset]]:
    whenever a row of the input carries a dataset id recorded by [fit]
    that is at least the number of recorded datasets, [predict] raises
    instead of returning labels.  And the mask of unmatched rows has one
    entry per fitted dataset, not per row: on an estimator fitted on
    dataset 0 with classes 10, 11, 12, a row with the unknown id 7 is
    left at 0, which is no class of the global class set. *)
Theorem predict_misroutes_class_sets :
  (forall (B : Backend) (fuel : nat) (self0 self : FactoredLogistic B)
          (X_train : list Row) (y_train : list Z)
          (validation_data : option (list Row * list Z))
          (X : list Row) (d : Z),
      fit fuel self0 X_train y_train validation_data = Some (Ok self) ->
      is_ok (check_array X) = true ->
      In d (map dataset_id X_train) ->
      In d (map dataset_id X) ->
      Z.of_nat (length (Np.unique (map dataset_id X_train))) <= d ->
      exists e, predict self X = Raise e)
  /\ (fit 10 Run.factored Run.X_id1 Run.y_three None
      = Some (Ok Run.fitted_id1)
      /\ predict Run.fitted_id1 Run.X_id1 = Raise IndexError
      /\ fit 10 Run.factored Run.X_id0 Run.y_three None
         = Some (Ok Run.fitted_id0)
      /\ option_map (@classes_ Run.backend) (fitted Run.fitted_id0)
         = Some [10; 11; 12]
      /\ predict Run.fitted_id0 (Run.X_id0 ++ [Run.row [1; 1] 7])
         = Ok [10; 11; 12; 0]).
Proof.
  split.
  - intros B fuel self0 self Xtr ytr vd X d Hfit Hcheck Htr Hrow Hbeyond.
    apply fit_fitted in Hfit.
    destruct Hfit as (f & Hf & Hds & _ & _ & Hcl & _).
    unfold predict, get_fitted.
    destruct (check_array X) as [X'|e] eqn:Hc; [|discriminate].
    apply check_array_Ok in Hc. destruct Hc as [-> _]. simpl.
    rewrite Hf. simpl.
    match goal with
    | |- context [bind ?r _] => destruct r as [pred1|e]; simpl; [|eauto]
    end.
    apply predict_datasets_raises with (d := d).
    + now rewrite !length_map.
    + exact Hrow.
    + rewrite Hds. now apply unique_In.
    + rewrite Hcl, Hds. exact Hbeyond.
  - split; [apply fit_or_returned; vm_compute; reflexivity|].
    split; [vm_compute; reflexivity|].
    split; [exact run_factored_id0|].
    split; vm_compute; reflexivity.
Qed.


Lemma run_factored_id1 :
  fit 10 Run.factored Run.X_id1 Run.y_three None = Some (Ok Run.fitted_id1).
Proof. apply fit_or_returned. vm_compute. reflexivity. Qed.

Lemma predict_misroutes_class_sets_witness :
  exists e, predict Run.fitted_id1 Run.X_id1 = Raise e.
Proof.
  apply (proj1 predict_misroutes_class_sets Run.backend 10%nat Run.factored
           Run.fitted_id1 Run.X_id1 Run.y_three None Run.X_id1 1
           run_factored_id1).
  - reflexivity.
  - vm_compute. left. reflexivity.
  - vm_compute. left. reflexivity.
  - vm_compute. discriminate.
Defined.

(** ** Scoring *)

Lemma select_eq_mask_nonempty {A : Type} (datasets : list Z) (d : Z)
    (a : list A) :
  In d datasets -> length datasets = length a ->
  Np.select (Np.eq_mask datasets d) a <> [].
Proof.
  revert a; induction datasets as [|x ds IH]; intros [|z a] Hin Hlen;
    simpl in *; try contradiction; try discriminate.
  destruct (x =? d) eqn:E; [discriminate|].
  apply IH; [|lia]. destruct Hin as [->|Hin]; [|exact Hin].
  rewrite Z.eqb_refl in E. discriminate.
Qed.

Lemma fit_transform_call_nonempty (y : list Z) :
  y <> [] -> Sk.fit_transform_call y = Ok (Sk.fit_transform y).
Proof. destruct y; [contradiction|reflexivity]. Qed.

Section Score.

Variable B : Backend.
Variable f : Fitted B.
Variables (datasets : list Z) (X : list Row) (y : list Z).
Hypothesis Hrows : length datasets = length y.

Lemma score_datasets_spec (todo : list Z) :
  Forall (fun d => In d datasets) todo ->
  forall i : nat,
    (i + length todo <= length (classes_list_ f))%nat ->
    (i + length todo <= length (models_ f))%nat ->
    exists accs,
      score_datasets f datasets X y i todo = Ok accs
      /\ length accs = length todo
      /\ forall j d, nth_error todo j = Some d ->
           exists model,
             nth_error (models_ f) (i + j) = Some model
             /\ nth_error accs j
                = Some (snd (evaluate B (layers_ f) model (weights_ f)
                               (Np.select (Np.eq_mask datasets d) X)
                               (Sk.fit_transform
                                  (Np.select (Np.eq_mask datasets d) y)))).
Proof.
  induction 1 as [|d0 todo Hd0 Hall IH]; intros i Hc Hm; simpl in *.
  - exists []. repeat split. intros [|j] d H; discriminate.
  - destruct (@index_of_nat _ (classes_list_ f) i) as (c & _ & Hic); [lia|].
    destruct (@index_of_nat _ (models_ f) i) as (m & Hnm & Him); [lia|].
    rewrite Hic, Him. simpl.
    rewrite (fit_transform_call_nonempty
               (@select_eq_mask_nonempty _ datasets d0 y Hd0 Hrows)).
    cbn [bind].
    destruct (IH (S i)) as (accs & Heq & Hlen & Hnth); [lia|lia|].
    rewrite Heq. simpl. eexists. split; [reflexivity|].
    split; [simpl; now rewrite Hlen|].
    intros [|j] d Hd; simpl in Hd.
    + inversion Hd; subst. exists m. rewrite Nat.add_0_r. auto.
    + destruct (Hnth j d Hd) as (model & Hmod & Hacc).
      exists model. rewrite Nat.add_succ_r. auto.
Qed.

End Score.

(** C5.  When every dataset the estimator was fitted on has a row under
    evaluation, [score] is the unweighted mean of one accuracy per fitted
    dataset, but each accuracy is taken against an encoding refitted on
    the labels under evaluation ([fit_transform(this_y)]), not against
    the dataset's own encoding.  On an estimator fitted with classes 10,
    11, 12, two rows labelled 10 and 12, both predicted correctly, are
    encoded as the single column [[0], [1]] instead of the rows
    [1, 0, 0] and [0, 0, 1]: the score is 1/2 where the accuracy against
    the dataset's own encoding is 1. *)
Theorem score_refits_the_label_binarizer :
  (forall (B : Backend) (fuel : nat) (self0 self : FactoredLogistic B)
          (X_train : list Row) (y_train : list Z)
          (validation_data : option (list Row * list Z))
          (X : list Row) (y : list Z),
      fit fuel self0 X_train y_train validation_data = Some (Ok self) ->
      is_ok (check_X_y X y) = true ->
      (forall d, In d (map dataset_id X_train) -> In d (map dataset_id X)) ->
      exists f accs,
        fitted self = Some f
        /\ score self X y = Ok (Np.mean accs)
        /\ length accs = length (datasets_ f)
        /\ forall i d, nth_error (datasets_ f) i = Some d ->
             exists model,
               nth_error (models_ f) i = Some model
               /\ nth_error accs i
                  = Some (snd (evaluate B (layers_ f) model (weights_ f)
                                 (Np.select
                                    (Np.eq_mask (map dataset_id X) d)
                                    (map features X))
                                 (Sk.fit_transform
                                    (Np.select
                                       (Np.eq_mask (map dataset_id X) d)
                                       y)))))
  /\ (option_map (@classes_list_ Run.backend) (fitted Run.fitted_id0)
      = Some [[10; 11; 12]]
      /\ Sk.fit_transform [10; 12] = [[0]; [1]]
      /\ Sk.label_binarize [10; 12] [10; 11; 12] = [[1; 0; 0]; [0; 0; 1]]
      /\ predict Run.fitted_id0 [Run.row [0; 5] 0; Run.row [2; 5] 0]
         = Ok [10; 12]
      /\ score Run.fitted_id0 [Run.row [0; 5] 0; Run.row [2; 5] 0] [10; 12]
         = Ok (1 # 2)%Q
      /\ score_as_specified Run.fitted_id0
           [Run.row [0; 5] 0; Run.row [2; 5] 0] [10; 12]
         = Ok 1%Q).
Proof.
  split.
  - intros B fuel self0 self Xtr ytr vd X y Hfit Hcheck Hcover.
    apply fit_fitted in Hfit.
    destruct Hfit as (f & Hf & Hds & _ & Hml & Hcl & _).
    unfold score, get_fitted.
    destruct (check_X_y X y) as [[X' y']|e] eqn:Hc; [|discriminate].
    apply check_X_y_Ok in Hc. destruct Hc as (-> & -> & Hxy & _). simpl.
    rewrite Hf. simpl.
    assert (Hrows : length (map dataset_id X) = length y)
      by now rewrite length_map.
    assert (Hall : Forall (fun d => In d (map dataset_id X)) (datasets_ f)).
    { apply Forall_forall. intros d Hd. apply Hcover.
      rewrite Hds in Hd. exact (proj1 (unique_In _ _) Hd). }
    destruct (@score_datasets_spec B f (map dataset_id X) (map features X) y
                Hrows (datasets_ f) Hall O) as (accs & Heq & Hlen & Hnth);
      [simpl; lia|simpl; lia|].
    rewrite Heq. simpl. exists f, accs. repeat split; auto.
  - repeat split; vm_compute; reflexivity.
Qed.

Lemma score_refits_the_label_binarizer_witness :
  exists accs, score Run.fitted_id0 Run.X_id0 Run.y_three = Ok (Np.mean accs).
Proof.
  destruct (proj1 score_refits_the_label_binarizer Run.backend 10%nat
              Run.factored Run.fitted_id0 Run.X_id0 Run.y_three None
              Run.X_id0 Run.y_three run_factored_id0 eq_refl
              (fun d H => H))
    as (f & accs & _ & Hs & _).
  exists accs. exact Hs.
Defined.

(** ** The projector and the MKL thread setting *)

(** C9, as the code has it.  [transform] runs the least-squares solve
    with the thread setting at [n_jobs]; when the solve returns, the
    setting found on entry is written back; when the solve raises, the
    exception leaves [transform] at once and the setting stays at
    [n_jobs]. *)
Theorem transform_restores_threads_when_solve_returns :
  forall (solver : Projector.Mkl -> Projector.Matrix -> Projector.Matrix
                   -> result Projector.Matrix)
         (self : Projector.Projector) (X : Projector.Matrix)
         (mkl : Projector.Mkl),
    match Projector.lstsq solver
            (Projector.set_num_threads (Projector.n_jobs self) mkl)
            (Projector.transpose (Projector.basis self))
            (Projector.transpose X) with
    | Ok loadings =>
        Projector.transform solver self X mkl
        = (Ok (Projector.transpose loadings), mkl)
    | Raise e =>
        Projector.transform solver self X mkl
        = (Raise e, Projector.set_num_threads (Projector.n_jobs self) mkl)
    end.
Proof.
  intros solver self X mkl. unfold Projector.transform.
  destruct (Projector.lstsq solver _ _ _) as [loadings|e];
    [|reflexivity].
  destruct mkl. reflexivity.
Qed.

(** C9, counterexample to the claim as stated.  With 4 threads on
    entry, a projector run by one worker and an input that the basis
    does not fit, [lstsq] raises [ValueError] and the setting is left
    at 1. *)
Lemma transform_leaves_threads_narrowed_when_solve_raises :
  Projector.transform echo_solver unit_projector three_columns
    {| Projector.max_threads := 4 |}
  = (Raise ValueError, {| Projector.max_threads := 1 |})
  /\ Projector.get_max_threads
       (snd (Projector.transform echo_solver unit_projector three_columns
               {| Projector.max_threads := 4 |})) <> 4
  /\ Projector.transform echo_solver unit_projector two_columns
       {| Projector.max_threads := 4 |}
     = (Ok [[1%Q; 2%Q]], {| Projector.max_threads := 4 |}).
Proof. repeat split; vm_compute; try reflexivity; discriminate. Qed.

(** * Further properties of [fit] *)

(** ** The state [fit] enters the loop with *)

Section PrepareMore.

Variable B : Backend.

Lemma init_datasets_fields (cfg : LoopConfig) slots :
  forall rng : G B,
    Forall2
      (fun slot d =>
         ds_model d = fst slot
         /\ ds_n_epochs d = 0
         /\ ds_val d = snd (snd (snd slot))
         /\ ds_batches d
            = Sk.gen_batches (length (fst (snd slot))) (cfg_batch_size cfg)
         /\ exists g,
              ds_X d = reorder (fst (permutation B g (length (fst (snd slot)))))
                               (fst (snd slot))
              /\ ds_y_bin d
                 = reorder (fst (permutation B g (length (fst (snd slot)))))
                           (fst (snd (snd slot))))
      slots (fst (init_datasets B cfg slots rng)).
Proof.
  induction slots as [|[model [this_X [this_y_bin val]]] rest IH];
    intros rng; simpl; [constructor|].
  destruct (permutation B rng (length this_X)) as [perm rng1] eqn:Hperm.
  specialize (IH rng1).
  destruct (init_datasets B cfg rest rng1) as [ds rng2]. simpl in *.
  constructor; [|exact IH]. simpl. repeat split.
  exists rng. rewrite Hperm. simpl. auto.
Qed.

Lemma prepare_slots (self : FactoredLogistic B) (X : list Row) (y : list Z)
    (validation_data : option (list Row * list Z)) (p : Prepared B) :
  prepare self X y validation_data = Ok p ->
  0 <= max_iter self
  /\ length X = length y
  /\ pr_classes_list_ p
     = map Np.unique
         (split_by_dataset (Np.unique (map dataset_id X))
                           (map dataset_id X) y)
  /\ pr_n_samples_ p
     = map (@length Row)
         (split_by_dataset (Np.unique (map dataset_id X))
                           (map dataset_id X) (map features X))
  /\ cfg_batch_size (pr_cfg p) = batch_size self
  /\ exists models val_list rng,
       length models = length (Np.unique (map dataset_id X))
       /\ length val_list = length (Np.unique (map dataset_id X))
       /\ (validation_data = None -> Forall (fun v => v = None) val_list)
       /\ ls_datasets (pr_state p)
          = fst (init_datasets B (pr_cfg p)
                   (combine models
                      (combine
                         (split_by_dataset (Np.unique (map dataset_id X))
                            (map dataset_id X) (map features X))
                         (combine
                            (map Sk.fit_transform
                               (split_by_dataset
                                  (Np.unique (map dataset_id X))
                                  (map dataset_id X) y))
                            val_list))) rng).
Proof.
  unfold prepare. destruct (max_iter self <? 0) eqn:Hmi; [discriminate|].
  apply Z.ltb_ge in Hmi.
  destruct (check_X_y X y) as [[X1 y1]|e] eqn:Hc; simpl; [|discriminate].
  apply check_X_y_Ok in Hc. destruct Hc as (-> & -> & Hlen & Hne).
  destruct (check_random_state (random_state self)) as [rng|e];
    simpl; [|discriminate].
  set (datasets := map dataset_id X).
  set (datasets_ := Np.unique datasets).
  set (val := match validation_data with
              | Some (X_val, y_val) => _
              | None => _
              end).
  assert (Hval : validation_data = None -> val = Ok None).
  { intros ->. reflexivity. }
  clearbody val.
  destruct val as [val|e]; simpl; [|discriminate].
  destruct (for_each Sk.fit_transform_call
              (split_by_dataset datasets_ datasets y)) as [ybl|e] eqn:Hyb;
    simpl; [|discriminate].
  apply for_each_fit_transform_Ok in Hyb. destruct Hyb as [-> _].
  set (vl := match val with Some _ => _ | None => _ end).
  assert (Hvnone0 : validation_data = None ->
                    forall val_list, vl = Ok val_list ->
                      Forall (fun v : option (list Row * list (list Z)) =>
                                v = None) val_list).
  { intros Hn val_list Heq. specialize (Hval Hn). inversion Hval; subst val.
    unfold vl in Heq. inversion Heq. apply Forall_forall. intros v Hv.
    apply in_map_iff in Hv. now destruct Hv as (? & <- & _). }
  assert (Hvl0 : forall val_list,
             vl = Ok val_list -> length val_list = length datasets_).
  { intros val_list Heq. unfold vl in Heq. destruct val as [[[dv Xv] yv]|].
    - destruct (for_each Sk.fit_transform_call
                  (split_by_dataset datasets_ dv yv)) as [ybv|e] eqn:Hv;
        simpl in Heq; [|discriminate].
      apply for_each_fit_transform_Ok in Hv. destruct Hv as [-> _].
      inversion Heq; subst.
      rewrite length_map, length_combine, length_map,
        !split_by_dataset_length. lia.
    - inversion Heq. now rewrite length_map. }
  clearbody vl. destruct vl as [val_list|e]; simpl; [|discriminate].
  assert (Hvl := Hvl0 _ eq_refl).
  assert (Hvnone := fun Hn => Hvnone0 Hn _ eq_refl).
  clear Hvl0 Hvnone0.
  set (mk := match latent_dim self with Some _ => _ | None => _ end).
  assert (Hmk : forall layers models stacked,
             mk = Ok (layers, models, stacked) ->
             length models = length datasets_).
  { intros layers models stacked Heq. unfold mk in Heq.
    destruct (latent_dim self) as [k|].
    - apply make_factored_model_spec in Heq. destruct Heq as (Hl & _).
      now rewrite Hl, length_map, split_by_dataset_length.
    - apply make_simple_model_spec in Heq. destruct Heq as (Hl & _).
      now rewrite Hl, length_map, split_by_dataset_length. }
  clearbody mk.
  destruct mk as [[[layers models] stacked]|e]; simpl; [|discriminate].
  specialize (Hmk _ _ _ eq_refl).
  match goal with
  | |- context [init_datasets B ?c ?s rng] =>
      remember (init_datasets B c s rng) as r eqn:Hr;
      destruct r as [ds rng1]
  end.
  intros H; inversion H; subst; clear H. simpl.
  repeat split; try assumption; try reflexivity.
  exists models, val_list, rng. repeat split; try assumption.
  simpl in Hr. now rewrite <- Hr.
Qed.

End PrepareMore.

(** ** Batches per epoch *)

Lemma batches_from_length (bs : nat) :
  (0 < bs)%nat ->
  forall fuel start n : nat,
    (n - start <= fuel)%nat ->
    length (Sk.batches_from fuel start n bs)
    = ((n - start + bs - 1) / bs)%nat.
Proof.
  intros Hbs. induction fuel as [|fuel IH]; intros start n Hfuel; simpl.
  - replace (n - start + bs - 1)%nat with (bs - 1)%nat by lia.
    symmetry. apply Nat.div_small. lia.
  - destruct (start <? n)%nat eqn:Hlt.
    + apply Nat.ltb_lt in Hlt. simpl. rewrite IH by lia.
      destruct (Nat.le_gt_cases bs (n - start)) as [Hge|Hsmall].
      * replace (n - start + bs - 1)%nat
          with ((n - (start + bs) + bs - 1) + 1 * bs)%nat by lia.
        rewrite Nat.div_add by lia. lia.
      * replace (n - (start + bs) + bs - 1)%nat with (bs - 1)%nat by lia.
        rewrite (Nat.div_small (bs - 1) bs) by lia.
        apply Nat.div_unique with (r := (n - start - 1)%nat); lia.
    + apply Nat.ltb_ge in Hlt.
      replace (n - start + bs - 1)%nat with (bs - 1)%nat by lia.
      symmetry. apply Nat.div_small. lia.
Qed.

(** [gen_batches(n, batch_size)] yields the ceiling of
    [n / batch_size] slices. *)
Lemma gen_batches_length (n bs : nat) (l : list (nat * nat)) :
  Sk.gen_batches n bs = Some l -> length l = ((n + bs - 1) / bs)%nat.
Proof.
  unfold Sk.gen_batches. destruct bs as [|bs]; [discriminate|].
  intros H; inversion H; subst.
  rewrite batches_from_length by lia. f_equal. lia.
Qed.

Lemma batches_per_epoch_ceiling (B : Backend) (cfg : LoopConfig)
    (d : DatasetState B) :
  batches_per_epoch cfg d
  = ((length (ds_X d) + cfg_batch_size cfg - 1) / cfg_batch_size cfg)%nat.
Proof.
  unfold batches_per_epoch.
  destruct (Sk.gen_batches (length (ds_X d)) (cfg_batch_size cfg))
    as [l|] eqn:Hg.
  - now apply gen_batches_length.
  - unfold Sk.gen_batches in Hg.
    destruct (cfg_batch_size cfg); [reflexivity|discriminate].
Qed.

(** ** More on the training loop *)

Section LoopMore.

Variable B : Backend.
Variable cfg : LoopConfig.

(** More fuel does not change what the loop returns. *)
Lemma training_loop_mono (fuel : nat) :
  forall (st : LoopState B) r,
    training_loop cfg fuel st = Some r ->
    forall fuel', (fuel <= fuel')%nat -> training_loop cfg fuel' st = Some r.
Proof.
  induction fuel as [|fuel IH]; intros st r H fuel' Hle.
  - simpl in H. destruct fuel'; simpl;
      destruct (loop_guard cfg st) as [[|]|e]; try discriminate; auto.
  - destruct fuel' as [|fuel']; [lia|]. simpl in *.
    destruct (loop_guard cfg st) as [[|]|e]; auto.
    destruct (tick cfg st) as [st'|e]; auto.
    apply IH; [assumption|lia].
Qed.

Lemma loop_prefix_last (n : nat) :
  forall st0 st : LoopState B,
    loop_prefix cfg (S n) st0 = Some st ->
    exists st1,
      loop_prefix cfg n st0 = Some st1
      /\ loop_guard cfg st1 = Ok true /\ tick cfg st1 = Ok st.
Proof.
  induction n as [|n IH]; intros st0 st H.
  - simpl in H. destruct (loop_guard cfg st0) as [[|]|e] eqn:Hg;
      try discriminate.
    destruct (tick cfg st0) as [st'|e] eqn:Ht; [|discriminate].
    inversion H; subst. exists st0. simpl. auto.
  - change (loop_prefix cfg (S (S n)) st0)
      with (match loop_guard cfg st0 with
            | Ok true => match tick cfg st0 with
                         | Ok st' => loop_prefix cfg (S n) st'
                         | Raise _ => None
                         end
            | _ => None
            end) in H.
    destruct (loop_guard cfg st0) as [[|]|e] eqn:Hg; try discriminate.
    destruct (tick cfg st0) as [st'|e] eqn:Ht; [|discriminate].
    destruct (IH _ _ H) as (st1 & Hp & Hg1 & Ht1).
    exists st1. split; [|auto]. simpl. now rewrite Hg, Ht.
Qed.

Lemma epoch_end_data (d : DatasetState B) (rng : G B) (w : Wt B) :
  let d1 := fst (epoch_end cfg d rng w) in
  ds_y_bin d1
  = reorder (fst (permutation B rng (length (ds_X d)))) (ds_y_bin d)
  /\ ds_val d1 = ds_val d.
Proof.
  unfold epoch_end.
  destruct (permutation B rng (length (ds_X d))) as [perm rng1]. simpl.
  destruct (ds_val d) as [[Xv yv]|]; [|split; reflexivity].
  destruct (do_validation cfg && cfg_early_stop cfg);
    [|split; reflexivity].
  destruct (es_epoch_end B _ _ _) as [es1 stop]. split; reflexivity.
Qed.

(** Without validation data or without early stopping the loop's own
    flag is never set. *)
Lemma no_early_stop_flag (st : LoopState B) :
  loop_invariant cfg st ->
  do_validation cfg && cfg_early_stop cfg = false ->
  ls_stop_training st = false.
Proof. intros [_ Hs] Hoff. now rewrite Hs, Hoff. Qed.

(** While the loop runs, some epoch counter is at most [max_iter]. *)
Lemma tick_keeps_a_counter_low (st st' : LoopState B) :
  loop_guard cfg st = Ok true -> tick cfg st = Ok st' ->
  Exists (fun d => ds_n_epochs d <= cfg_max_iter cfg) (ls_datasets st').
Proof.
  intros Hg Ht. apply tick_spec in Ht. destruct Ht as [Hf2 _].
  apply guard_true_behind in Hg. destruct Hg as (_ & d & Hin & Hlt).
  induction Hf2 as [|a a' l l' Ha Hl IH]; [contradiction|].
  destruct Hin as [->|Hin].
  - apply Exists_cons_hd. apply stepped_epochs in Ha.
    destruct (reset_flag_fields cfg (ls_stop_training st) d) as (Hn & _).
    rewrite Hn in Ha. lia.
  - apply Exists_cons_tl. auto.
Qed.

Lemma loop_prefix_keeps_a_counter_low (n : nat) :
  forall st0 st : LoopState B,
    Exists (fun d => ds_n_epochs d <= cfg_max_iter cfg) (ls_datasets st0) ->
    loop_prefix cfg n st0 = Some st ->
    Exists (fun d => ds_n_epochs d <= cfg_max_iter cfg) (ls_datasets st).
Proof.
  induction n as [|n IH]; intros st0 st Hex H; simpl in H.
  - inversion H; subst. exact Hex.
  - destruct (loop_guard cfg st0) as [[|]|e] eqn:Hg; try discriminate.
    destruct (tick cfg st0) as [st1|e] eqn:Ht; [|discriminate].
    eapply IH; [|exact H]. eapply tick_keeps_a_counter_low; eassumption.
Qed.

End LoopMore.

Lemma Forall2_right {A C : Type} (R : A -> C -> Prop) (Q : C -> Prop)
    (l : list A) (l' : list C) :
  Forall2 R l l' -> (forall a c, R a c -> Q c) -> Forall Q l'.
Proof.
  intros Hf2 Himp. induction Hf2; constructor; eauto.
Qed.

Lemma prepare_counters_start_at_zero (B : Backend)
    (self : FactoredLogistic B) (X : list Row) (y : list Z)
    (validation_data : option (list Row * list Z)) (p : Prepared B) :
  prepare self X y validation_data = Ok p ->
  Forall (fun d => ds_n_epochs d = 0) (ls_datasets (pr_state p)).
Proof.
  intros Hp. apply prepare_slots in Hp.
  destruct Hp as (_ & _ & _ & _ & _ & models & val_list & rng & _ & _ & _ & ->).
  eapply Forall2_right; [apply init_datasets_fields|].
  intros slot d (_ & Hn & _). exact Hn.
Qed.

(** X1.  [fit] always comes back, and what it returns does not depend
    on the number of loop passes allowed once that number is large
    enough: there is a bound from which on every run gives the same
    estimator or the same exception. *)
Theorem fit_result_is_independent_of_fuel :
  forall (B : Backend) (self : FactoredLogistic B) (X : list Row)
         (y : list Z) (validation_data : option (list Row * list Z)),
    valid_permutations B ->
    exists fuel0 r,
      forall fuel, (fuel0 <= fuel)%nat ->
        fit fuel self X y validation_data = Some r.
Proof.
  intros B self X y vd Hperm. unfold fit.
  destruct (prepare self X y vd) as [p|e] eqn:Hp.
  - destruct (@training_loop_terminates B (pr_cfg p) Hperm
                (S (loop_bound (pr_cfg p) (pr_state p)))
                (pr_state p)) as [r Hr]; [lia|].
    exists (S (loop_bound (pr_cfg p) (pr_state p))).
    exists (match r with Ok st => finish self p st | Raise e => Raise e end).
    intros fuel Hle.
    rewrite (training_loop_mono _ _ Hr Hle). now destruct r.
  - exists O, (Raise e). reflexivity.
Qed.

Lemma fit_result_is_independent_of_fuel_witness :
  exists fuel0 r,
    forall fuel, (fuel0 <= fuel)%nat ->
      fit fuel Run.early_stopper Run.two_X Run.two_y
          (Some (Run.two_X_val, Run.two_y_val)) = Some r.
Proof.
  exact (@fit_result_is_independent_of_fuel Run.backend Run.early_stopper
           Run.two_X Run.two_y (Some (Run.two_X_val, Run.two_y_val))
           rotation_valid).
Defined.

(** X2.  When early stopping cannot act (no validation data, or
    [early_stop] off), a successful [fit] leaves every epoch counter at
    [max_iter] or above, and at least one counter at exactly
    [max_iter]: the loop stops at the first pass after which no dataset
    is behind. *)
Theorem epochs_reach_max_iter_without_early_stopping :
  forall (B : Backend) (fuel : nat) (self self' : FactoredLogistic B)
         (X : list Row) (y : list Z)
         (validation_data : option (list Row * list Z)),
    validation_data = None \/ early_stop self = false ->
    fit fuel self X y validation_data = Some (Ok self') ->
    exists f,
      fitted self' = Some f
      /\ Forall (fun e => max_iter self <= e) (n_epochs_ f)
      /\ In (max_iter self) (n_epochs_ f).
Proof.
  intros B fuel self self' X y vd Hoff Hfit.
  apply fit_inv in Hfit. destruct Hfit as (p & st & Hp & Hl & Hf).
  pose proof (prepare_invariant _ _ _ _ Hp) as Hinv.
  pose proof (prepare_counters_start_at_zero _ _ _ _ Hp) as Hzero.
  pose proof (prepare_slots _ _ _ _ Hp) as (Hmi & _).
  pose proof (prepare_spec _ _ _ _ Hp) as Hspec.
  destruct Hspec as (_ & _ & _ & _ & _ & _ & _ & Hcmi & Hces & Hcdv & _).
  apply training_loop_prefix in Hl. destruct Hl as [Hg [n Hn]].
  assert (Hinv' : loop_invariant (pr_cfg p) st)
    by (eapply loop_prefix_invariant; eassumption).
  assert (Hflags : do_validation (pr_cfg p) && cfg_early_stop (pr_cfg p)
                   = false).
  { rewrite Hcdv, Hces. destruct Hoff as [-> | ->]; [reflexivity|].
    apply andb_false_r. }
  apply (guard_false_iff Hinv') in Hg.
  assert (Hall : Forall (fun d => cfg_max_iter (pr_cfg p) <= ds_n_epochs d)
                        (ls_datasets st)).
  { destruct Hg as [Hall|(Hv & He & _)]; [exact Hall|].
    rewrite Hv, He in Hflags. discriminate. }
  assert (Hex : Exists (fun d => ds_n_epochs d <= cfg_max_iter (pr_cfg p))
                       (ls_datasets st)).
  { eapply loop_prefix_keeps_a_counter_low; [|exact Hn].
    destruct Hinv as [Hne _].
    destruct (ls_datasets (pr_state p)) as [|d l]; [contradiction|].
    inversion Hzero; subst. apply Exists_cons_hd. lia. }
  apply finish_inv in Hf.
  destruct Hf as (_ & _ & _ & _ & _ & _ & _ & f & Hfit & _ & _ & _ & _ & Hne
                  & _).
  exists f. split; [exact Hfit|]. rewrite Hne, <- Hcmi. split.
  - rewrite Forall_map. exact Hall.
  - apply Exists_exists in Hex. destruct Hex as (d & Hin & Hle).
    rewrite Forall_forall in Hall. specialize (Hall d Hin).
    apply in_map_iff. exists d. split; [lia|exact Hin].
Qed.

Lemma run_early_stopper_off :
  fit 400 (with_fine_tune false Run.simple) Run.two_X Run.two_y None
  = Some (Ok (Run.fit_or
                (fit 400 (with_fine_tune false Run.simple) Run.two_X
                     Run.two_y None) Run.simple)).
Proof. apply fit_or_returned. vm_compute. reflexivity. Qed.

Lemma epochs_reach_max_iter_without_early_stopping_witness :
  exists f,
    fitted (Run.fit_or
              (fit 400 (with_fine_tune false Run.simple) Run.two_X
                   Run.two_y None) Run.simple) = Some f
    /\ Forall (fun e => 2 <= e) (n_epochs_ f)
    /\ In 2 (n_epochs_ f).
Proof.
  exact (@epochs_reach_max_iter_without_early_stopping Run.backend 400%nat
           (with_fine_tune false Run.simple) _ Run.two_X Run.two_y None
           (or_introl eq_refl) run_early_stopper_off).
Defined.

(** ** Shuffles, cursors and epoch counters *)

Lemma nth_error_combine_both {A C : Type} (a : list A) (c : list C)
    (p : nat) :
  length a = length c ->
  nth_error (combine a c) p
  = match nth_error a p, nth_error c p with
    | Some x, Some z => Some (x, z)
    | _, _ => None
    end.
Proof.
  revert c p; induction a as [|x a IH]; intros [|z c] p Hlen;
    simpl in Hlen; try discriminate.
  - now destruct p.
  - destruct p as [|p]; simpl; [reflexivity|]. apply IH. lia.
Qed.

Lemma reorder_combine {A C : Type} (perm : list nat) (a : list A)
    (c : list C) :
  length a = length c ->
  reorder perm (combine a c) = combine (reorder perm a) (reorder perm c).
Proof.
  intros Hlen. unfold reorder.
  induction perm as [|p perm IH]; simpl; [reflexivity|].
  rewrite IH, (nth_error_combine_both _ _ p Hlen).
  destruct (nth_error a p) as [x|] eqn:Ha, (nth_error c p) as [z|] eqn:Hc;
    simpl; try reflexivity.
  - apply nth_error_None in Hc.
    assert (p < length a)%nat by (apply nth_error_Some; congruence). lia.
  - apply nth_error_None in Ha.
    assert (p < length c)%nat by (apply nth_error_Some; congruence). lia.
Qed.

Lemma Forall2_compose {A C D : Type} (R1 : A -> C -> Prop)
    (R2 : C -> D -> Prop) (l1 : list A) (l2 : list C) :
  Forall2 R1 l1 l2 ->
  forall l3, Forall2 R2 l2 l3 ->
    Forall2 (fun a d => exists c, R1 a c /\ R2 c d) l1 l3.
Proof.
  induction 1 as [|a c l1 l2 Hac Hf2 IH]; intros l3 H3; inversion H3; subst;
    constructor; eauto.
Qed.

Lemma Forall2_map_l_intro {A A' C : Type} (f : A -> A')
    (R : A' -> C -> Prop) (l : list A) (l' : list C) :
  Forall2 (fun a c => R (f a) c) l l' -> Forall2 R (map f l) l'.
Proof. induction 1; simpl; constructor; auto. Qed.

Lemma slots_rows {M V : Type} (models : list M) (Xs : list (list Row))
    (ys : list (list (list Z))) (vs : list V) :
  length models = length Xs -> length Xs = length ys ->
  length ys = length vs ->
  map (fun s => (fst (snd s), fst (snd (snd s))))
      (combine models (combine Xs (combine ys vs)))
  = combine Xs ys.
Proof.
  revert Xs ys vs; induction models as [|m models IH];
    intros [|x Xs] [|y0 ys] [|v vs] H1 H2 H3; simpl in *;
    try discriminate; try reflexivity.
  f_equal. apply IH; lia.
Qed.

Lemma fit_transform_length (y : list Z) :
  length (Sk.fit_transform y) = length y.
Proof.
  unfold Sk.fit_transform, Sk.label_binarize.
  destruct (Np.unique y) as [|c1 [|c2 [|c3 cs]]]; apply length_map.
Qed.

Lemma select_count {A : Type} (mask : list bool) (a : list A) :
  length mask = length a ->
  length (Np.select mask a) = Np.count_true mask.
Proof.
  unfold Np.count_true. revert a; induction mask as [|b mask IH];
    intros [|x a] Hlen; simpl in *; try discriminate; try reflexivity.
  destruct b; simpl; rewrite IH by lia; reflexivity.
Qed.

Lemma combine_map_same {K A C : Type} (f : K -> A) (g : K -> C)
    (ks : list K) :
  combine (map f ks) (map g ks) = map (fun k => (f k, g k)) ks.
Proof. induction ks; simpl; congruence. Qed.

Lemma Forall2_with_left {A C : Type} (R : A -> C -> Prop) (P : A -> Prop)
    (l : list A) (l' : list C) :
  Forall2 R l l' -> Forall P l -> Forall2 (fun a c => P a /\ R a c) l l'.
Proof.
  induction 1; intros Hall; inversion Hall; subst; constructor; auto.
Qed.

Section Shuffles.

Variable B : Backend.
Hypothesis Hperm : valid_permutations B.

(** The rows [fit] hands to the loop for each dataset: the rows of the
    partition, reordered by one permutation for features and labels
    alike, with a fresh generator of batches and no epoch done. *)
Lemma prepare_initial_rows (self : FactoredLogistic B) (X : list Row)
    (y : list Z) (validation_data : option (list Row * list Z))
    (p : Prepared B) :
  prepare self X y validation_data = Ok p ->
  Forall2
    (fun part d =>
       ds_n_epochs d = 0
       /\ length (ds_X d) = length (fst part)
       /\ length (ds_X d) = length (ds_y_bin d)
       /\ ds_batches d
          = Sk.gen_batches (length (ds_X d)) (cfg_batch_size (pr_cfg p))
       /\ Permutation (training_rows d) (combine (fst part) (snd part)))
    (combine
       (split_by_dataset (Np.unique (map dataset_id X)) (map dataset_id X)
                         (map features X))
       (map Sk.fit_transform
            (split_by_dataset (Np.unique (map dataset_id X))
                              (map dataset_id X) y)))
    (ls_datasets (pr_state p)).
Proof.
  intros Hp. apply prepare_slots in Hp.
  destruct Hp as (_ & Hlen & _ & _ & _ & models & val_list & rng & Hm & Hv
                  & _ & ->).
  set (datasets_ := Np.unique (map dataset_id X)) in *.
  set (Xs := split_by_dataset datasets_ (map dataset_id X) (map features X))
    in *.
  set (ys := split_by_dataset datasets_ (map dataset_id X) y) in *.
  assert (Hparts : Forall (fun part : list Row * list (list Z) =>
                             length (fst part) = length (snd part))
                          (combine Xs (map Sk.fit_transform ys))).
  { unfold Xs, ys, split_by_dataset. rewrite map_map, combine_map_same.
    apply Forall_forall. intros part Hin. apply in_map_iff in Hin.
    destruct Hin as (d0 & <- & _). simpl. rewrite fit_transform_length.
    apply select_length_eq. now rewrite length_map. }
  assert (Hslots : map (fun s : Keras.Model
                              * (list Row * (list (list Z)
                                 * option (list Row * list (list Z)))) =>
                          (fst (snd s), fst (snd (snd s))))
                       (combine models
                          (combine Xs
                             (combine (map Sk.fit_transform ys) val_list)))
                   = combine Xs (map Sk.fit_transform ys)).
  { apply slots_rows.
    - unfold Xs. now rewrite split_by_dataset_length.
    - unfold Xs, ys. now rewrite length_map, !split_by_dataset_length.
    - unfold ys. now rewrite length_map, split_by_dataset_length. }
  rewrite <- Hslots in Hparts |- *. rewrite Forall_map in Hparts.
  apply Forall2_map_l_intro.
  eapply Forall2_impl;
    [|apply Forall2_with_left;
      [apply init_datasets_fields with (rng := rng)|exact Hparts]].
  intros slot d (Hrow & _ & Hn & _ & Hb & g & HX & Hy). simpl in *.
  assert (HlenX : length (ds_X d) = length (fst (snd slot)))
    by (rewrite HX; apply reorder_length, Hperm).
  assert (HlenY : length (ds_y_bin d) = length (fst (snd (snd slot)))).
  { rewrite Hy, Hrow. apply reorder_length. rewrite <- Hrow. apply Hperm. }
  split; [exact Hn|]. split; [exact HlenX|]. split; [congruence|].
  split; [now rewrite HlenX|].
  unfold training_rows. rewrite HX, Hy, <- reorder_combine by exact Hrow.
  apply reorder_permutation. rewrite length_combine, <- Hrow, Nat.min_id.
  apply Hperm.
Qed.

(** One pass leaves the number of batches per epoch of a dataset as it
    was and its generator short of a full epoch. *)
Lemma stepped_cursor (cfg : LoopConfig) (d d' : DatasetState B) :
  stepped cfg d d' ->
  batches_per_epoch cfg d' = batches_per_epoch cfg d
  /\ length (ds_X d') = length (ds_X d)
  /\ (batches_left d <= batches_per_epoch cfg d ->
      batches_left d' < batches_per_epoch cfg d')%nat.
Proof.
  intros [(b & rest & Hb & ->)|(Hb & rng & w & b & rest & Hb1 & ->)];
    unfold batches_left, batches_per_epoch; simpl.
  - rewrite Hb. simpl. repeat split. lia.
  - destruct (epoch_end_fields cfg d rng w) as (_ & HX & Hbt & _).
    assert (Hlen : length (ds_X (fst (epoch_end cfg d rng w)))
                   = length (ds_X d))
      by (rewrite HX; apply reorder_length, Hperm).
    rewrite Hb1 in Hbt. split; [now rewrite Hlen|].
    split; [exact Hlen|].
    rewrite <- Hbt. simpl. lia.
Qed.

(** A pass keeps the rows of a dataset, features and labels side by
    side, up to their order. *)
Lemma stepped_rows (cfg : LoopConfig) (d d' : DatasetState B) :
  stepped cfg d d' ->
  length (ds_X d) = length (ds_y_bin d) ->
  length (ds_X d') = length (ds_y_bin d')
  /\ Permutation (training_rows d') (training_rows d).
Proof.
  intros [(b & rest & Hb & ->)|(Hb & rng & w & b & rest & Hb1 & ->)] Hlen;
    unfold training_rows; simpl.
  - split; [exact Hlen|reflexivity].
  - destruct (epoch_end_fields cfg d rng w) as (_ & HX & _).
    destruct (epoch_end_data cfg d rng w) as (Hy & _).
    rewrite HX, Hy. split.
    + rewrite (@reorder_length _ _ (ds_X d)) by apply Hperm.
      rewrite (@reorder_length _ _ (ds_y_bin d))
        by (rewrite <- Hlen; apply Hperm).
      exact Hlen.
    + rewrite <- reorder_combine by exact Hlen.
      apply reorder_permutation.
      rewrite length_combine, <- Hlen, Nat.min_id. apply Hperm.
Qed.

End Shuffles.

Section PassCount.

Variable B : Backend.
Hypothesis Hperm : valid_permutations B.
Variable cfg : LoopConfig.

Lemma reset_flag_cursor (stop : bool) (d : DatasetState B) :
  batches_per_epoch cfg (reset_flag cfg stop d) = batches_per_epoch cfg d
  /\ batches_left (reset_flag cfg stop d) = batches_left d
  /\ ds_X (reset_flag cfg stop d) = ds_X d
  /\ ds_y_bin (reset_flag cfg stop d) = ds_y_bin d.
Proof.
  unfold reset_flag. destruct (do_validation cfg); repeat split.
Qed.

(** After [n] passes every dataset has taken [n] steps: its batches per
    epoch are unchanged, it is [n] steps closer to [max_iter] epochs,
    and from the first pass on its generator is short of a full
    epoch. *)
Lemma passes_count (n : nat) :
  forall st0 st : LoopState B,
    Forall (fun d => (batches_left d <= batches_per_epoch cfg d)%nat)
           (ls_datasets st0) ->
    loop_prefix cfg n st0 = Some st ->
    Forall2 (fun d0 d =>
               batches_per_epoch cfg d = batches_per_epoch cfg d0
               /\ steps_left cfg d = steps_left cfg d0 - Z.of_nat n
               /\ (n = O -> d = d0)
               /\ ((1 <= n)%nat ->
                   (batches_left d < batches_per_epoch cfg d)%nat))
            (ls_datasets st0) (ls_datasets st).
Proof.
  induction n as [|n IH]; intros st0 st Hall H.
  - simpl in H. inversion H; subst. clear.
    induction (ls_datasets st) as [|d l IHl]; constructor; auto.
    repeat split; [simpl; lia|lia].
  - change (loop_prefix cfg (S n) st0)
      with (match loop_guard cfg st0 with
            | Ok true => match tick cfg st0 with
                         | Ok st' => loop_prefix cfg n st'
                         | Raise _ => None
                         end
            | _ => None
            end) in H.
    destruct (loop_guard cfg st0) as [[|]|e]; try discriminate.
    destruct (tick cfg st0) as [st1|e] eqn:Ht; [|discriminate].
    apply tick_spec in Ht. destruct Ht as [Hf2 _].
    assert (Hstep : Forall2
              (fun d0 d1 =>
                 batches_per_epoch cfg d1 = batches_per_epoch cfg d0
                 /\ steps_left cfg d1 = steps_left cfg d0 - 1
                 /\ (batches_left d1 < batches_per_epoch cfg d1)%nat)
              (ls_datasets st0) (ls_datasets st1)).
    { eapply Forall2_impl; [|apply Forall2_with_left; [exact Hf2|exact Hall]].
      intros d0 d1 [Hle Hs]. simpl in *.
      destruct (reset_flag_cursor (ls_stop_training st0) d0)
        as (HK & Hleft & _).
      destruct (stepped_cursor Hperm Hs) as (HK1 & _ & Hcur).
      split; [congruence|]. split.
      - rewrite (stepped_steps_left Hperm Hs).
        now rewrite reset_flag_steps_left.
      - apply Hcur. rewrite HK, Hleft. exact Hle. }
    assert (Hall1 : Forall (fun d => (batches_left d
                                      <= batches_per_epoch cfg d)%nat)
                           (ls_datasets st1)).
    { eapply Forall2_right; [exact Hstep|].
      intros a c (_ & _ & Hlt). simpl in Hlt. lia. }
    specialize (IH st1 st Hall1 H).
    eapply Forall2_impl; [|exact (Forall2_compose Hstep IH)].
    intros d0 d (d1 & (HK1 & Hs1 & Hlt1) & (HK & Hs & Hzero & Hlt)).
    split; [congruence|]. split; [lia|]. split; [discriminate|].
    intros _. destruct n as [|n].
    + rewrite (Hzero eq_refl). exact Hlt1.
    + apply Hlt. lia.
Qed.

Lemma steps_left_alt (d : DatasetState B) :
  steps_left cfg d
  = (cfg_max_iter cfg - ds_n_epochs d) * Z.of_nat (batches_per_epoch cfg d)
    + Z.of_nat (batches_left d).
Proof.
  unfold steps_left, batches_left. now destruct (ds_batches d).
Qed.

(** The epoch counter of a dataset that started with a fresh generator
    after [n >= 1] passes: the quotient of [n - 1] by its number of
    batches per epoch, which is at least one. *)
Lemma counter_after_passes (n : nat) (d0 d : DatasetState B) :
  (1 <= n)%nat ->
  ds_n_epochs d0 = 0 ->
  batches_left d0 = batches_per_epoch cfg d0 ->
  batches_per_epoch cfg d = batches_per_epoch cfg d0 ->
  steps_left cfg d = steps_left cfg d0 - Z.of_nat n ->
  (batches_left d < batches_per_epoch cfg d)%nat ->
  (1 <= batches_per_epoch cfg d0)%nat
  /\ ds_n_epochs d
     = (Z.of_nat n - 1) / Z.of_nat (batches_per_epoch cfg d0).
Proof.
  intros Hn H0 Hfull HK Hs Hlt. split; [lia|].
  rewrite !steps_left_alt in Hs. rewrite H0, Hfull, HK in Hs.
  rewrite HK in Hlt.
  apply Z.div_unique
    with (r := Z.of_nat (batches_per_epoch cfg d0) - 1
               - Z.of_nat (batches_left d)); [lia|nia].
Qed.

End PassCount.

Lemma Forall2_In_right {A C : Type} (R : A -> C -> Prop) (l : list A)
    (l' : list C) (c : C) :
  Forall2 R l l' -> In c l' -> exists a, In a l /\ R a c.
Proof.
  induction 1 as [|a0 c0 l l' Hr Hf2 IH]; intros Hin; [contradiction|].
  destruct Hin as [->|Hin].
  - exists a0. split; [now left|exact Hr].
  - destruct (IH Hin) as (a & Ha & Hrc). exists a. split; [now right|auto].
Qed.

Lemma Forall2_map_eq {A C D : Type} (f : A -> D) (g : C -> D) (l : list A)
    (l' : list C) :
  Forall2 (fun a c => g c = f a) l l' -> map g l' = map f l.
Proof. induction 1; simpl; congruence. Qed.

Section EpochTable.

Variable B : Backend.
Hypothesis Hperm : valid_permutations B.
Variable self : FactoredLogistic B.
Variables (X : list Row) (y : list Z).
Variable validation_data : option (list Row * list Z).
Variable p : Prepared B.
Hypothesis Hp : prepare self X y validation_data = Ok p.

Lemma prepare_cursors :
  Forall2 (fun ns d0 =>
             ds_n_epochs d0 = 0
             /\ batches_left d0 = batches_per_epoch (pr_cfg p) d0
             /\ batches_per_epoch (pr_cfg p) d0
                = batches_of (batch_size self) ns)
          (pr_n_samples_ p) (ls_datasets (pr_state p)).
Proof.
  pose proof (prepare_slots _ _ _ _ Hp)
    as (_ & Hlen & _ & Hns & Hbs & _).
  pose proof (prepare_initial_rows Hperm _ _ _ _ Hp) as Hrows.
  rewrite Hns.
  set (Xs := split_by_dataset (Np.unique (map dataset_id X))
               (map dataset_id X) (map features X)) in *.
  set (ys := split_by_dataset (Np.unique (map dataset_id X))
               (map dataset_id X) y) in *.
  assert (HXs : map (fun part : list Row * list (list Z) =>
                       length (fst part))
                    (combine Xs (map Sk.fit_transform ys))
                = map (@length Row) Xs).
  { rewrite <- (map_map fst (@length Row)). f_equal.
    apply map_fst_combine. unfold Xs, ys.
    now rewrite length_map, !split_by_dataset_length. }
  rewrite <- HXs. apply Forall2_map_l_intro.
  eapply Forall2_impl; [|exact Hrows].
  intros part d (Hn & HlX & _ & Hb & _). simpl.
  split; [exact Hn|].
  rewrite batches_per_epoch_ceiling, Hbs, HlX. unfold batches_of.
  split; [|reflexivity].
  unfold batches_left. rewrite Hb, Hbs, HlX.
  destruct (Sk.gen_batches (length (fst part)) (batch_size self))
    as [l|] eqn:Hg.
  - now apply gen_batches_length.
  - unfold Sk.gen_batches in Hg.
    destruct (batch_size self); [reflexivity|discriminate].
Qed.

(** The epoch counters after [n >= 1] passes, from the sample counts. *)
Lemma epochs_table (n : nat) (st : LoopState B) :
  (1 <= n)%nat ->
  loop_prefix (pr_cfg p) n (pr_state p) = Some st ->
  Forall2 (fun ns d =>
             (1 <= batches_of (batch_size self) ns)%nat
             /\ ds_n_epochs d
                = (Z.of_nat n - 1)
                  / Z.of_nat (batches_of (batch_size self) ns))
          (pr_n_samples_ p) (ls_datasets st).
Proof.
  intros Hn Hpre.
  assert (Hall : Forall (fun d => (batches_left d
                                   <= batches_per_epoch (pr_cfg p) d)%nat)
                        (ls_datasets (pr_state p))).
  { eapply Forall2_right; [exact prepare_cursors|].
    intros ns d (_ & Hfull & _). simpl. lia. }
  assert (Hcount := @passes_count B Hperm (pr_cfg p) n _ _ Hall Hpre).
  eapply Forall2_impl; [|exact (Forall2_compose prepare_cursors Hcount)].
  intros ns d (d0 & (H0 & Hfull & HK0) & (HK & Hs & _ & Hlt)).
  simpl in *. rewrite <- HK0.
  exact (@counter_after_passes B (pr_cfg p) n d0 d Hn H0 Hfull HK Hs (Hlt Hn)).
Qed.

End EpochTable.

Lemma finish_counts (B : Backend) (self self' : FactoredLogistic B)
    (p : Prepared B) (st : LoopState B) :
  finish self p st = Ok self' ->
  exists f,
    fitted self' = Some f
    /\ n_samples_ f = pr_n_samples_ p
    /\ n_epochs_ f = map (@ds_n_epochs B) (ls_datasets st)
    /\ datasets_ f = pr_datasets_ p
    /\ classes_list_ f = pr_classes_list_ p.
Proof.
  unfold finish.
  destruct (if pr_fine_tune p then _ else _) as [[[ds layers] w]|e];
    simpl; [|discriminate].
  intros H; inversion H; subst; clear H. simpl. eexists.
  split; [reflexivity|]. simpl. auto.
Qed.

Lemma scaled_list_max (mi m : Z) (Ks : list nat) :
  0 <= m ->
  Forall (fun k => mi * Z.of_nat k <= m) Ks ->
  mi * Z.of_nat (list_max Ks) <= m.
Proof.
  intros Hm. induction 1 as [|k l Hk Hl IH]; simpl; [lia|].
  destruct (Nat.max_spec k (list_max l)) as [[_ ->]|[_ ->]]; assumption.
Qed.

Lemma state_after_passes (n : nat) :
  some_state (Run.passes n) = true ->
  loop_prefix (pr_cfg Run.prepared) n (pr_state Run.prepared)
  = Some (state_after n).
Proof.
  unfold state_after, Run.passes.
  destruct (loop_prefix (pr_cfg Run.prepared) n (pr_state Run.prepared));
    simpl; congruence.
Qed.

Lemma run_sixteen_passes :
  loop_prefix (pr_cfg Run.prepared) 16 (pr_state Run.prepared)
  = Some (state_after 16).
Proof. apply state_after_passes. vm_compute. reflexivity. Qed.

(** X3.  While [fit] trains, every dataset's epoch counter is a function
    of the number of passes of the loop alone: after [n >= 1] passes it
    is [(n - 1) / ceil(n_samples / batch_size)], whatever the data, the
    shuffles and the early-stopping signals were.  So of two datasets
    the one with fewer rows is never behind in epochs. *)
Theorem epoch_counters_follow_the_pass_count :
  forall (B : Backend) (self : FactoredLogistic B) (X : list Row)
         (y : list Z) (validation_data : option (list Row * list Z))
         (p : Prepared B) (n : nat) (st : LoopState B),
    valid_permutations B ->
    prepare self X y validation_data = Ok p ->
    (1 <= n)%nat ->
    loop_prefix (pr_cfg p) n (pr_state p) = Some st ->
    map (@ds_n_epochs B) (ls_datasets st)
    = map (fun ns => (Z.of_nat n - 1)
                     / Z.of_nat (batches_of (batch_size self) ns))
          (pr_n_samples_ p)
    /\ forall i j a b ea eb,
         nth_error (pr_n_samples_ p) i = Some a ->
         nth_error (pr_n_samples_ p) j = Some b ->
         nth_error (map (@ds_n_epochs B) (ls_datasets st)) i = Some ea ->
         nth_error (map (@ds_n_epochs B) (ls_datasets st)) j = Some eb ->
         (a <= b)%nat -> eb <= ea.
Proof.
  intros B self X y vd p n st Hperm Hp Hn Hpre.
  pose proof (@epochs_table B Hperm self X y vd p Hp n st Hn Hpre) as Htab.
  assert (Hmap : map (@ds_n_epochs B) (ls_datasets st)
                 = map (fun ns => (Z.of_nat n - 1)
                                  / Z.of_nat (batches_of (batch_size self) ns))
                       (pr_n_samples_ p)).
  { apply Forall2_map_eq. eapply Forall2_impl; [|exact Htab].
    intros ns d [_ He]. exact He. }
  split; [exact Hmap|].
  intros i j a b ea eb Ha Hb Hea Heb Hab.
  rewrite Hmap in Hea, Heb.
  rewrite nth_error_map, Ha in Hea. rewrite nth_error_map, Hb in Heb.
  simpl in Hea, Heb. inversion Hea; inversion Heb; subst.
  assert (HKa : (1 <= batches_of (batch_size self) a)%nat).
  { apply nth_error_In in Ha.
    assert (Hall : Forall (fun ns => (1 <= batches_of (batch_size self) ns)%nat)
                          (pr_n_samples_ p)).
    { clear -Htab. induction Htab as [|? ? ? ? [H _]]; constructor; auto. }
    rewrite Forall_forall in Hall. now apply Hall. }
  assert (Hmono : (batches_of (batch_size self) a
                   <= batches_of (batch_size self) b)%nat).
  { unfold batches_of. destruct (batch_size self) as [|bs]; [reflexivity|].
    apply Nat.Div0.div_le_mono. lia. }
  apply Z.div_le_compat_l; lia.
Qed.

Lemma epoch_counters_follow_the_pass_count_witness :
  map (@ds_n_epochs Run.backend) (ls_datasets (state_after 16))
  = map (fun ns => (Z.of_nat 16 - 1)
                   / Z.of_nat (batches_of (batch_size Run.early_stopper) ns))
        (pr_n_samples_ Run.prepared)
  /\ forall i j a b ea eb,
       nth_error (pr_n_samples_ Run.prepared) i = Some a ->
       nth_error (pr_n_samples_ Run.prepared) j = Some b ->
       nth_error (map (@ds_n_epochs Run.backend)
                      (ls_datasets (state_after 16))) i = Some ea ->
       nth_error (map (@ds_n_epochs Run.backend)
                      (ls_datasets (state_after 16))) j = Some eb ->
       (a <= b)%nat -> eb <= ea.
Proof.
  refine (@epoch_counters_follow_the_pass_count Run.backend
            Run.early_stopper Run.two_X Run.two_y
            (Some (Run.two_X_val, Run.two_y_val)) Run.prepared 16%nat
            (state_after 16) rotation_valid run_prepared _
            run_sixteen_passes).
  lia.
Defined.

Lemma training_loop_after_passes (B : Backend) (cfg : LoopConfig) (n : nat) :
  forall st0 st : LoopState B,
    loop_prefix cfg n st0 = Some st ->
    loop_guard cfg st = Ok false ->
    forall fuel,
      training_loop cfg fuel st0
      = if (n <=? fuel)%nat then Some (Ok st) else None.
Proof.
  induction n as [|n IH]; intros st0 st Hpre Hg fuel; simpl in Hpre.
  - inversion Hpre; subst st0. destruct fuel; simpl; now rewrite Hg.
  - destruct (loop_guard cfg st0) as [[|]|e] eqn:Hg0; try discriminate.
    destruct (tick cfg st0) as [st1|e] eqn:Ht; [|discriminate].
    destruct fuel as [|fuel]; simpl; rewrite Hg0; [reflexivity|].
    rewrite Ht. apply IH; assumption.
Qed.

Lemma passes_without_early_stopping (B : Backend)
    (self : FactoredLogistic B) (X : list Row) (y : list Z)
    (vd : option (list Row * list Z)) (p : Prepared B) (n : nat)
    (st : LoopState B) :
  valid_permutations B ->
  vd = None \/ early_stop self = false ->
  prepare self X y vd = Ok p ->
  loop_prefix (pr_cfg p) n (pr_state p) = Some st ->
  loop_guard (pr_cfg p) st = Ok false ->
  n = loop_passes (max_iter self) (batch_size self) (pr_n_samples_ p)
  /\ map (@ds_n_epochs B) (ls_datasets st)
     = map (fun ns =>
              max_iter self
              * Z.of_nat (list_max (map (batches_of (batch_size self))
                                        (pr_n_samples_ p)))
              / Z.of_nat (batches_of (batch_size self) ns))
           (pr_n_samples_ p).
Proof.
  intros Hperm Hoff Hp Hn Hg.
  pose proof (prepare_invariant _ _ _ _ Hp) as Hinv.
  pose proof (prepare_counters_start_at_zero _ _ _ _ Hp) as Hzero.
  pose proof (prepare_slots _ _ _ _ Hp) as (Hmi & _).
  pose proof (prepare_spec _ _ _ _ Hp) as Hspec.
  destruct Hspec as (_ & _ & _ & _ & _ & _ & _ & Hcmi & Hces & Hcdv & _).
  assert (Hinv' : loop_invariant (pr_cfg p) st)
    by (eapply loop_prefix_invariant; eassumption).
  assert (Hflags : do_validation (pr_cfg p) && cfg_early_stop (pr_cfg p)
                   = false).
  { rewrite Hcdv, Hces. destruct Hoff as [-> | ->]; [reflexivity|].
    apply andb_false_r. }
  apply (guard_false_iff Hinv') in Hg.
  assert (Hall : Forall (fun d => max_iter self <= ds_n_epochs d)
                        (ls_datasets st)).
  { rewrite <- Hcmi. destruct Hg as [Hall|(Hv & He & _)]; [exact Hall|].
    rewrite Hv, He in Hflags. discriminate. }
  unfold loop_passes.
  set (K := batches_of (batch_size self)).
  destruct n as [|m].
  - simpl in Hn. inversion Hn; subst st.
    assert (Hmi0 : max_iter self = 0).
    { destruct Hinv as [Hne0 _].
      destruct (ls_datasets (pr_state p)) as [|d l]; [contradiction|].
      inversion Hzero; inversion Hall; subst. lia. }
    rewrite Hmi0. split; [reflexivity|]. apply Forall2_map_eq.
    pose proof (@prepare_cursors B Hperm self X y vd p Hp) as Hcur.
    eapply Forall2_impl; [|exact Hcur].
    intros ns d (H0 & _). rewrite H0. simpl. reflexivity.
  - assert (Htab := @epochs_table B Hperm self X y vd p Hp (S m) st
                     ltac:(lia) Hn).
    fold K in Htab.
    replace (Z.of_nat (S m) - 1) with (Z.of_nat m) in Htab by lia.
    assert (Hlow : Forall (fun k => max_iter self * Z.of_nat k
                                    <= Z.of_nat m)
                          (map K (pr_n_samples_ p))).
    { rewrite Forall_map. clear -Htab Hall.
      induction Htab as [|ns d l l' [HK He] Hf2 IH]; constructor.
      - inversion Hall; subst. rewrite He in *.
        assert (0 < Z.of_nat (K ns)) by lia.
        pose proof (Z.mul_div_le (Z.of_nat m) (Z.of_nat (K ns))
                      ltac:(lia)).
        nia.
      - apply IH. now inversion Hall. }
    apply scaled_list_max in Hlow; [|lia].
    apply loop_prefix_last in Hn.
    destruct Hn as (st1 & Hpre1 & Hg1 & _).
    apply guard_true_behind in Hg1.
    destruct Hg1 as (_ & d & Hin & Hlt). rewrite Hcmi in Hlt.
    assert (Hhigh : Z.of_nat m
                    <= max_iter self
                       * Z.of_nat (list_max (map K (pr_n_samples_ p)))
                    /\ 0 < max_iter self).
    { destruct m as [|m'].
      - simpl in Hpre1. inversion Hpre1; subst st1.
        rewrite Forall_forall in Hzero. rewrite (Hzero d Hin) in Hlt.
        split; [|exact Hlt].
        destruct (pr_n_samples_ p) as [|ns l] eqn:Hnsl.
        + destruct Hinv' as [Hne0 _]. inversion Htab. congruence.
        + inversion Htab as [|? ? ? ? [HK _]]; subst.
          simpl. nia.
      - assert (Htab1 := @epochs_table B Hperm self X y vd p Hp (S m') st1
                        ltac:(lia) Hpre1).
        fold K in Htab1.
        destruct (@Forall2_In_right _ _ _ _ _ d Htab1 Hin)
          as (ns & Hinns & HK & He).
        replace (Z.of_nat (S m') - 1) with (Z.of_nat m') in He by lia.
        rewrite He in Hlt.
        assert (Hle : (K ns <= list_max (map K (pr_n_samples_ p)))%nat).
        { assert (Hmax := proj1 (list_max_le (map K (pr_n_samples_ p))
                                   (list_max (map K (pr_n_samples_ p))))
                                (Nat.le_refl _)).
          rewrite Forall_forall in Hmax. apply Hmax.
          now apply in_map. }
        assert (Hm' : Z.of_nat m' < Z.of_nat (K ns) * max_iter self).
        { destruct (Z_lt_le_dec (Z.of_nat m')
                                (Z.of_nat (K ns) * max_iter self))
            as [Hc|Hc]; [exact Hc|].
          apply Z.div_le_lower_bound in Hc; lia. }
        assert (Hq : 0 <= Z.of_nat m' / Z.of_nat (K ns))
          by (apply Z.div_pos; lia).
        split; [nia|lia]. }
    destruct Hhigh as [Hhigh Hpos].
    assert (Hm : Z.of_nat m
                 = max_iter self
                   * Z.of_nat (list_max (map K (pr_n_samples_ p))))
      by lia.
    split.
    + apply Z.leb_gt in Hpos. rewrite Hpos. rewrite <- Hm.
      now rewrite Nat2Z.id.
    + rewrite <- Hm. apply Forall2_map_eq.
      eapply Forall2_impl; [|exact Htab].
      intros ns d0 [_ He]. exact He.
Qed.

(** X4.  Without early stopping (no validation data, or [early_stop]
    off) the loop of a fit that returns makes exactly [max_iter * K + 1]
    passes, [K] being the largest number of batches per epoch of a
    dataset (and no pass when [max_iter = 0]): [fit] returns exactly
    when it is allowed that many passes.  [n_epochs_] then holds
    [max_iter * K / ceil(n_samples / batch_size)] for every dataset:
    [max_iter] for the largest and more for the others. *)
Theorem epoch_counts_without_early_stopping :
  forall (B : Backend) (fuel : nat) (self self' : FactoredLogistic B)
         (X : list Row) (y : list Z)
         (validation_data : option (list Row * list Z)),
    valid_permutations B ->
    validation_data = None \/ early_stop self = false ->
    fit fuel self X y validation_data = Some (Ok self') ->
    exists f,
      fitted self' = Some f
      /\ n_epochs_ f
         = map (fun ns =>
                  max_iter self
                  * Z.of_nat (list_max (map (batches_of (batch_size self))
                                            (n_samples_ f)))
                  / Z.of_nat (batches_of (batch_size self) ns))
               (n_samples_ f)
      /\ forall fuel',
           fit fuel' self X y validation_data
           = if (loop_passes (max_iter self) (batch_size self)
                             (n_samples_ f) <=? fuel')%nat
             then Some (Ok self') else None.
Proof.
  intros B fuel self self' X y vd Hperm Hoff Hfit.
  apply fit_inv in Hfit. destruct Hfit as (p & st & Hp & Hl & Hf).
  apply training_loop_prefix in Hl. destruct Hl as [Hg [n Hn]].
  destruct (@passes_without_early_stopping B self X y vd p n st Hperm Hoff
              Hp Hn Hg) as [Hpasses Hepochs].
  pose proof (@finish_counts B self self' p st Hf)
    as (f & Hfit & Hns & Hne & _).
  exists f. split; [exact Hfit|]. rewrite Hne, Hns.
  split; [exact Hepochs|].
  intros fuel'. unfold fit. rewrite Hp.
  rewrite (@training_loop_after_passes B (pr_cfg p) n _ _ Hn Hg fuel'),
    <- Hpasses.
  destruct (n <=? fuel')%nat; [now rewrite Hf|reflexivity].
Qed.

Lemma epoch_counts_without_early_stopping_witness :
  exists f,
    fitted (Run.fit_or
              (fit 400 (with_fine_tune false Run.simple) Run.two_X
                   Run.two_y None) Run.simple) = Some f
    /\ n_epochs_ f
       = map (fun ns =>
                2 * Z.of_nat (list_max (map (batches_of 2) (n_samples_ f)))
                / Z.of_nat (batches_of 2 ns))
             (n_samples_ f)
    /\ forall fuel',
         fit fuel' (with_fine_tune false Run.simple) Run.two_X Run.two_y None
         = if (loop_passes 2 2 (n_samples_ f) <=? fuel')%nat
           then Some (Ok (Run.fit_or
                            (fit 400 (with_fine_tune false Run.simple)
                                 Run.two_X Run.two_y None) Run.simple))
           else None.
Proof.
  exact (@epoch_counts_without_early_stopping Run.backend 400%nat
           (with_fine_tune false Run.simple) _ Run.two_X Run.two_y None
           rotation_valid (or_introl eq_refl) run_early_stopper_off).
Defined.

(** X5.  However often the loop reshuffles a dataset, it trains on that
    dataset's own rows, each with its own encoded label: after any
    number of passes the rows held for a dataset, features and labels
    side by side, are a permutation of the rows [fit] selected for its
    id. *)
Theorem shuffles_keep_rows_with_their_labels :
  forall (B : Backend) (self : FactoredLogistic B) (X : list Row)
         (y : list Z) (validation_data : option (list Row * list Z))
         (p : Prepared B) (n : nat) (st : LoopState B),
    valid_permutations B ->
    prepare self X y validation_data = Ok p ->
    loop_prefix (pr_cfg p) n (pr_state p) = Some st ->
    Forall2
      (fun part d =>
         Permutation (training_rows d) (combine (fst part) (snd part)))
      (combine
         (split_by_dataset (Np.unique (map dataset_id X)) (map dataset_id X)
                           (map features X))
         (map Sk.fit_transform
              (split_by_dataset (Np.unique (map dataset_id X))
                                (map dataset_id X) y)))
      (ls_datasets st).
Proof.
  intros B self X y vd p n st Hperm Hp Hpre.
  pose proof (prepare_initial_rows Hperm _ _ _ _ Hp) as Hinit.
  assert (Hrel := @loop_prefix_related B (pr_cfg p)
            (fun d d' =>
               length (ds_X d) = length (ds_y_bin d) ->
               length (ds_X d') = length (ds_y_bin d')
               /\ Permutation (training_rows d') (training_rows d))).
  specialize (Hrel ltac:(intros d Hd; split; [exact Hd|reflexivity])).
  assert (Htrans : forall d1 d2 d3 : DatasetState B,
             (length (ds_X d1) = length (ds_y_bin d1) ->
              length (ds_X d2) = length (ds_y_bin d2)
              /\ Permutation (training_rows d2) (training_rows d1)) ->
             (length (ds_X d2) = length (ds_y_bin d2) ->
              length (ds_X d3) = length (ds_y_bin d3)
              /\ Permutation (training_rows d3) (training_rows d2)) ->
             length (ds_X d1) = length (ds_y_bin d1) ->
             length (ds_X d3) = length (ds_y_bin d3)
             /\ Permutation (training_rows d3) (training_rows d1)).
  { intros d1 d2 d3 H12 H23 H1. destruct (H12 H1) as [H2 P12].
    destruct (H23 H2) as [H3 P23]. split; [exact H3|].
    now rewrite P23. }
  specialize (Hrel Htrans).
  assert (Hstep : forall stop (d d' : DatasetState B),
             stepped (pr_cfg p) (reset_flag (pr_cfg p) stop d) d' ->
             length (ds_X d) = length (ds_y_bin d) ->
             length (ds_X d') = length (ds_y_bin d')
             /\ Permutation (training_rows d') (training_rows d)).
  { intros stop d d' Hs Hd.
    destruct (reset_flag_cursor (pr_cfg p) stop d) as (_ & _ & HX & Hy).
    apply (stepped_rows Hperm) in Hs; [|now rewrite HX, Hy].
    unfold training_rows in *. now rewrite HX, Hy in Hs. }
  specialize (Hrel Hstep n _ _ Hpre).
  eapply Forall2_impl; [|exact (Forall2_compose Hinit Hrel)].
  intros part d (d0 & (_ & _ & Hlen & _ & P0) & Hr). simpl.
  destruct (Hr Hlen) as [_ P]. now rewrite P.
Qed.

Lemma shuffles_keep_rows_with_their_labels_witness :
  Forall2
    (fun part d =>
       Permutation (training_rows d) (combine (fst part) (snd part)))
    (combine
       (split_by_dataset (Np.unique (map dataset_id Run.two_X))
                         (map dataset_id Run.two_X)
                         (map features Run.two_X))
       (map Sk.fit_transform
            (split_by_dataset (Np.unique (map dataset_id Run.two_X))
                              (map dataset_id Run.two_X) Run.two_y)))
    (ls_datasets (state_after 16)).
Proof.
  exact (@shuffles_keep_rows_with_their_labels Run.backend
           Run.early_stopper Run.two_X Run.two_y
           (Some (Run.two_X_val, Run.two_y_val)) Run.prepared 16%nat
           (state_after 16) rotation_valid run_prepared
           run_sixteen_passes).
Defined.

(** ** The arguments [fit] rejects *)

Lemma check_X_y_cases (X : list Row) (y : list Z) :
  check_X_y X y = Raise ValueError
  \/ (check_X_y X y = Ok (X, y) /\ X <> [] /\ length X = length y).
Proof.
  unfold check_X_y, check_array. destruct X as [|r0 X0]; [now left|].
  destruct (_ && _); cbn [bind]; [|now left].
  destruct (Nat.eqb (length (r0 :: X0)) (length y)) eqn:Hlen; [|now left].
  apply Nat.eqb_eq in Hlen. right. repeat split; [discriminate|exact Hlen].
Qed.

Lemma check_random_state_cases (B : Backend) (rs : RandomState B) :
  check_random_state rs = Raise ValueError
  \/ ((exists g, check_random_state rs = Ok g)
      /\ forall s, rs = RS_Seed s -> 0 <= s < 2 ^ 32).
Proof.
  destruct rs as [|s|g]; unfold check_random_state.
  - right. split; [eauto|discriminate].
  - destruct (0 <=? s) eqn:H0; [|left; reflexivity].
    destruct (s <? 2 ^ 32) eqn:H1; [|left; reflexivity].
    right. split; [eexists; reflexivity|]. intros s' Hs.
    inversion Hs; subst.
    apply Z.leb_le in H0. apply Z.ltb_lt in H1. lia.
  - right. split; [eauto|discriminate].
Qed.

(** X6.  [fit] raises [ValueError], whatever else it is given and before
    any model is built, when [max_iter] is negative, when there is no
    training row, when rows and labels differ in number, when the seed
    in [random_state] is outside [0 .. 2^32), or when the validation
    data has no row or rows and labels that differ in number. *)
Theorem fit_rejects_invalid_arguments :
  forall (B : Backend) (fuel : nat) (self : FactoredLogistic B)
         (X : list Row) (y : list Z)
         (validation_data : option (list Row * list Z)),
    max_iter self < 0
    \/ X = []
    \/ length X <> length y
    \/ (exists s, random_state self = RS_Seed s /\ (s < 0 \/ 2 ^ 32 <= s))
    \/ (exists X_val y_val,
          validation_data = Some (X_val, y_val)
          /\ (X_val = [] \/ length X_val <> length y_val)) ->
    fit fuel self X y validation_data = Some (Raise ValueError).
Proof.
  intros B fuel self X y vd Hbad.
  assert (Hp : prepare self X y vd = Raise ValueError).
  { unfold prepare.
    destruct (max_iter self <? 0) eqn:Hmi; [reflexivity|].
    apply Z.ltb_ge in Hmi.
    destruct (check_X_y_cases X y) as [HR|(HO & Hne & Hlen)];
      [rewrite HR; reflexivity|].
    rewrite HO. cbn [bind].
    destruct (check_random_state_cases (random_state self))
      as [HR|((g & HO2) & Hseed)]; [rewrite HR; reflexivity|].
    rewrite HO2. cbn [bind].
    destruct vd as [[Xv yv]|].
    - destruct (check_X_y_cases Xv yv) as [HR|(HO3 & Hnev & Hlenv)];
        [rewrite HR; reflexivity|].
      exfalso.
      destruct Hbad as [H|[H|[H|[(s & Hs & H)|(Xv' & yv' & Hv & H)]]]];
        try lia; try contradiction.
      + specialize (Hseed s Hs). lia.
      + inversion Hv; subst. destruct H; contradiction.
    - exfalso.
      destruct Hbad as [H|[H|[H|[(s & Hs & H)|(Xv' & yv' & Hv & H)]]]];
        try lia; try contradiction; try discriminate.
      specialize (Hseed s Hs). lia. }
  unfold fit. now rewrite Hp.
Qed.

Lemma fit_rejects_invalid_arguments_witness :
  fit 10 negative_max_iter Run.two_X Run.two_y None
  = Some (Raise ValueError).
Proof.
  apply fit_rejects_invalid_arguments. left. vm_compute. reflexivity.
Defined.

(** ** The attributes [fit] leaves on the estimator *)

Lemma count_true_count_occ (datasets : list Z) (d : Z) :
  Np.count_true (Np.eq_mask datasets d) = count_occ Z.eq_dec datasets d.
Proof.
  unfold Np.count_true, Np.eq_mask.
  induction datasets as [|x ds IH]; simpl; [reflexivity|].
  destruct (Z.eq_dec x d) as [->|Hne].
  - rewrite Z.eqb_refl. simpl. now rewrite IH.
  - apply Z.eqb_neq in Hne. rewrite Hne. exact IH.
Qed.

Lemma Forall2_map_right_intro {A C : Type} (R : A -> C -> Prop)
    (g : A -> C) (l : list A) :
  (forall a, In a l -> R a (g a)) -> Forall2 R l (map g l).
Proof.
  induction l as [|a l IH]; intros H; simpl; constructor.
  - apply H. now left.
  - apply IH. intros a' Ha'. apply H. now right.
Qed.

Lemma fit_attributes (B : Backend) (fuel : nat)
    (self self' : FactoredLogistic B) (X : list Row) (y : list Z)
    (validation_data : option (list Row * list Z)) :
  fit fuel self X y validation_data = Some (Ok self') ->
  length X = length y
  /\ exists f,
       fitted self' = Some f
       /\ datasets_ f = Np.unique (map dataset_id X)
       /\ classes_list_ f
          = map Np.unique
              (split_by_dataset (Np.unique (map dataset_id X))
                                (map dataset_id X) y)
       /\ n_samples_ f
          = map (@length Row)
              (split_by_dataset (Np.unique (map dataset_id X))
                                (map dataset_id X) (map features X)).
Proof.
  intros H. apply fit_inv in H. destruct H as (p & st & Hp & _ & Hf).
  pose proof (prepare_slots _ _ _ _ Hp) as (_ & Hlen & Hcl & Hns & _).
  pose proof (prepare_spec _ _ _ _ Hp) as (Hd & _).
  apply finish_counts in Hf.
  destruct Hf as (f & Hfit & Hfns & _ & Hfd & Hfcl).
  split; [exact Hlen|]. exists f.
  rewrite Hfns, Hfd, Hfcl. auto.
Qed.

(** X7.  After [fit], [n_samples_] holds for every dataset id of
    [datasets_], in that order, the number of training rows carrying that
    id; each entry is at least 1 and the entries add up to the number of
    training rows. *)
Theorem n_samples_count_the_rows_of_each_dataset :
  forall (B : Backend) (fuel : nat) (self self' : FactoredLogistic B)
         (X : list Row) (y : list Z)
         (validation_data : option (list Row * list Z)),
    fit fuel self X y validation_data = Some (Ok self') ->
    exists f,
      fitted self' = Some f
      /\ Forall2 (fun id n =>
                    n = count_occ Z.eq_dec (map dataset_id X) id
                    /\ (1 <= n)%nat)
                 (datasets_ f) (n_samples_ f)
      /\ list_sum (n_samples_ f) = length X.
Proof.
  intros B fuel self self' X y vd Hfit.
  apply fit_attributes in Hfit.
  destruct Hfit as (Hlen & f & Hf & Hd & _ & Hns).
  exists f. split; [exact Hf|]. rewrite Hd, Hns. split.
  - unfold split_by_dataset. rewrite map_map.
    apply Forall2_map_right_intro. intros id Hin.
    rewrite select_count
      by (unfold Np.eq_mask; now rewrite !length_map).
    rewrite count_true_count_occ. split; [reflexivity|].
    apply (proj1 (unique_In _ _)) in Hin.
    apply (count_occ_In Z.eq_dec) in Hin. lia.
  - rewrite <- length_concat.
    rewrite (Permutation_length
               (@split_by_dataset_permutation _
                  (Np.unique (map dataset_id X)) (map dataset_id X)
                  (map features X) (unique_NoDup _)
                  (fun d Hd0 => proj2 (unique_In d _) Hd0)
                  ltac:(now rewrite !length_map))).
    apply length_map.
Qed.

Lemma n_samples_count_the_rows_of_each_dataset_witness :
  exists f,
    fitted (Run.fit_or
              (fit 400 (with_fine_tune false Run.simple) Run.two_X
                   Run.two_y None) Run.simple) = Some f
    /\ Forall2 (fun id n =>
                  n = count_occ Z.eq_dec (map dataset_id Run.two_X) id
                  /\ (1 <= n)%nat)
               (datasets_ f) (n_samples_ f)
    /\ list_sum (n_samples_ f) = length Run.two_X.
Proof.
  exact (@n_samples_count_the_rows_of_each_dataset Run.backend 400%nat
           (with_fine_tune false Run.simple) _ Run.two_X Run.two_y None
           run_early_stopper_off).
Defined.

(** X8.  After [fit], [datasets_] lists the dataset ids of the training
    rows in strictly ascending order, and [classes_list_] holds for each
    of them, in that order, the labels seen on the rows of that dataset:
    a non-empty, strictly ascending list that contains a label exactly
    when some training row of the dataset carries it. *)
Theorem classes_list_holds_the_labels_of_each_dataset :
  forall (B : Backend) (fuel : nat) (self self' : FactoredLogistic B)
         (X : list Row) (y : list Z)
         (validation_data : option (list Row * list Z)),
    fit fuel self X y validation_data = Some (Ok self') ->
    exists f,
      fitted self' = Some f
      /\ StronglySorted Z.lt (datasets_ f)
      /\ (forall id, In id (datasets_ f) <-> In id (map dataset_id X))
      /\ Forall2 (fun id classes =>
                    StronglySorted Z.lt classes
                    /\ classes <> []
                    /\ forall c, In c classes
                                 <-> In (id, c) (combine (map dataset_id X) y))
                 (datasets_ f) (classes_list_ f).
Proof.
  intros B fuel self self' X y vd Hfit.
  apply fit_attributes in Hfit.
  destruct Hfit as (Hlen & f & Hf & Hd & Hcl & _).
  exists f. split; [exact Hf|]. rewrite Hd, Hcl.
  split; [apply unique_sorted|]. split; [intros id; apply unique_In|].
  unfold split_by_dataset. rewrite map_map.
  apply Forall2_map_right_intro. intros id Hin.
  split; [apply unique_sorted|]. split.
  - apply unique_nonempty. intros Hnil.
    apply (f_equal (@length Z)) in Hnil.
    rewrite select_count in Hnil
      by (unfold Np.eq_mask; now rewrite !length_map).
    apply (proj1 (unique_In _ _)) in Hin.
    apply count_true_eq_mask in Hin.
    apply Nat.ltb_lt in Hin. simpl in Hnil. lia.
  - intros c. rewrite unique_In, select_eq_mask_filter, in_map_iff. split.
    + intros ([id' c'] & Hc & Hin'). simpl in Hc. subst c'.
      apply filter_In in Hin'. destruct Hin' as [Hin' Hid]. simpl in Hid.
      apply Z.eqb_eq in Hid. now subst id'.
    + intros Hin'. exists (id, c). split; [reflexivity|].
      apply filter_In. split; [exact Hin'|]. simpl. apply Z.eqb_refl.
Qed.

Lemma classes_list_holds_the_labels_of_each_dataset_witness :
  exists f,
    fitted (Run.fit_or
              (fit 400 (with_fine_tune false Run.simple) Run.two_X
                   Run.two_y None) Run.simple) = Some f
    /\ StronglySorted Z.lt (datasets_ f)
    /\ (forall id, In id (datasets_ f) <-> In id (map dataset_id Run.two_X))
    /\ Forall2 (fun id classes =>
                  StronglySorted Z.lt classes
                  /\ classes <> []
                  /\ forall c, In c classes
                               <-> In (id, c)
                                      (combine (map dataset_id Run.two_X)
                                               Run.two_y))
               (datasets_ f) (classes_list_ f).
Proof.
  exact (@classes_list_holds_the_labels_of_each_dataset Run.backend 400%nat
           (with_fine_tune false Run.simple) _ Run.two_X Run.two_y None
           run_early_stopper_off).
Defined.

(** ** A batch size of zero *)

Lemma run_zero_prepared :
  prepare zero_batches Run.two_X Run.two_y None = Ok zero_prepared.
Proof. apply result_or_ok. vm_compute. reflexivity. Qed.

(** X9.  With [batch_size = 0] and [max_iter > 0], arguments that pass
    the validation and the model construction make [fit] raise the
    division by zero of [gen_batches] in the first pass of the loop, at
    the first [next] on a batch generator. *)
Theorem zero_batch_size_raises_in_the_first_pass :
  forall (B : Backend) (fuel : nat) (self : FactoredLogistic B)
         (X : list Row) (y : list Z)
         (validation_data : option (list Row * list Z)) (p : Prepared B),
    batch_size self = 0%nat ->
    0 < max_iter self ->
    prepare self X y validation_data = Ok p ->
    fit (S fuel) self X y validation_data = Some (Raise ZeroDivisionError).
Proof.
  intros B fuel self X y vd p Hbs Hmi Hp.
  pose proof (prepare_invariant _ _ _ _ Hp) as [Hne Hstop].
  pose proof (prepare_counters_start_at_zero _ _ _ _ Hp) as Hzero.
  pose proof (prepare_spec _ _ _ _ Hp)
    as (_ & _ & _ & _ & _ & Hst & _ & Hcmi & _).
  pose proof (prepare_slots _ _ _ _ Hp)
    as (_ & _ & _ & _ & Hcbs & models & val_list & rng & _ & _ & _ & Hds).
  assert (Hnone : Forall (fun d => ds_batches d = None)
                         (ls_datasets (pr_state p))).
  { rewrite Hds. eapply Forall2_right; [apply init_datasets_fields|].
    intros slot d (_ & _ & _ & Hb & _). rewrite Hb, Hcbs, Hbs.
    reflexivity. }
  unfold fit. rewrite Hp. simpl.
  assert (Hg : loop_guard (pr_cfg p) (pr_state p) = Ok true).
  { unfold loop_guard, min_epochs. rewrite Hst.
    destruct (ls_datasets (pr_state p)) as [|d l]; [contradiction|].
    simpl. f_equal. apply Z.ltb_lt. rewrite Hcmi.
    destruct (fold_min_le l (ds_n_epochs d)) as [Hle _].
    inversion Hzero; subst. lia. }
  rewrite Hg.
  assert (Ht : tick (pr_cfg p) (pr_state p) = Raise ZeroDivisionError).
  { unfold tick.
    destruct (ls_datasets (pr_state p)) as [|d l]; [contradiction|].
    inversion Hnone as [|? ? Hd _]; subst.
    destruct (do_validation (pr_cfg p)); simpl;
      unfold model_step; simpl; rewrite Hd; reflexivity. }
  now rewrite Ht.
Qed.

Lemma zero_batch_size_raises_in_the_first_pass_witness :
  fit 1 zero_batches Run.two_X Run.two_y None
  = Some (Raise ZeroDivisionError).
Proof.
  refine (@zero_batch_size_raises_in_the_first_pass Run.backend 0%nat
            zero_batches Run.two_X Run.two_y None zero_prepared _ _
            run_zero_prepared).
  - reflexivity.
  - reflexivity.
Defined.

(** ** Fine-tuning on a graph with a dropout layer *)

Lemma run_dropping :
  fit 10 dropping Run.X_id0 Run.y_three None = Some (Ok fitted_dropping).
Proof. apply fit_or_returned. vm_compute. reflexivity. Qed.

(** X10.  A factored estimator with fine-tuning on and a positive
    dropout rate: after [fit] the shared encoder is frozen, the dropout
    layer has rate 0, every per-dataset model has a tenth of Adam's
    default learning rate, and [fine_tune] is still set. *)
Theorem fit_with_dropout_freezes_the_encoder :
  forall (B : Backend) (fuel : nat) (self self' : FactoredLogistic B)
         (X : list Row) (y : list Z)
         (validation_data : option (list Row * list Z)) (k : nat),
    latent_dim self = Some k ->
    fine_tune self = true ->
    (0 < dropout self)%Q ->
    fit fuel self X y validation_data = Some (Ok self') ->
    fine_tune self' = true
    /\ exists f,
         fitted self' = Some f
         /\ nth_error (layers_ f) 1
            = Some {| Keras.l_role := Keras.Encoded; Keras.l_units := k;
                      Keras.l_trainable := false; Keras.l_rate := None |}
         /\ nth_error (layers_ f) 2
            = Some {| Keras.l_role := Keras.DropoutLayer; Keras.l_units := k;
                      Keras.l_trainable := true; Keras.l_rate := Some 0%Q |}
         /\ Forall (fun m => Keras.m_lr m = (Keras.adam_lr * (1 # 10))%Q)
                   (models_ f).
Proof.
  intros B fuel self self' X y vd k Hk Hft Hdrop Hfit.
  apply fit_inv in Hfit. destruct Hfit as (p & st & Hp & Hl & Hf).
  pose proof (prepare_spec _ _ _ _ Hp) as Hspec.
  destruct Hspec as (_ & Hne & _ & Hlen & Hlr0 & _ & Hpft & _ & _ & _ & nf
                     & Hmk).
  rewrite Hk in Hmk, Hpft. rewrite Hft in Hpft.
  pose proof (training_loop_graph _ _ _ Hl) as Hgraph.
  assert (Hlr : Forall (fun d => Keras.m_lr (ds_model d) = Keras.adam_lr)
                       (ls_datasets st)).
  { eapply Forall2_Forall; [exact Hgraph|exact Hlr0|].
    intros d d' (_ & Heq) (Hd & _). simpl. congruence. }
  assert (Hnest : ls_datasets st <> []).
  { apply Forall2_length in Hgraph. intros Hnil. rewrite Hnil in Hgraph.
    rewrite Hlen in Hgraph. simpl in Hgraph.
    destruct (pr_datasets_ p); [contradiction|discriminate]. }
  assert (Hmodels : map (@ds_model B) (ls_datasets st)
                    = map (@ds_model B) (ls_datasets st)) by reflexivity.
  pose proof (make_factored_model_spec _ _ _ _ Hmk)
    as (_ & _ & H0 & H1 & Hdepth).
  destruct (Qlt_le_dec 0 (dropout self)) as [_|Hle];
    [|exfalso; eapply Qlt_not_le; eassumption].
  destruct Hdepth as [H2 Hdepth].
  pose proof (fit_models_depths _ _ _ _ _ Hp Hl Hdepth) as Hds.
  destruct (fine_tune_stage_spec (pr_cfg p) Hds
              (cfg_layers (pr_cfg p)) (ls_weights st))
    as (ds' & w' & Heq & Hf2 & _).
  apply finish_inv in Hf.
  destruct Hf as (_ & Hft' & _ & _ & _ & _ & _ & f & Hfit & _ & _ & _ & _ & _
                  & _ & _ & Hstage).
  split; [congruence|].
  destruct (Hstage Hpft) as (ds & Hs & Hm).
  rewrite Heq in Hs.
  exists f. split; [exact Hfit|].
  destruct (ls_datasets st) as [|d l] eqn:Hdsl; [contradiction|].
  inversion Hs as [[Hds' Hlayers Hw]].
  unfold frozen at 1 2. rewrite !nth_error_update. cbn [Nat.eqb].
  rewrite H1, H2. repeat split.
  rewrite Hm, Forall_map, <- Hds'.
  eapply Forall2_Forall; [exact Hf2|exact Hlr|].
  intros a b (Hb & _) Ha. simpl in *. now rewrite Hb, Ha.
Qed.

Lemma fit_with_dropout_freezes_the_encoder_witness :
  fine_tune fitted_dropping = true
  /\ exists f,
       fitted fitted_dropping = Some f
       /\ nth_error (layers_ f) 1
          = Some {| Keras.l_role := Keras.Encoded; Keras.l_units := 2;
                    Keras.l_trainable := false; Keras.l_rate := None |}
       /\ nth_error (layers_ f) 2
          = Some {| Keras.l_role := Keras.DropoutLayer; Keras.l_units := 2;
                    Keras.l_trainable := true; Keras.l_rate := Some 0%Q |}
       /\ Forall (fun m => Keras.m_lr m = (Keras.adam_lr * (1 # 10))%Q)
                 (models_ f).
Proof.
  refine (@fit_with_dropout_freezes_the_encoder Run.backend 10%nat dropping
            fitted_dropping Run.X_id0 Run.y_three None 2%nat _ _ _
            run_dropping).
  - reflexivity.
  - reflexivity.
  - reflexivity.
Defined.

(** ** The graphs built by the model constructors *)

Lemma nth_error_app_keep {A : Type} (h ext : list A) (id : nat) (x : A) :
  nth_error h id = Some x -> nth_error (h ++ ext) id = Some x.
Proof.
  intros H. rewrite nth_error_app1; [exact H|].
  apply nth_error_Some. congruence.
Qed.

Lemma chain_depths_output (trunk : list nat) (sup act : nat)
    (m : Keras.Model) :
  Keras.m_layers_by_depth m = Keras.chain_depths (trunk ++ [sup; act]) ->
  Keras.layer_at_depth m 0 = Ok act.
Proof.
  intros H. unfold Keras.layer_at_depth. rewrite H.
  unfold Keras.chain_depths. rewrite rev_app_distr. reflexivity.
Qed.

Lemma build_heads_units (trunk : list nat) (cl : list (list Z)) :
  forall (i : nat) (h h' : Keras.Heap) (models : list Keras.Model)
         (sups : list nat),
    Keras.build_heads trunk i cl h = (h', models, sups) ->
    length sups = length cl
    /\ Forall2
         (fun classes m =>
            exists out,
              Keras.layer_at_depth m 0 = Ok out
              /\ option_map Keras.l_units (nth_error h' out)
                 = Some (length classes))
         cl models.
Proof.
  induction cl as [|classes rest IH]; intros i h h' models sups Hb;
    simpl in Hb.
  - inversion Hb; subst. split; [reflexivity|constructor].
  - destruct (Keras.build_heads trunk (S i) rest _)
      as [[h3 models3] sups3] eqn:Hrec.
    inversion Hb; subst.
    pose proof (build_heads_spec _ _ _ _ Hrec) as ((ext & Hext) & _).
    apply IH in Hrec. destruct Hrec as [Hlen Hall].
    split; [simpl; now rewrite Hlen|].
    constructor; [|exact Hall].
    exists (length (h ++ [Keras.new_layer (Keras.Supervised i)
                            (length classes) None])).
    split.
    + eapply chain_depths_output. reflexivity.
    + rewrite Hext.
      rewrite (@nth_error_app_keep _ _ ext _
                 (Keras.new_layer (Keras.Softmax i) (length classes) None));
        [reflexivity|].
      rewrite nth_error_app2 by lia. now rewrite Nat.sub_diag.
Qed.

Lemma build_stacked_units (trunk sups : list nat) (total : nat)
    (h : Keras.Heap) :
  sups <> [] ->
  exists ext stacked out,
    Keras.build_stacked trunk sups total h = Ok (h ++ ext, stacked)
    /\ Keras.layer_at_depth stacked 0 = Ok out
    /\ option_map Keras.l_units (nth_error (h ++ ext) out) = Some total.
Proof.
  intros Hne. destruct sups as [|sup [|sup2 sups]]; [contradiction| |].
  - simpl. eexists _, _, (length h). split; [reflexivity|]. split.
    + eapply chain_depths_output. reflexivity.
    + rewrite nth_error_app2 by lia. now rewrite Nat.sub_diag.
  - simpl.
    exists [Keras.new_layer Keras.ConcatenateLayer total None;
            Keras.new_layer Keras.StackedSoftmax total None].
    eexists _, (length (h ++ [Keras.new_layer Keras.ConcatenateLayer
                                total None])).
    split; [now rewrite <- app_assoc|]. split; [reflexivity|].
    rewrite length_app. simpl.
    rewrite nth_error_app2 by lia.
    replace (length h + 1 - length h)%nat with 1%nat by lia. reflexivity.
Qed.

Lemma heads_then_stacked (trunk : list nat) (cl : list (list Z))
    (h1 : Keras.Heap) :
  heads_sized cl
    (let '(h2, models, sups) := Keras.build_heads trunk O cl h1 in
     '(h3, stacked) <-
       Keras.build_stacked trunk sups (Keras.total_classes cl) h2 ;;
     Ok (h3, models, stacked)).
Proof.
  destruct (Keras.build_heads trunk O cl h1) as [[h2 models] sups] eqn:Hb.
  pose proof (build_heads_units _ _ _ _ Hb) as [Hlen Hall].
  destruct cl as [|classes rest].
  - simpl in Hb. inversion Hb; subst. reflexivity.
  - assert (Hne : sups <> [])
      by (intros ->; discriminate).
    destruct (build_stacked_units trunk (Keras.total_classes (classes :: rest))
                h2 Hne) as (ext & stacked & out & Hs & Hout & Hunits).
    unfold heads_sized. rewrite Hs. cbn [bind].
    exists (h2 ++ ext), models, stacked. split; [reflexivity|]. split.
    + eapply Forall2_impl; [|exact Hall].
      intros c m (o & Ho & Hu). exists o. split; [exact Ho|].
      destruct (nth_error h2 o) as [l|] eqn:Hn; [|discriminate].
      now rewrite (nth_error_app_keep _ ext _ Hn).
    + exists out. auto.
Qed.

(** X11.  Both model constructors size the heads by the class sets:
    model [i] ends in an output layer with [len(classes_list[i])] units,
    the stacked model in one with as many units as all class sets
    together, and an empty [classes_list] makes them raise the
    [IndexError] of [supervised_list[0]]. *)
Theorem constructors_size_each_head_by_its_class_set :
  forall (n_features : nat) (classes_list : list (list Z)) (latent_dim : nat)
         (dropout : Q),
    heads_sized classes_list
      (Keras.make_factored_model n_features classes_list latent_dim dropout)
    /\ heads_sized classes_list
         (Keras.make_simple_model n_features classes_list dropout).
Proof.
  intros nf cl latent drop.
  unfold Keras.make_factored_model, Keras.make_simple_model.
  destruct (Qlt_le_dec 0 drop); split; apply heads_then_stacked.
Qed.

(** ** [predict] *)

Lemma unmatched_count (datasets_ datasets : list Z) :
  (0 <? Np.count_true (unmatched_mask datasets_ datasets))%nat = true
  <-> exists d, In d datasets_ /\ ~ In d datasets.
Proof.
  unfold Np.count_true, unmatched_mask. rewrite Nat.ltb_lt.
  induction datasets_ as [|d0 l IH]; simpl.
  - split; [lia|intros (d & [] & _)].
  - destruct (existsb (fun x => d0 =? x) datasets) eqn:He; simpl.
    + rewrite IH. split.
      * intros (d & Hin & Hnot). exists d. auto.
      * intros (d & [->|Hin] & Hnot); [|eauto].
        exfalso. apply Hnot. apply existsb_exists in He.
        destruct He as (x & Hx & Heq). apply Z.eqb_eq in Heq. now subst.
    + split; [|lia]. intros _. exists d0. split; [now left|].
      intros Hin. assert (Ht : existsb (fun x => d0 =? x) datasets = true).
      { apply existsb_exists. exists d0. split; [exact Hin|apply Z.eqb_refl]. }
      congruence.
Qed.

(** X12.  [predict] compares the fitted dataset ids with the ids of the
    rows along the wrong axis, so its mask of unmatched rows has one
    entry per fitted dataset: when the rows leave out a dataset the
    estimator was fitted on, and the number of rows is not the number of
    fitted datasets, [predict] raises [IndexError]. *)
Theorem predict_raises_when_a_fitted_dataset_is_absent :
  forall (B : Backend) (fuel : nat) (self0 self : FactoredLogistic B)
         (X_train : list Row) (y_train : list Z)
         (validation_data : option (list Row * list Z))
         (X : list Row) (d : Z),
    fit fuel self0 X_train y_train validation_data = Some (Ok self) ->
    is_ok (check_array X) = true ->
    In d (map dataset_id X_train) ->
    ~ In d (map dataset_id X) ->
    length X <> length (Np.unique (map dataset_id X_train)) ->
    predict self X = Raise IndexError.
Proof.
  intros B fuel self0 self Xtr ytr vd X d Hfit Hcheck Hd Hnot Hlen.
  apply fit_fitted in Hfit. destruct Hfit as (f & Hf & Hds & _).
  unfold predict.
  destruct (check_array X) as [X'|e] eqn:Hc; [|discriminate].
  apply check_array_Ok in Hc. destruct Hc as [-> _]. cbn [bind].
  unfold get_fitted. rewrite Hf. cbn [bind].
  assert (Hcount : (0 <? Np.count_true
                          (unmatched_mask (datasets_ f) (map dataset_id X)))%nat
                   = true).
  { apply unmatched_count. exists d. split; [|exact Hnot].
    rewrite Hds. now apply unique_In. }
  rewrite Hcount. unfold Np.bool_index, unmatched_mask.
  rewrite !length_map, Hds.
  destruct (Nat.eqb (length (Np.unique (map dataset_id Xtr))) (length X))
    eqn:E; [|reflexivity].
  apply Nat.eqb_eq in E. congruence.
Qed.

Lemma run_fitted_two :
  fit 400 (with_fine_tune false Run.simple) Run.two_X Run.two_y None
  = Some (Ok fitted_two).
Proof. exact run_early_stopper_off. Qed.

Lemma predict_raises_when_a_fitted_dataset_is_absent_witness :
  predict fitted_two one_row_of_dataset_0 = Raise IndexError.
Proof.
  refine (@predict_raises_when_a_fitted_dataset_is_absent Run.backend
            400%nat (with_fine_tune false Run.simple) fitted_two Run.two_X
            Run.two_y None one_row_of_dataset_0 1 run_fitted_two _ _ _ _).
  - reflexivity.
  - vm_compute. right. right. right. left. reflexivity.
  - vm_compute. intros [H|[]]. discriminate.
  - vm_compute. discriminate.
Defined.

Lemma put_mask_length {A : Type} (mask : list bool) :
  forall pred values : list A,
    length (Np.put_mask mask pred values) = length pred.
Proof.
  induction mask as [|b mask IH]; intros [|p pred] values; simpl;
    try reflexivity.
  destruct b; [destruct values|]; simpl; now rewrite IH.
Qed.

Lemma put_mask_select {A : Type} (mask : list bool) :
  forall pred values : list A,
    length mask = length pred ->
    Np.count_true mask = length values ->
    Np.select mask (Np.put_mask mask pred values) = values.
Proof.
  unfold Np.count_true.
  induction mask as [|b mask IH]; intros [|p pred] values Hlen Hcount;
    simpl in *; try discriminate.
  - now destruct values.
  - destruct b; simpl in *.
    + destruct values as [|v values]; [discriminate|]. simpl in *.
      f_equal. apply IH; lia.
    + apply IH; lia.
Qed.

Lemma put_mask_off {A : Type} (mask : list bool) :
  forall (pred values : list A) (k : nat),
    nth_error mask k = Some false ->
    nth_error (Np.put_mask mask pred values) k = nth_error pred k.
Proof.
  induction mask as [|b mask IH]; intros [|p pred] values k Hk;
    simpl; try reflexivity.
  destruct k as [|k]; simpl in Hk.
  - inversion Hk; subst. reflexivity.
  - destruct b; [destruct values|]; simpl; now apply IH.
Qed.

Lemma select_agree {A : Type} (mask : list bool) :
  forall p p' : list A,
    length p = length p' ->
    (forall k, nth_error mask k = Some true ->
               nth_error p k = nth_error p' k) ->
    Np.select mask p = Np.select mask p'.
Proof.
  induction mask as [|b mask IH]; intros [|x p] [|x' p'] Hlen Hag;
    simpl in *; try reflexivity; try discriminate.
  assert (Hrest : Np.select mask p = Np.select mask p').
  { apply IH; [lia|]. intros k Hk. exact (Hag (S k) Hk). }
  destruct b; [|exact Hrest].
  specialize (Hag O eq_refl). simpl in Hag. inversion Hag; subst.
  now rewrite Hrest.
Qed.

Lemma eq_mask_nth (datasets : list Z) (d : Z) (k : nat) (b : bool) :
  nth_error (Np.eq_mask datasets d) k = Some b ->
  exists x, nth_error datasets k = Some x /\ b = (x =? d).
Proof.
  unfold Np.eq_mask. rewrite nth_error_map.
  destruct (nth_error datasets k) as [x|]; simpl; [|discriminate].
  intros H; inversion H. eauto.
Qed.

Section PredictLoop.

Variable B : Backend.
Variable self : FactoredLogistic B.
Variable f : Fitted B.
Hypothesis Hf : fitted self = Some f.
Variables (datasets : list Z) (X : list Row).
Hypothesis Hlen : length datasets = length X.

Lemma predict_dataset_absent (d : Z) (pred : list Z) :
  ~ In d datasets -> predict_dataset self f datasets X pred d = Ok pred.
Proof.
  intros Hnot. unfold predict_dataset.
  rewrite count_true_count_occ.
  rewrite (proj1 (count_occ_not_In Z.eq_dec datasets d) Hnot).
  reflexivity.
Qed.

Lemma predict_dataset_present (d : Z) (pred pred1 : list Z) :
  In d datasets ->
  length pred = length datasets ->
  predict_dataset self f datasets X pred d = Ok pred1 ->
  length pred1 = length datasets
  /\ labelled f datasets X d pred1
  /\ forall k x, nth_error datasets k = Some x -> x <> d ->
                 nth_error pred1 k = nth_error pred k.
Proof.
  intros Hin Hp. unfold predict_dataset, labelled.
  rewrite (count_true_eq_mask _ _ Hin).
  unfold Np.bool_index. unfold Np.eq_mask at 1.
  rewrite length_map, Hlen, Nat.eqb_refl. cbn [bind].
  destruct (Np.index (classes_list_ f) d) as [classes|e] eqn:Hc;
    cbn [bind]; [|discriminate].
  unfold predict_proba, get_fitted. rewrite Hf. cbn [bind].
  destruct (Np.where_first (datasets_ f) d) as [idx|e] eqn:Hw;
    cbn [bind]; [|discriminate].
  destruct (Np.index (models_ f) (Z.of_nat idx)) as [model|e] eqn:Hm;
    cbn [bind]; [|discriminate].
  destruct (Np.take classes _) as [labels|e] eqn:Ht; cbn [bind];
    [|discriminate].
  unfold Np.mask_assign.
  destruct (Nat.eqb (length (Np.eq_mask datasets d)) (length pred)) eqn:E1;
    [|discriminate].
  destruct (Nat.eqb (Np.count_true (Np.eq_mask datasets d)) (length labels))
    eqn:E2; [|discriminate].
  apply Nat.eqb_eq in E1. apply Nat.eqb_eq in E2.
  intros H; inversion H; subst pred1; clear H.
  split; [rewrite put_mask_length; congruence|]. split.
  - exists classes, idx, model. repeat split; try assumption.
    rewrite Ht. f_equal. symmetry. now apply put_mask_select.
  - intros k x Hk Hne. apply put_mask_off.
    unfold Np.eq_mask. rewrite nth_error_map, Hk. simpl.
    f_equal. now apply Z.eqb_neq.
Qed.

Lemma predict_datasets_ok (todo : list Z) :
  NoDup todo ->
  forall pred pred' : list Z,
    length pred = length datasets ->
    predict_datasets self f datasets X pred todo = Ok pred' ->
    length pred' = length datasets
    /\ (forall d, In d todo -> In d datasets -> labelled f datasets X d pred')
    /\ forall k x, nth_error datasets k = Some x -> ~ In x todo ->
                   nth_error pred' k = nth_error pred k.
Proof.
  induction 1 as [|d rest Hnotin Hnd IH]; intros pred pred' Hp Hrun;
    simpl in Hrun.
  - inversion Hrun; subst. repeat split; [exact Hp|contradiction].
  - destruct (predict_dataset self f datasets X pred d) as [pred1|e] eqn:H1;
      cbn [bind] in Hrun; [|discriminate].
    destruct (in_dec Z.eq_dec d datasets) as [Hin|Hout].
    + destruct (@predict_dataset_present d pred pred1 Hin Hp H1)
        as (Hl1 & Hlab & Hoff).
      destruct (IH _ _ Hl1 Hrun) as (Hl' & Hrest & Hkeep).
      split; [exact Hl'|]. split.
      * intros d0 [<-|Hd0] Hd0in; [|now apply Hrest].
        destruct Hlab as (classes & idx & model & Hc & Hw & Hm & Ht).
        exists classes, idx, model. repeat split; try assumption.
        rewrite Ht. f_equal. apply select_agree; [congruence|].
        intros k Hk. apply eq_mask_nth in Hk.
        destruct Hk as (x & Hx & Hb). symmetry in Hb.
        apply Z.eqb_eq in Hb. subst x. symmetry.
        now apply (Hkeep k d).
      * intros k x Hk Hnot. rewrite (Hkeep k x Hk).
        -- apply (Hoff k x Hk). intros ->. apply Hnot. now left.
        -- intros Hr. apply Hnot. now right.
    + rewrite (@predict_dataset_absent d pred Hout) in H1.
      inversion H1; subst pred1.
      destruct (IH _ _ Hp Hrun) as (Hl' & Hrest & Hkeep).
      split; [exact Hl'|]. split.
      * intros d0 [<-|Hd0] Hd0in; [contradiction|now apply Hrest].
      * intros k x Hk Hnot. apply (Hkeep k x Hk).
        intros Hr. apply Hnot. now right.
Qed.

End PredictLoop.

(** X13.  On rows that cover every dataset the estimator was fitted on,
    a [predict] that returns has labelled the rows of each fitted
    dataset [d] in one block: the entries of [classes_list_[d]] (the
    class set at the position given by the id) at the largest output of
    that dataset's own model on exactly those rows; the result has one
    label per row, and a row whose id was never fitted keeps the label
    0. *)
Theorem predict_labels_each_dataset_by_its_own_model :
  forall (B : Backend) (fuel : nat) (self0 self : FactoredLogistic B)
         (X_train : list Row) (y_train : list Z)
         (validation_data : option (list Row * list Z))
         (X : list Row) (pred : list Z),
    fit fuel self0 X_train y_train validation_data = Some (Ok self) ->
    (forall d, In d (map dataset_id X_train) -> In d (map dataset_id X)) ->
    predict self X = Ok pred ->
    exists f,
      fitted self = Some f
      /\ length pred = length X
      /\ (forall d, In d (datasets_ f) ->
            exists classes idx model,
              Np.index (classes_list_ f) d = Ok classes
              /\ Np.where_first (datasets_ f) d = Ok idx
              /\ Np.index (models_ f) (Z.of_nat idx) = Ok model
              /\ Np.take classes
                   (argmax_rows
                      (keras_predict B (layers_ f) model (weights_ f)
                         (Np.select (Np.eq_mask (map dataset_id X) d)
                                    (map features X))))
                 = Ok (Np.select (Np.eq_mask (map dataset_id X) d) pred))
      /\ (forall k r, nth_error X k = Some r ->
            ~ In (dataset_id r) (datasets_ f) -> nth_error pred k = Some 0).
Proof.
  intros B fuel self0 self Xtr ytr vd X pred Hfit Hcover Hpred.
  apply fit_fitted in Hfit. destruct Hfit as (f & Hf & Hds & _).
  exists f. split; [exact Hf|].
  unfold predict in Hpred.
  destruct (check_array X) as [X'|e] eqn:Hc; [|discriminate].
  apply check_array_Ok in Hc. destruct Hc as [-> _]. cbn [bind] in Hpred.
  unfold get_fitted in Hpred. rewrite Hf in Hpred. cbn [bind] in Hpred.
  destruct (0 <? Np.count_true
                   (unmatched_mask (datasets_ f) (map dataset_id X)))%nat
    eqn:Hcount.
  { exfalso. apply unmatched_count in Hcount.
    destruct Hcount as (d & Hin & Hnot). apply Hnot, Hcover.
    rewrite Hds in Hin. exact (proj1 (unique_In _ _) Hin). }
  cbn [bind] in Hpred.
  assert (Hlen : length (map dataset_id X) = length (map features X))
    by now rewrite !length_map.
  assert (Hnd : NoDup (datasets_ f)) by (rewrite Hds; apply unique_NoDup).
  destruct (@predict_datasets_ok B self f Hf (map dataset_id X)
              (map features X) Hlen (datasets_ f) Hnd
              (repeat 0 (length (map features X))) pred
              ltac:(now rewrite repeat_length, !length_map) Hpred)
    as (Hl & Hlab & Hkeep).
  split; [now rewrite Hl, length_map|]. split.
  - intros d Hd. apply Hlab; [exact Hd|].
    apply Hcover. rewrite Hds in Hd. exact (proj1 (unique_In _ _) Hd).
  - intros k r Hk Hnot.
    rewrite (Hkeep k (dataset_id r)); [| |exact Hnot].
    + apply nth_error_repeat. rewrite length_map.
      apply nth_error_Some. congruence.
    + now rewrite nth_error_map, Hk.
Qed.

Lemma run_predicted_two :
  predict fitted_two Run.two_X = Ok predicted_two.
Proof. apply result_or_ok. vm_compute. reflexivity. Qed.

Lemma predict_labels_each_dataset_by_its_own_model_witness :
  exists f,
    fitted fitted_two = Some f
    /\ length predicted_two = length Run.two_X
    /\ (forall d, In d (datasets_ f) ->
          exists classes idx model,
            Np.index (classes_list_ f) d = Ok classes
            /\ Np.where_first (datasets_ f) d = Ok idx
            /\ Np.index (models_ f) (Z.of_nat idx) = Ok model
            /\ Np.take classes
                 (argmax_rows
                    (keras_predict Run.backend (layers_ f) model (weights_ f)
                       (Np.select (Np.eq_mask (map dataset_id Run.two_X) d)
                                  (map features Run.two_X))))
               = Ok (Np.select (Np.eq_mask (map dataset_id Run.two_X) d)
                               predicted_two))
    /\ (forall k r, nth_error Run.two_X k = Some r ->
          ~ In (dataset_id r) (datasets_ f) ->
          nth_error predicted_two k = Some 0).
Proof.
  exact (@predict_labels_each_dataset_by_its_own_model Run.backend 400%nat
           (with_fine_tune false Run.simple) fitted_two Run.two_X Run.two_y
           None Run.two_X predicted_two run_fitted_two (fun d H => H)
           run_predicted_two).
Defined.

(** ** [score] on labels that cover the class sets *)

Lemma select_eq_mask_In {A : Type} (datasets : list Z) (d : Z) (a : list A)
    (c : A) :
  In c (Np.select (Np.eq_mask datasets d) a) <-> In (d, c) (combine datasets a).
Proof.
  rewrite select_eq_mask_filter, in_map_iff. split.
  - intros ([d' c'] & Hc & Hin). simpl in Hc. subst c'.
    apply filter_In in Hin. destruct Hin as [Hin Hid]. simpl in Hid.
    apply Z.eqb_eq in Hid. now subst d'.
  - intros Hin. exists (d, c). split; [reflexivity|].
    apply filter_In. split; [exact Hin|]. simpl. apply Z.eqb_refl.
Qed.

Lemma sorted_same_elements (l : list Z) :
  forall l' : list Z,
    StronglySorted Z.lt l -> StronglySorted Z.lt l' ->
    (forall c, In c l <-> In c l') -> l = l'.
Proof.
  induction l as [|x l IH]; intros [|x' l'] Hs Hs' Hsame.
  - reflexivity.
  - exfalso. apply (proj2 (Hsame x')). now left.
  - exfalso. apply (proj1 (Hsame x)). now left.
  - inversion Hs as [|? ? Hsl Hall]; subst.
    inversion Hs' as [|? ? Hsl' Hall']; subst.
    rewrite Forall_forall in Hall, Hall'.
    assert (Hx : x = x').
    { destruct (proj1 (Hsame x) (or_introl eq_refl)) as [Heq|Hin];
        [congruence|].
      destruct (proj2 (Hsame x') (or_introl eq_refl)) as [Heq|Hin'];
        [congruence|].
      specialize (Hall _ Hin'). specialize (Hall' _ Hin). lia. }
    subst x'. f_equal. apply IH; try assumption.
    intros c. split; intros Hin.
    + destruct (proj1 (Hsame c) (or_intror Hin)) as [Heq|Hin']; [|exact Hin'].
      subst c. specialize (Hall _ Hin). lia.
    + destruct (proj2 (Hsame c) (or_intror Hin)) as [Heq|Hin']; [|exact Hin'].
      subst c. specialize (Hall' _ Hin). lia.
Qed.

Lemma unique_same_elements (l l' : list Z) :
  (forall c, In c l <-> In c l') -> Np.unique l = Np.unique l'.
Proof.
  intros Hsame. apply sorted_same_elements; try apply unique_sorted.
  intros c. now rewrite !unique_In.
Qed.

Lemma index_nat_Ok {A : Type} (l : list A) (j : nat) (a : A) :
  Np.index l (Z.of_nat j) = Ok a -> nth_error l j = Some a.
Proof.
  intros H. destruct (Nat.lt_ge_cases j (length l)) as [Hlt|Hge].
  - destruct (index_of_nat l Hlt) as (a' & Hn & Hi). congruence.
  - rewrite index_beyond in H by lia. discriminate.
Qed.

Lemma score_datasets_agree (B : Backend) (f : Fitted B) (datasets : list Z)
    (X : list Row) (y : list Z) (todo : list Z) :
  forall i : nat,
    (forall j d classes,
        nth_error todo j = Some d ->
        nth_error (classes_list_ f) (i + j) = Some classes ->
        Np.unique (Np.select (Np.eq_mask datasets d) y) = classes) ->
    (forall j d, nth_error todo j = Some d ->
                 Np.select (Np.eq_mask datasets d) y <> []) ->
    score_datasets f datasets X y i todo
    = score_datasets_as_specified f datasets X y i todo.
Proof.
  induction todo as [|d rest IH]; intros i Hcov Hrows; simpl;
    [reflexivity|].
  destruct (Np.index (classes_list_ f) (Z.of_nat i)) as [classes|e] eqn:Hc;
    cbn [bind]; [|reflexivity].
  destruct (Np.index (models_ f) (Z.of_nat i)) as [model|e] eqn:Hm;
    cbn [bind]; [|reflexivity].
  apply index_nat_Ok in Hc.
  assert (Hu : Np.unique (Np.select (Np.eq_mask datasets d) y) = classes).
  { apply (Hcov O d classes); [reflexivity|]. now rewrite Nat.add_0_r. }
  rewrite (fit_transform_call_nonempty (Hrows O d eq_refl)). cbn [bind].
  unfold Sk.fit_transform. rewrite Hu.
  rewrite (IH (S i)); [reflexivity| |].
  - intros j d' classes' Hj Hcl.
    apply (Hcov (S j) d' classes'); [exact Hj|].
    now rewrite Nat.add_succ_r.
  - intros j d' Hj. exact (Hrows (S j) d' Hj).
Qed.

(** X14.  [score] refits the label binarizer on the labels under
    evaluation; when for every fitted dataset those labels are, as a
    set, the labels the dataset was trained on, the refit changes
    nothing and [score] is the mean accuracy against the datasets' own
    encodings.  In particular this holds for the training data itself. *)
Theorem score_is_as_specified_on_the_training_labels :
  forall (B : Backend) (fuel : nat) (self0 self : FactoredLogistic B)
         (X_train : list Row) (y_train : list Z)
         (validation_data : option (list Row * list Z))
         (X : list Row) (y : list Z),
    fit fuel self0 X_train y_train validation_data = Some (Ok self) ->
    (forall d c,
        In d (map dataset_id X_train) ->
        (In (d, c) (combine (map dataset_id X) y)
         <-> In (d, c) (combine (map dataset_id X_train) y_train))) ->
    score self X y = score_as_specified self X y.
Proof.
  intros B fuel self0 self Xtr ytr vd X y Hfit Hsame.
  apply fit_attributes in Hfit.
  destruct Hfit as (Hlen & f & Hf & Hd & Hcl & _).
  unfold score, score_as_specified.
  destruct (check_X_y X y) as [[X' y']|e] eqn:Hc; cbn [bind];
    [|reflexivity].
  unfold get_fitted. rewrite Hf. cbn [bind].
  apply check_X_y_Ok in Hc. destruct Hc as (-> & -> & _ & _).
  rewrite (@score_datasets_agree B f (map dataset_id X) (map features X)
             y (datasets_ f) O); [reflexivity| |].
  - intros j d classes Hj Hclj. simpl in Hclj.
    rewrite Hcl in Hclj. unfold split_by_dataset in Hclj.
    rewrite map_map, nth_error_map in Hclj. rewrite Hd in Hj.
    rewrite Hj in Hclj. simpl in Hclj. inversion Hclj; subst classes.
    apply unique_same_elements. intros c.
    rewrite !select_eq_mask_In. apply Hsame.
    apply nth_error_In in Hj. exact (proj1 (unique_In _ _) Hj).
  - intros j d Hj. rewrite Hd in Hj. apply nth_error_In in Hj.
    apply (proj1 (unique_In _ _)) in Hj.
    assert (Htr : Np.select (Np.eq_mask (map dataset_id Xtr) d) ytr <> []).
    { apply select_eq_mask_nonempty; [exact Hj|].
      now rewrite length_map. }
    destruct (Np.select (Np.eq_mask (map dataset_id Xtr) d) ytr)
      as [|c l] eqn:Hsel; [contradiction|].
    assert (Hc : In c (Np.select (Np.eq_mask (map dataset_id Xtr) d) ytr))
      by (rewrite Hsel; now left).
    apply select_eq_mask_In in Hc. apply (Hsame d c Hj) in Hc.
    apply select_eq_mask_In in Hc. intros Hnil. rewrite Hnil in Hc.
    contradiction.
Qed.

Lemma score_is_as_specified_on_the_training_labels_witness :
  score Run.fitted_id0 Run.X_id0 Run.y_three
  = score_as_specified Run.fitted_id0 Run.X_id0 Run.y_three.
Proof.
  exact (@score_is_as_specified_on_the_training_labels Run.backend 10%nat
           Run.factored Run.fitted_id0 Run.X_id0 Run.y_three None
           Run.X_id0 Run.y_three run_factored_id0
           (fun d c _ => iff_refl _)).
Defined.

(** ** The batches of an epoch *)

Lemma batches_from_cover {A : Type} (l : list A) (bs : nat) :
  (1 <= bs)%nat ->
  forall fuel start : nat,
    (length l - start <= fuel)%nat ->
    concat (map (fun b => Sk.slice b l)
                (Sk.batches_from fuel start (length l) bs))
    = skipn start l.
Proof.
  intros Hbs. induction fuel as [|fuel IH]; intros start Hfuel; simpl.
  - symmetry. apply skipn_all2. lia.
  - destruct (start <? length l)%nat eqn:Hlt.
    + apply Nat.ltb_lt in Hlt. simpl. rewrite IH by lia.
      unfold Sk.slice. simpl.
      destruct (Nat.le_gt_cases (start + bs) (length l)) as [Hle|Hgt].
      * rewrite Nat.min_l by lia.
        replace (start + bs - start)%nat with bs by lia.
        replace (start + bs)%nat with (bs + start)%nat by lia.
        rewrite <- skipn_skipn. apply firstn_skipn.
      * rewrite Nat.min_r by lia.
        rewrite (skipn_all2 l (n := (start + bs)%nat)) by lia.
        rewrite app_nil_r. apply firstn_all2. rewrite length_skipn. lia.
    + apply Nat.ltb_ge in Hlt. symmetry. apply skipn_all2. lia.
Qed.

Lemma batches_from_sizes {A : Type} (l : list A) (bs : nat) :
  (1 <= bs)%nat ->
  forall fuel start : nat,
    Forall (fun b => (1 <= length (Sk.slice b l) <= bs)%nat)
           (Sk.batches_from fuel start (length l) bs).
Proof.
  intros Hbs.
  induction fuel as [|fuel IH]; intros start; simpl; [constructor|].
  destruct (start <? length l)%nat eqn:Hlt; [|constructor].
  apply Nat.ltb_lt in Hlt. constructor; [|apply IH].
  unfold Sk.slice. simpl. rewrite length_firstn, length_skipn. lia.
Qed.

Lemma gen_batches_cover {A : Type} (l : list A) (bs : nat)
    (bl : list (nat * nat)) :
  Sk.gen_batches (length l) bs = Some bl ->
  concat (map (fun b => Sk.slice b l) bl) = l
  /\ Forall (fun b => (1 <= length (Sk.slice b l) <= bs)%nat) bl.
Proof.
  unfold Sk.gen_batches. destruct bs as [|bs]; [discriminate|].
  intros H; inversion H; subst. split.
  - rewrite batches_from_cover by lia. reflexivity.
  - apply batches_from_sizes. lia.
Qed.

Lemma stepped_in_epoch (B : Backend) (cfg : LoopConfig)
    (d d' : DatasetState B) :
  stepped cfg d d' ->
  (exists done rest, in_epoch (cfg_batch_size cfg) d done rest) ->
  exists done rest, in_epoch (cfg_batch_size cfg) d' done rest.
Proof.
  unfold in_epoch.
  intros [(b & rest & Hb & ->)|(Hb & rng & w & b & rest & Hb1 & ->)]
         (done & rest0 & Hg & Hr); simpl.
  - exists (done ++ [b]), rest. rewrite <- app_assoc. simpl.
    split; [|reflexivity]. congruence.
  - destruct (epoch_end_fields cfg d rng w) as (_ & _ & Hbt & _).
    simpl in Hbt. exists [b], rest. simpl. split; [|reflexivity].
    congruence.
Qed.

(** X15.  With a batch size of at least 1, at the end of every pass of
    the loop each dataset is inside an epoch whose batches cut its rows,
    in their current shuffled order, into consecutive pieces of between
    1 and [batch_size] rows: the batches already trained on in this
    epoch followed by those still to come cover every row exactly
    once. *)
Theorem every_epoch_covers_each_row_once :
  forall (B : Backend) (self : FactoredLogistic B) (X : list Row)
         (y : list Z) (validation_data : option (list Row * list Z))
         (p : Prepared B) (n : nat) (st : LoopState B),
    valid_permutations B ->
    (1 <= batch_size self)%nat ->
    prepare self X y validation_data = Ok p ->
    loop_prefix (pr_cfg p) n (pr_state p) = Some st ->
    Forall
      (fun d =>
         exists done rest,
           in_epoch (batch_size self) d done rest
           /\ concat (map (fun b => Sk.slice b (ds_X d)) (done ++ rest))
              = ds_X d
           /\ Forall (fun b => (1 <= length (Sk.slice b (ds_X d))
                                <= batch_size self)%nat)
                     (done ++ rest))
      (ls_datasets st).
Proof.
  intros B self X y vd p n st Hperm Hbs Hp Hpre.
  pose proof (prepare_slots _ _ _ _ Hp) as (_ & _ & _ & _ & Hcbs & _).
  pose proof (prepare_initial_rows Hperm _ _ _ _ Hp) as Hinit.
  assert (Hrel := @loop_prefix_related B (pr_cfg p)
            (fun d d' =>
               (exists done rest,
                   in_epoch (cfg_batch_size (pr_cfg p)) d done rest) ->
               exists done rest,
                 in_epoch (cfg_batch_size (pr_cfg p)) d' done rest)
            (fun d H => H) (fun d1 d2 d3 H12 H23 H1 => H23 (H12 H1))).
  assert (Hstep : forall stop (d d' : DatasetState B),
             stepped (pr_cfg p) (reset_flag (pr_cfg p) stop d) d' ->
             (exists done rest,
                 in_epoch (cfg_batch_size (pr_cfg p)) d done rest) ->
             exists done rest,
               in_epoch (cfg_batch_size (pr_cfg p)) d' done rest).
  { intros stop d d' Hs Hd. eapply stepped_in_epoch; [exact Hs|].
    destruct Hd as (done & rest & Hg & Hr). exists done, rest.
    unfold in_epoch, reset_flag in *.
    destruct (do_validation (pr_cfg p)); simpl; auto. }
  specialize (Hrel Hstep n _ _ Hpre).
  eapply Forall2_right; [exact (Forall2_compose Hinit Hrel)|].
  intros part d (d0 & (_ & _ & _ & Hb0 & _) & Hr). simpl.
  destruct Hr as (done & rest & Hg & Hrest).
  { unfold in_epoch. rewrite Hb0.
    destruct (Sk.gen_batches (length (ds_X d0)) (cfg_batch_size (pr_cfg p)))
      as [bl|] eqn:Hg.
    - exists [], bl. auto.
    - unfold Sk.gen_batches in Hg. rewrite Hcbs in Hg.
      destruct (batch_size self); [lia|discriminate]. }
  rewrite Hcbs in Hg. exists done, rest.
  split; [split; assumption|]. now apply gen_batches_cover.
Qed.

Lemma every_epoch_covers_each_row_once_witness :
  Forall
    (fun d =>
       exists done rest,
         in_epoch (batch_size Run.early_stopper) d done rest
         /\ concat (map (fun b => Sk.slice b (ds_X d)) (done ++ rest))
            = ds_X d
         /\ Forall (fun b => (1 <= length (Sk.slice b (ds_X d))
                              <= batch_size Run.early_stopper)%nat)
                   (done ++ rest))
    (ls_datasets (state_after 16)).
Proof.
  refine (@every_epoch_covers_each_row_once Run.backend Run.early_stopper
            Run.two_X Run.two_y (Some (Run.two_X_val, Run.two_y_val))
            Run.prepared 16%nat (state_after 16) rotation_valid _
            run_prepared run_sixteen_passes).
  vm_compute. lia.
Defined.

(** ** [make_loadings_extractor] *)

(** X16.  The weighting of [make_loadings_extractor] returns exactly
    when [identity] is off and [scale_importance] is [None], ['sqrt'] or
    ['linear'], and then with one weight per basis.  With the default
    [scale_importance=True] it raises [ValueError], and with
    [identity=True] it always raises. *)
Theorem loadings_extractor_returns_only_without_identity :
  forall (sqrt : Q -> Q) (shapes : list (nat * nat)) (identity : bool)
         (si : Loadings.ScaleImportance),
    is_ok (Loadings.transformer_weights sqrt shapes identity si)
    = negb identity && Loadings.accepted si
    /\ Loadings.transformer_weights sqrt shapes identity Loadings.SI_Other
       = Raise ValueError
    /\ match Loadings.transformer_weights sqrt shapes identity si with
       | Ok ws => length ws = length shapes
       | Raise e => e = ValueError \/ e = IndexError \/ e = ZeroDivisionError
       end.
Proof.
  intros sqrt shapes identity si. unfold Loadings.transformer_weights.
  split; [|split].
  - destruct si, identity; simpl; try reflexivity;
      destruct shapes as [|[n m] rest]; simpl; try reflexivity;
      destruct (Nat.eqb m 0); reflexivity.
  - reflexivity.
  - destruct si, identity; simpl; auto;
      try (now rewrite !length_map);
      destruct shapes as [|[n m] rest]; simpl; auto;
      destruct (Nat.eqb m 0); simpl; auto.
Qed.

Lemma sum_scaled (T : Q) (l : list Q) :
  (fold_right Qplus 0 (map (fun s => 1 / s / T) l)
   == Loadings.sum_of_inverses l / T)%Q.
Proof.
  unfold Loadings.sum_of_inverses.
  induction l as [|s l IH]; simpl.
  - unfold Qdiv. ring.
  - rewrite IH. unfold Qdiv. ring.
Qed.

Lemma sum_of_inverses_nonneg (l : list Q) :
  Forall (fun s => (0 < s)%Q) l -> (0 <= Loadings.sum_of_inverses l)%Q.
Proof.
  unfold Loadings.sum_of_inverses.
  induction 1 as [|s l Hs Hall IH]; simpl; [apply Qle_refl|].
  apply Qinv_lt_0_compat, Qlt_le_weak in Hs.
  apply (Qplus_le_compat 0 (/ s) 0 _ Hs) in IH.
  now rewrite Qplus_0_r in IH.
Qed.

Lemma sum_of_inverses_positive (l : list Q) :
  l <> [] -> Forall (fun s => (0 < s)%Q) l ->
  (0 < Loadings.sum_of_inverses l)%Q.
Proof.
  intros Hne Hall. destruct Hall as [|s l Hs Hall]; [contradiction|].
  apply sum_of_inverses_nonneg in Hall.
  unfold Loadings.sum_of_inverses in *. simpl.
  apply Qinv_lt_0_compat in Hs.
  apply (Qplus_lt_le_compat 0 (/ s) 0 _ Hs) in Hall.
  now rewrite Qplus_0_r in Hall.
Qed.

(** X17.  When the weighting returns on at least one basis and every
    scale is positive (bases with at least one component), the weights
    are positive, add up to 1, and are inversely proportional to the
    scales: equal weights for [None], and for ['linear'] a weight
    inversely proportional to the number of components of the basis. *)
Theorem loadings_weights_sum_to_one :
  forall (sqrt : Q -> Q) (shapes : list (nat * nat))
         (si : Loadings.ScaleImportance) (scales : list Q),
    shapes <> [] ->
    Loadings.scales_of sqrt (map fst shapes) si = Ok scales ->
    Forall (fun s => (0 < s)%Q) scales ->
    exists ws,
      Loadings.transformer_weights sqrt shapes false si = Ok ws
      /\ (fold_right Qplus 0 ws == 1)%Q
      /\ Forall (fun w => (0 < w)%Q) ws
      /\ Forall2 (fun s w => (w * s == / Loadings.sum_of_inverses scales)%Q)
                 scales ws.
Proof.
  intros sqrt shapes si scales Hne Hsc Hpos.
  assert (Hscne : scales <> []).
  { intros ->. destruct si; simpl in Hsc; inversion Hsc as [Hnil];
      apply map_eq_nil in Hnil; apply map_eq_nil in Hnil; contradiction. }
  pose proof (sum_of_inverses_positive Hscne Hpos) as HT.
  assert (HT0 : ~ (Loadings.sum_of_inverses scales == 0)%Q).
  { intros H0. rewrite H0 in HT. now apply Qlt_irrefl in HT. }
  unfold Loadings.transformer_weights. rewrite Hsc. cbn [bind].
  eexists. split; [reflexivity|]. split; [|split].
  - rewrite sum_scaled. now apply Qmult_inv_r.
  - rewrite Forall_map. eapply Forall_impl; [|exact Hpos].
    intros s Hs. simpl. unfold Qdiv. rewrite Qmult_1_l.
    apply Qmult_lt_0_compat; now apply Qinv_lt_0_compat.
  - clear Hscne HT Hsc.
    set (T := Loadings.sum_of_inverses scales) in *. clearbody T.
    induction Hpos as [|s l Hs Hall IH]; simpl; constructor; [|exact IH].
    field. split; [exact HT0|].
    intros H0. rewrite H0 in Hs. now apply Qlt_irrefl in Hs.
Qed.

Lemma loadings_weights_sum_to_one_witness :
  exists ws,
    Loadings.transformer_weights (fun q => q) two_bases false
                                 Loadings.SI_Linear = Ok ws
    /\ (fold_right Qplus 0 ws == 1)%Q
    /\ Forall (fun w => (0 < w)%Q) ws
    /\ Forall2 (fun s w =>
                  (w * s == / Loadings.sum_of_inverses [2%Q; 3%Q])%Q)
               [2%Q; 3%Q] ws.
Proof.
  refine (@loadings_weights_sum_to_one (fun q => q) two_bases
            Loadings.SI_Linear [2%Q; 3%Q] _ _ _).
  - discriminate.
  - reflexivity.
  - repeat constructor.
Defined.

(** ** [make_classifier] *)

(** X18.  The seed and the multinomial option given to [make_classifier]
    only reach the plain logistic regressions.  A classifier built with
    [factored=True] or with the trace penalty is the same whatever
    [random_state] was passed and carries no seed, so the factored
    estimator draws its shuffles from NumPy's global generator, in
    batches of 200 rows and with early stopping on; and the classifier
    built for the trace penalty is the same whatever [multi_class] was
    passed, with [multiclass=False]. *)
Theorem make_classifier_drops_the_seed :
  forall (B : Backend) (Const : Type) (C_samples C_single Cs_all : result Const)
         (args : Classifier.Args) (rs : option Z)
         (mc : Classifier.MultiClass) (e : Classifier.Estimator B Const),
    Classifier.factored args = true
    \/ Classifier.penalty args = Classifier.P_Trace ->
    Classifier.make_classifier B C_samples C_single Cs_all args = Ok e ->
    Classifier.make_classifier B C_samples C_single Cs_all
      (Classifier.with_seed rs args) = Ok e
    /\ Classifier.seed_of e = None
    /\ match Classifier.base_estimator e with
       | Classifier.E_Factored self _ _ =>
           check_random_state (random_state self) = Ok (global_state B)
           /\ batch_size self = 200%nat
           /\ early_stop self = true
       | Classifier.E_Fista multiclass _ _ _ =>
           multiclass = false
           /\ Classifier.make_classifier B C_samples C_single Cs_all
                (Classifier.with_multi_class mc args) = Ok e
       | _ => False
       end.
Proof.
  intros B Const C1 C2 C3 args rs mc e Hbranch.
  unfold Classifier.make_classifier, Classifier.seed_of. simpl.
  destruct (Classifier.factored args) eqn:Hfac.
  - destruct (Classifier.first _) as [alpha0|err]; cbn [bind];
      [|discriminate].
    destruct (1 <? _)%nat; intros H; inversion H; subst; simpl; auto.
  - destruct Hbranch as [Hf|Hpen]; [discriminate|]. rewrite Hpen.
    destruct (Classifier.first _) as [alpha0|err]; cbn [bind];
      [|discriminate].
    destruct C1 as [c|err]; cbn [bind]; [|discriminate].
    destruct (1 <? _)%nat; intros H; inversion H; subst; simpl; auto.
Qed.

Lemma make_classifier_drops_the_seed_witness :
  Classifier.make_classifier Run.backend (Ok tt) (Ok tt) (Ok tt)
    (Classifier.with_seed None seeded_call)
  = Ok (Classifier.E_GridSearchCV
          (Classifier.E_Factored
             (Classifier.factored_logistic Run.backend seeded_call)
             (1 # 10)%Q 1)
          [(1 # 10)%Q; (1 # 100)%Q] 1)
  /\ Classifier.seed_of
       (Classifier.E_GridSearchCV (Const := unit)
          (Classifier.E_Factored
             (Classifier.factored_logistic Run.backend seeded_call)
             (1 # 10)%Q 1)
          [(1 # 10)%Q; (1 # 100)%Q] 1) = None
  /\ check_random_state
       (random_state (Classifier.factored_logistic Run.backend seeded_call))
     = Ok (global_state Run.backend)
     /\ batch_size (Classifier.factored_logistic Run.backend seeded_call)
        = 200%nat
     /\ early_stop (Classifier.factored_logistic Run.backend seeded_call)
        = true.
Proof.
  exact (@make_classifier_drops_the_seed Run.backend unit (Ok tt) (Ok tt)
           (Ok tt) seeded_call None Classifier.Multinomial _
           (or_introl eq_refl) eq_refl).
Defined.

(** ** The validation data inside [fit] *)

Lemma slots_val {M V : Type} (models : list M) (Xs : list (list Row))
    (ys : list (list (list Z))) (vs : list V) :
  length models = length Xs -> length Xs = length ys ->
  length ys = length vs ->
  map (fun s => snd (snd (snd s)))
      (combine models (combine Xs (combine ys vs)))
  = vs.
Proof.
  revert Xs ys vs; induction models as [|m models IH];
    intros [|x Xs] [|y0 ys] [|v vs] H1 H2 H3; simpl in *;
    try discriminate; try reflexivity.
  f_equal. apply IH; lia.
Qed.

Lemma prepare_validation (B : Backend) (self : FactoredLogistic B)
    (X : list Row) (y : list Z) (X_val : list Row) (y_val : list Z)
    (p : Prepared B) :
  prepare self X y (Some (X_val, y_val)) = Ok p ->
  map (@ds_val B) (ls_datasets (pr_state p))
  = map (validation_slot X_val y_val) (Np.unique (map dataset_id X)).
Proof.
  unfold prepare. destruct (max_iter self <? 0) eqn:Hmi; [discriminate|].
  destruct (check_X_y X y) as [[X1 y1]|e] eqn:Hc; simpl; [|discriminate].
  apply check_X_y_Ok in Hc. destruct Hc as (-> & -> & Hlen & Hne).
  destruct (check_random_state (random_state self)) as [rng|e];
    simpl; [|discriminate].
  destruct (check_X_y X_val y_val) as [[Xv yv]|e] eqn:Hcv; simpl;
    [|discriminate].
  apply check_X_y_Ok in Hcv. destruct Hcv as (-> & -> & _ & _).
  set (datasets := map dataset_id X).
  set (datasets_ := Np.unique datasets).
  destruct (for_each Sk.fit_transform_call
              (split_by_dataset datasets_ datasets y)) as [ybl|e] eqn:Hyb;
    simpl; [|discriminate].
  apply for_each_fit_transform_Ok in Hyb. destruct Hyb as [-> _].
  destruct (for_each Sk.fit_transform_call
              (split_by_dataset datasets_ (map dataset_id X_val) y_val))
    as [ybv|e] eqn:Hyv; simpl; [|discriminate].
  apply for_each_fit_transform_Ok in Hyv. destruct Hyv as [-> _].
  set (val_list := map Some (combine _ _)).
  assert (Hvl : val_list = map (validation_slot X_val y_val) datasets_).
  { unfold val_list, split_by_dataset, validation_slot.
    rewrite map_map, combine_map_same, map_map. reflexivity. }
  clearbody val_list.
  set (mk := match latent_dim self with Some _ => _ | None => _ end).
  assert (Hmk : forall layers models stacked,
             mk = Ok (layers, models, stacked) ->
             length models = length datasets_).
  { intros layers models stacked Heq. unfold mk in Heq.
    destruct (latent_dim self) as [k|].
    - apply make_factored_model_spec in Heq. destruct Heq as (Hl & _).
      now rewrite Hl, length_map, split_by_dataset_length.
    - apply make_simple_model_spec in Heq. destruct Heq as (Hl & _).
      now rewrite Hl, length_map, split_by_dataset_length. }
  clearbody mk.
  destruct mk as [[[layers models] stacked]|e]; simpl; [|discriminate].
  specialize (Hmk _ _ _ eq_refl).
  match goal with
  | |- context [init_datasets B ?c ?s rng] =>
      pose proof (init_datasets_fields B c s rng) as Hfields;
      destruct (init_datasets B c s rng) as [ds rng1]
  end.
  intros H; inversion H; subst p; clear H. simpl in *.
  fold datasets datasets_. rewrite <- Hvl.
  rewrite <- (@slots_val _ _ models
                (split_by_dataset datasets_ datasets (map features X))
                (map Sk.fit_transform (split_by_dataset datasets_ datasets y))
                val_list)
    by (rewrite ?length_map, ?split_by_dataset_length, ?Hvl, ?length_map;
        congruence).
  apply Forall2_map_eq.
  eapply Forall2_impl; [|exact Hfields].
  intros slot d (_ & _ & Hv & _). exact Hv.
Qed.

Lemma stepped_val (B : Backend) (cfg : LoopConfig) (stop : bool)
    (d d' : DatasetState B) :
  stepped cfg (reset_flag cfg stop d) d' -> ds_val d' = ds_val d.
Proof.
  assert (Hreset : ds_val (reset_flag cfg stop d) = ds_val d)
    by (unfold reset_flag; destruct (do_validation cfg); reflexivity).
  intros [(b & rest & Hb & ->)|(Hb & rng & w & b & rest & Hb1 & ->)];
    simpl; [exact Hreset|].
  destruct (epoch_end_data cfg (reset_flag cfg stop d) rng w) as (_ & Hv).
  simpl in Hv. congruence.
Qed.

(** X19.  The validation data of [fit] is split by the dataset ids of
    the training rows, and the validation labels of each dataset are
    encoded by a binarizer fitted on those labels alone, not on the
    dataset's training classes; the loop evaluates against these arrays
    unchanged in every pass. *)
Theorem validation_labels_are_encoded_on_their_own :
  forall (B : Backend) (self : FactoredLogistic B) (X : list Row)
         (y : list Z) (X_val : list Row) (y_val : list Z)
         (p : Prepared B) (n : nat) (st : LoopState B),
    prepare self X y (Some (X_val, y_val)) = Ok p ->
    loop_prefix (pr_cfg p) n (pr_state p) = Some st ->
    map (@ds_val B) (ls_datasets st)
    = map (validation_slot X_val y_val) (Np.unique (map dataset_id X)).
Proof.
  intros B self X y Xv yv p n st Hp Hpre.
  rewrite <- (prepare_validation _ _ _ _ _ Hp).
  apply Forall2_map_eq.
  apply (@loop_prefix_related B (pr_cfg p)
           (fun d d' => ds_val d' = ds_val d)) with (n := n);
    [reflexivity|congruence| |exact Hpre].
  intros stop d d'. apply stepped_val.
Qed.

Lemma validation_labels_are_encoded_on_their_own_witness :
  map (@ds_val Run.backend) (ls_datasets (state_after 16))
  = map (validation_slot Run.two_X_val Run.two_y_val)
        (Np.unique (map dataset_id Run.two_X)).
Proof.
  exact (@validation_labels_are_encoded_on_their_own Run.backend
           Run.early_stopper Run.two_X Run.two_y Run.two_X_val Run.two_y_val
           Run.prepared 16%nat (state_after 16) run_prepared
           run_sixteen_passes).
Defined.

(** ** When [fit] returns an estimator *)

Section LoopNeverRaises.

Variable B : Backend.
Hypothesis Hperm : valid_permutations B.
Variable cfg : LoopConfig.
Hypothesis Hbs : (1 <= cfg_batch_size cfg)%nat.

Lemma epoch_end_ready (d : DatasetState B) (rng : G B) (w : Wt B) :
  (1 <= length (ds_X d))%nat ->
  length (ds_X (fst (epoch_end cfg d rng w))) = length (ds_X d)
  /\ exists b rest,
       ds_batches (fst (epoch_end cfg d rng w)) = Some (b :: rest).
Proof.
  intros Hrows.
  destruct (epoch_end_fields cfg d rng w) as (_ & HX & Hbt & _).
  simpl in HX, Hbt.
  assert (Hlen : length (ds_X (fst (epoch_end cfg d rng w)))
                 = length (ds_X d))
    by (rewrite HX; apply reorder_length, Hperm).
  split; [exact Hlen|]. rewrite Hbt, Hlen. unfold Sk.gen_batches.
  destruct (cfg_batch_size cfg) as [|bs]; [lia|].
  destruct (length (ds_X d)) as [|n]; [lia|]. simpl. eauto.
Qed.

Lemma model_step_ok (d : DatasetState B) (rng : G B) (w : Wt B) :
  ready d -> exists r, model_step cfg d rng w = Ok r.
Proof.
  intros [Hrows (bl & Hb)]. unfold model_step, next_batch. rewrite Hb.
  destruct bl as [|b rest]; [|cbn [bind]; eauto].
  destruct (epoch_end_ready d rng w Hrows) as (_ & b & rest & Hb1).
  destruct (epoch_end cfg d rng w) as [d1 rng1]. simpl in Hb1.
  rewrite Hb1. cbn [bind]. eauto.
Qed.

Lemma for_models_ok (todo : list (DatasetState B)) :
  Forall ready todo ->
  forall done rng w stop,
    exists st', for_models cfg done todo rng w stop = Ok st'.
Proof.
  induction 1 as [|d todo Hd Hall IH]; intros done rng w stop; simpl;
    [eauto|].
  destruct (model_step_ok rng w Hd) as ([[d1 rng1] w1] & Heq).
  rewrite Heq. cbn [bind]. apply IH.
Qed.

Lemma reset_flag_ready (stop : bool) (d : DatasetState B) :
  ready d -> ready (reset_flag cfg stop d).
Proof.
  unfold ready, reset_flag. destruct (do_validation cfg); auto.
Qed.

Lemma tick_ok (st : LoopState B) :
  Forall ready (ls_datasets st) -> exists st', tick cfg st = Ok st'.
Proof.
  intros Hall. unfold tick. apply for_models_ok.
  destruct (do_validation cfg); [|exact Hall].
  rewrite Forall_map. eapply Forall_impl; [|exact Hall].
  intros d Hd. exact Hd.
Qed.

Lemma stepped_ready (d d' : DatasetState B) :
  stepped cfg d d' -> ready d -> ready d'.
Proof.
  intros [(b & rest & Hb & ->)|(Hb & rng & w & b & rest & Hb1 & ->)]
         [Hrows _]; unfold ready; simpl.
  - split; [exact Hrows|eauto].
  - destruct (epoch_end_ready d rng w Hrows) as (Hlen & _).
    split; [lia|eauto].
Qed.

Lemma tick_ready (st st' : LoopState B) :
  tick cfg st = Ok st' ->
  ls_datasets st <> [] /\ Forall ready (ls_datasets st) ->
  ls_datasets st' <> [] /\ Forall ready (ls_datasets st').
Proof.
  intros Ht [Hne Hall]. apply tick_spec in Ht. destruct Ht as [Hf2 _].
  split.
  - intros Hnil. rewrite Hnil in Hf2. inversion Hf2. congruence.
  - eapply Forall2_Forall; [exact Hf2|exact Hall|].
    intros d d' Hs Hd. eapply stepped_ready; [exact Hs|].
    now apply reset_flag_ready.
Qed.

Lemma training_loop_ok (fuel : nat) :
  forall (st : LoopState B) (r : result (LoopState B)),
    ls_datasets st <> [] /\ Forall ready (ls_datasets st) ->
    training_loop cfg fuel st = Some r ->
    exists st', r = Ok st'.
Proof.
  induction fuel as [|fuel IH]; intros st r Hst Hrun; simpl in Hrun;
    (assert (Hg : exists b, loop_guard cfg st = Ok b);
     [unfold loop_guard, min_epochs;
      destruct (ls_stop_training st); [eauto|];
      destruct Hst as [Hne _];
      destruct (ls_datasets st); [contradiction|cbn [bind]; eauto]|]);
    destruct Hg as (b & Hg); rewrite Hg in Hrun.
  - destruct b; [discriminate|]. inversion Hrun; eauto.
  - destruct b; [|inversion Hrun; eauto].
    destruct (@tick_ok st (proj2 Hst)) as (st1 & Ht). rewrite Ht in Hrun.
    eapply IH; [|exact Hrun]. eapply tick_ready; eassumption.
Qed.

End LoopNeverRaises.

Lemma heads_sized_ok (cl : list (list Z))
    (r : result (Keras.Heap * list Keras.Model * Keras.Model)) :
  cl <> [] -> heads_sized cl r -> is_ok r = true.
Proof.
  intros Hne H. destruct cl; [contradiction|].
  destruct H as (h & models & stacked & -> & _). reflexivity.
Qed.

Lemma split_by_dataset_nonempty {A : Type} (ks datasets : list Z)
    (a : list A) :
  (forall d, In d ks -> In d datasets) ->
  length datasets = length a ->
  Forall (fun l => l <> []) (split_by_dataset ks datasets a).
Proof.
  intros Hcov Hlen. unfold split_by_dataset. rewrite Forall_map.
  apply Forall_forall. intros d Hd.
  apply select_eq_mask_nonempty; auto.
Qed.

Lemma prepare_total (B : Backend) (self : FactoredLogistic B) (X : list Row)
    (y : list Z) (validation_data : option (list Row * list Z)) :
  0 <= max_iter self ->
  is_ok (check_X_y X y) = true ->
  is_ok (check_random_state (random_state self)) = true ->
  (forall X_val y_val, validation_data = Some (X_val, y_val) ->
                       is_ok (check_X_y X_val y_val) = true) ->
  (forall X_val y_val d,
      validation_data = Some (X_val, y_val) ->
      In d (map dataset_id X) -> In d (map dataset_id X_val)) ->
  exists p, prepare self X y validation_data = Ok p.
Proof.
  intros Hmi Hc Hrs Hval Hcover. unfold prepare.
  apply Z.ltb_ge in Hmi. rewrite Hmi.
  destruct (check_X_y X y) as [[X1 y1]|e] eqn:Hcx; [|discriminate].
  apply check_X_y_Ok in Hcx. destruct Hcx as (-> & -> & Hlen & Hne).
  cbn [bind].
  destruct (check_random_state (random_state self)) as [rng|e];
    [|discriminate]. cbn [bind].
  assert (Htrain :
            for_each Sk.fit_transform_call
              (split_by_dataset (Np.unique (map dataset_id X))
                                (map dataset_id X) y)
            = Ok (map Sk.fit_transform
                      (split_by_dataset (Np.unique (map dataset_id X))
                                        (map dataset_id X) y))).
  { apply for_each_fit_transform_nonempty, split_by_dataset_nonempty.
    - intros d Hd. exact (proj1 (unique_In _ _) Hd).
    - now rewrite length_map. }
  assert (Hcl : map Np.unique
                    (split_by_dataset (Np.unique (map dataset_id X))
                                      (map dataset_id X) y) <> []).
  { unfold split_by_dataset. intros Hnil.
    apply map_eq_nil in Hnil. apply map_eq_nil in Hnil.
    revert Hnil. apply unique_nonempty. intros Hm.
    apply map_eq_nil in Hm. contradiction. }
  destruct validation_data as [[Xv yv]|].
  1: specialize (Hval Xv yv eq_refl).
  1: destruct (check_X_y Xv yv) as [[Xv1 yv1]|e] eqn:Hcv; [|discriminate].
  1: apply check_X_y_Ok in Hcv.
  1: destruct Hcv as (-> & -> & Hlenv & _).
  all: cbn [bind]; rewrite Htrain; cbn [bind].
  1: rewrite for_each_fit_transform_nonempty
       by (apply split_by_dataset_nonempty;
           [intros d Hd; apply (Hcover Xv yv d eq_refl);
            exact (proj1 (unique_In _ _) Hd)
           |now rewrite length_map]).
  all: cbn [bind].
  all: set (mk := match latent_dim self with Some _ => _ | None => _ end).
  all: assert (Hmk : is_ok mk = true)
         by (unfold mk; destruct (latent_dim self) as [k|];
             apply (@heads_sized_ok _ _ Hcl);
             [unfold Keras.make_factored_model
             |unfold Keras.make_simple_model];
             destruct (Qlt_le_dec 0 (dropout self));
             apply heads_then_stacked).
  all: clearbody mk.
  all: destruct mk as [[[layers models] stacked]|e]; [|discriminate].
  all: cbn [bind].
  all: match goal with
       | |- context [init_datasets ?b ?c ?s ?g] =>
           destruct (init_datasets b c s g) as [ds rng1]
       end.
  all: eauto.
Qed.

Lemma prepare_ready (B : Backend) (self : FactoredLogistic B) (X : list Row)
    (y : list Z) (validation_data : option (list Row * list Z))
    (p : Prepared B) :
  valid_permutations B ->
  (1 <= batch_size self)%nat ->
  prepare self X y validation_data = Ok p ->
  Forall ready (ls_datasets (pr_state p)).
Proof.
  intros Hperm Hbs Hp.
  pose proof (prepare_slots _ _ _ _ Hp) as (_ & Hlen & _ & _ & Hcbs & _).
  pose proof (prepare_initial_rows Hperm _ _ _ _ Hp) as Hinit.
  set (Xs := split_by_dataset (Np.unique (map dataset_id X))
               (map dataset_id X) (map features X)) in *.
  assert (Hparts : Forall (fun part : list Row * list (list Z) =>
                             (1 <= length (fst part))%nat)
                          (combine Xs
                             (map Sk.fit_transform
                                (split_by_dataset
                                   (Np.unique (map dataset_id X))
                                   (map dataset_id X) y)))).
  { apply Forall_forall. intros [a c] Hin. apply in_combine_l in Hin.
    unfold Xs, split_by_dataset in Hin. apply in_map_iff in Hin.
    destruct Hin as (d & <- & Hd). simpl.
    rewrite select_count
      by (unfold Np.eq_mask; now rewrite !length_map).
    apply (proj1 (unique_In _ _)) in Hd.
    apply count_true_eq_mask in Hd. now apply Nat.ltb_lt in Hd. }
  eapply Forall2_Forall; [exact Hinit|exact Hparts|].
  intros part d (_ & HlX & _ & Hb & _) Hpart. split; [lia|].
  rewrite Hb, Hcbs. unfold Sk.gen_batches.
  destruct (batch_size self); [lia|eauto].
Qed.

(** X20.  Provided the calls into Keras return, [fit] ends with a fitted
    estimator on every input that passes its checks when the batch size
    is at least 1: a non-negative [max_iter], training data accepted by
    [check_X_y], a seed accepted by [check_random_state], and validation
    data, when given, accepted by [check_X_y] and holding at least one
    row of every dataset of the training data (the label binarizer
    refuses the empty validation subset of a dataset without one).  No
    exception of the batch generators, of the model constructors or of
    the fine-tuning stage escapes. *)
Theorem fit_succeeds_on_valid_arguments :
  forall (B : Backend) (self : FactoredLogistic B) (X : list Row)
         (y : list Z) (validation_data : option (list Row * list Z)),
    valid_permutations B ->
    0 <= max_iter self ->
    (1 <= batch_size self)%nat ->
    is_ok (check_X_y X y) = true ->
    is_ok (check_random_state (random_state self)) = true ->
    (forall X_val y_val, validation_data = Some (X_val, y_val) ->
                         is_ok (check_X_y X_val y_val) = true) ->
    (forall X_val y_val d,
        validation_data = Some (X_val, y_val) ->
        In d (map dataset_id X) -> In d (map dataset_id X_val)) ->
    exists fuel self',
      fit fuel self X y validation_data = Some (Ok self').
Proof.
  intros B self X y vd Hperm Hmi Hbs Hc Hrs Hval Hcover.
  destruct (@prepare_total B self X y vd Hmi Hc Hrs Hval Hcover)
    as (p & Hp).
  pose proof (prepare_invariant _ _ _ _ Hp) as [Hne _].
  pose proof (@prepare_ready B self X y vd p Hperm Hbs Hp) as Hready.
  pose proof (prepare_slots _ _ _ _ Hp) as (_ & _ & _ & _ & Hcbs & _).
  destruct (@training_loop_terminates B (pr_cfg p) Hperm
              (S (loop_bound (pr_cfg p) (pr_state p)))
              (pr_state p)) as [r Hr]; [lia|].
  assert (Hbs' : (1 <= cfg_batch_size (pr_cfg p))%nat) by (rewrite Hcbs; lia).
  destruct (@training_loop_ok B Hperm (pr_cfg p) Hbs' _ _ r
              (conj Hne Hready) Hr) as (st & ->).
  exists (S (loop_bound (pr_cfg p) (pr_state p))).
  unfold fit. rewrite Hp, Hr.
  assert (Hfin : exists self', finish self p st = Ok self').
  { unfold finish. destruct (pr_fine_tune p) eqn:Hft; [|cbn [bind]; eauto].
    pose proof (prepare_spec _ _ _ _ Hp) as Hspec.
    destruct Hspec as (_ & _ & _ & _ & _ & _ & Hpft & _ & _ & _ & nf & Hmk).
    destruct (latent_dim self) as [k|]; [|congruence].
    pose proof (make_factored_model_spec _ _ _ _ Hmk)
      as (_ & _ & _ & _ & Hdepth).
    destruct (Qlt_le_dec 0 (dropout self)) as [Hpos|Hle].
    - destruct Hdepth as [_ Hdepth].
      pose proof (fit_models_depths _ _ _ _ _ Hp Hr Hdepth) as Hds.
      destruct (fine_tune_stage_spec (pr_cfg p) Hds
                  (cfg_layers (pr_cfg p)) (ls_weights st))
        as (ds' & w' & Heq & _).
      rewrite Heq. cbn [bind]. eauto.
    - pose proof (fit_models_depths _ _ _ _ _ Hp Hr Hdepth) as Hds.
      destruct (fine_tune_stage_spec (pr_cfg p) Hds
                  (cfg_layers (pr_cfg p)) (ls_weights st))
        as (ds' & w' & Heq & _).
      rewrite Heq. cbn [bind]. eauto. }
  destruct Hfin as (self' & Hfin). exists self'. now rewrite Hfin.
Qed.

Lemma fit_succeeds_on_valid_arguments_witness :
  exists fuel self',
    fit fuel Run.early_stopper Run.two_X Run.two_y
        (Some (Run.two_X_val, Run.two_y_val)) = Some (Ok self').
Proof.
  refine (@fit_succeeds_on_valid_arguments Run.backend Run.early_stopper
            Run.two_X Run.two_y (Some (Run.two_X_val, Run.two_y_val))
            rotation_valid _ _ _ _ _ _).
  - vm_compute. discriminate.
  - vm_compute. lia.
  - vm_compute. reflexivity.
  - vm_compute. reflexivity.
  - intros Xv yv H. inversion H; subst. vm_compute. reflexivity.
  - intros Xv yv d H. inversion H; subst. vm_compute. tauto.
Defined.

(** ** The stacked model *)

Lemma concat_chain_depths (chain : list nat) :
  concat (Keras.chain_depths chain) = rev chain.
Proof.
  unfold Keras.chain_depths. induction (rev chain) as [|x l IH]; simpl;
    congruence.
Qed.

Lemma build_heads_sups (trunk : list nat) (cl : list (list Z)) :
  forall (i : nat) (h h' : Keras.Heap) (models : list Keras.Model)
         (sups : list nat),
    Keras.build_heads trunk i cl h = (h', models, sups) ->
    Forall2 (fun m sup =>
               exists act,
                 Keras.m_layers_by_depth m
                 = Keras.chain_depths (trunk ++ [sup; act]))
            models sups.
Proof.
  induction cl as [|classes rest IH]; intros i h h' models sups Hb;
    simpl in Hb.
  - inversion Hb; subst. constructor.
  - destruct (Keras.build_heads trunk (S i) rest _)
      as [[h3 models3] sups3] eqn:Hrec.
    inversion Hb; subst. constructor; [|eapply IH; exact Hrec].
    eexists. reflexivity.
Qed.

Lemma heads_then_stacked_share (trunk : list nat) (classes : list Z)
    (rest : list (list Z)) (h1 : Keras.Heap) :
  shares_layers
    (let '(h2, models, sups) :=
       Keras.build_heads trunk O (classes :: rest) h1 in
     '(h3, stacked) <-
       Keras.build_stacked trunk sups
         (Keras.total_classes (classes :: rest)) h2 ;;
     Ok (h3, models, stacked)).
Proof.
  destruct (Keras.build_heads trunk O (classes :: rest) h1)
    as [[h2 models] sups] eqn:Hb.
  pose proof (build_heads_sups _ _ _ _ Hb) as Hsups.
  pose proof (build_heads_units _ _ _ _ Hb) as [Hlen _].
  set (total := Keras.total_classes (classes :: rest)).
  unfold shares_layers.
  assert (Htrunk : forall id, In id trunk ->
            exists m, In m models
                      /\ In id (concat (Keras.m_layers_by_depth m))).
  { intros id Hid. destruct Hsups as [|m sup ms ss (act & Hm) _];
      [discriminate|].
    exists m. split; [now left|].
    rewrite Hm, concat_chain_depths, <- in_rev. apply in_or_app. now left. }
  assert (Hsup : forall id, In id sups ->
            exists m, In m models
                      /\ In id (concat (Keras.m_layers_by_depth m))).
  { intros id Hid.
    destruct (@Forall2_In_right _ _ _ _ _ id Hsups Hid)
      as (m & Hm & act & Hlayers).
    exists m. split; [exact Hm|].
    rewrite Hlayers, concat_chain_depths, <- in_rev.
    apply in_or_app. right. now left. }
  destruct sups as [|sup [|sup2 sups']]; [discriminate| |].
  - simpl. eexists _, _, _. split; [reflexivity|].
    intros id Hid. simpl in Hid.
    rewrite concat_chain_depths, <- in_rev in Hid.
    apply in_app_or in Hid. destruct Hid as [Hid|[<-|[<-|[]]]].
    + left. now apply Htrunk.
    + left. apply Hsup. now left.
    + right. eexists. split.
      * rewrite nth_error_app2 by lia. rewrite Nat.sub_diag. reflexivity.
      * right. reflexivity.
  - simpl. eexists _, _, _. split; [reflexivity|].
    intros id Hid. simpl in Hid.
    destruct Hid as [<-|[<-|Hid]].
    + right. eexists. split.
      * rewrite nth_error_app2 by lia. rewrite Nat.sub_diag. reflexivity.
      * right. reflexivity.
    + right. eexists. split.
      * rewrite nth_error_app1 by (rewrite length_app; simpl; lia).
        rewrite nth_error_app2 by lia. rewrite Nat.sub_diag. reflexivity.
      * left. reflexivity.
    + left.
      assert (Hid' : In id ((sup :: sup2 :: sups')
                            ++ concat (Keras.chain_depths trunk)))
        by exact Hid.
      apply in_app_or in Hid'. destruct Hid' as [Hid'|Hid'].
      * now apply Hsup.
      * rewrite concat_chain_depths, <- in_rev in Hid'. now apply Htrunk.
Qed.

(** X21.  [fit] never trains [stacked_model_], and does not have to:
    for at least one class set, both constructors build the stacked
    model out of the layer objects of the per-dataset models.  Every
    layer of the stacked model is a layer of one of those models, apart
    from the concatenation and the final softmax, which hold no
    weights. *)
Theorem stacked_model_shares_the_layers_of_the_models :
  forall (n_features : nat) (classes : list Z) (rest : list (list Z))
         (latent_dim : nat) (dropout : Q),
    shares_layers
      (Keras.make_factored_model n_features (classes :: rest) latent_dim
                                 dropout)
    /\ shares_layers
         (Keras.make_simple_model n_features (classes :: rest) dropout).
Proof.
  intros nf classes rest latent drop.
  unfold Keras.make_factored_model, Keras.make_simple_model.
  destruct (Qlt_le_dec 0 drop); split; apply heads_then_stacked_share.
Qed.
